(** * ZsxqCrawler: PDF summarizer and mail sender

    A shallow embedding of [email_sender.py] and [pdf_summarizer.py].

    Python strings are lists of Unicode code points, byte strings are
    lists of octets.  Every call that leaves the interpreter (file
    system, PDF reader, completion backend, SMTP session, clock) is
    answered by a [world]; the calls made and the lines printed are
    recorded, in order, in a log that survives exceptions.  Exceptions
    are the subclasses of [Exception]; interpreter interrupts are not
    modelled. *)

From Stdlib Require Import String Ascii List NArith ZArith Lia Bool.
Import ListNotations.

Set Implicit Arguments.

(** ** Python values *)

Module Py.

Local Open Scope N_scope.

(** A [str] is a sequence of code points, a [bytes] a sequence of octets. *)
Definition str := list N.
Definition bytes := list N.

(** ASCII literals. *)
Definition u (s : string) : str := map N_of_ascii (list_ascii_of_string s).

Definition str_eqb (a b : str) : bool :=
  if list_eq_dec N.eq_dec a b then true else false.

(** Truth value of a string: the empty string is false. *)
Definition truthy (s : str) : bool :=
  match s with [] => false | _ => true end.

(** Truth value of [Optional[str]]: [None] and [''] are false. *)
Definition truthy_opt (o : option str) : bool :=
  match o with Some s => truthy s | None => false end.

(** [str.isspace] on one code point (the Unicode white space set). *)
Definition isspace (c : N) : bool :=
  ((9 <=? c) && (c <=? 13)) || ((28 <=? c) && (c <=? 32))
  || (c =? 133) || (c =? 160) || (c =? 5760)
  || ((8192 <=? c) && (c <=? 8202))
  || (c =? 8232) || (c =? 8233) || (c =? 8239) || (c =? 8287)
  || (c =? 12288).

Fixpoint lstrip (s : str) : str :=
  match s with
  | c :: r => if isspace c then lstrip r else s
  | [] => []
  end.

Definition rstrip (s : str) : str := rev (lstrip (rev s)).

(** [s.strip()] *)
Definition strip (s : str) : str := rstrip (lstrip s).

(** [len(s)] *)
Definition len (A : Type) (s : list A) : Z := Z.of_nat (length s).

(** [s.lower()].  Only the mapping of [A]..[Z] is written out: no other
    code point lowers to a sequence containing [.], [p], [d] or [f], so
    the suffix tests of the program do not depend on the rest of the
    table. *)
Definition lower_cp (c : N) : N :=
  if (65 <=? c) && (c <=? 90) then c + 32 else c.

Definition lower (s : str) : str := map lower_cp s.

Fixpoint startswith (s p : str) {struct p} : bool :=
  match p with
  | [] => true
  | a :: p' =>
      match s with
      | b :: s' => (a =? b) && startswith s' p'
      | [] => false
      end
  end.

(** [s.endswith(suffix)] *)
Definition endswith (s suffix : str) : bool :=
  startswith (rev s) (rev suffix).

(** [sep.join(parts)] *)
Fixpoint join (sep : str) (parts : list str) : str :=
  match parts with
  | [] => []
  | [p] => p
  | p :: rest => p ++ sep ++ join sep rest
  end.

(** [s.split(',')]: always at least one field. *)
Fixpoint split_on (d : N) (s : str) : list str :=
  match s with
  | [] => [[]]
  | c :: r =>
      if c =? d then [] :: split_on d r
      else match split_on d r with
           | f :: fs => (c :: f) :: fs
           | [] => [[c]]
           end
  end.

(** [l[:n]] for an integer [n]: a negative bound counts from the end. *)
Definition slice_to (A : Type) (l : list A) (n : Z) : list A :=
  if (0 <=? n)%Z then firstn (Z.to_nat n) l
  else firstn (Z.to_nat (len l + n)) l.

(** Truth value of a list: the empty list is false. *)
Definition truthy_list (A : Type) (l : list A) : bool :=
  match l with [] => false | _ => true end.

(** Truth value of [Optional[int]]: [None] and [0] are false. *)
Definition truthy_int (o : option Z) : bool :=
  match o with Some n => negb (n =? 0)%Z | None => false end.

(** [os.path.basename] (POSIX): what follows the last slash. *)
Fixpoint basename (p : str) : str :=
  match p with
  | [] => []
  | c :: r =>
      if existsb (N.eqb 47) r then basename r
      else if c =? 47 then r else p
  end.

(** [os.path.join(a, b)] (POSIX). *)
Definition path_join (a b : str) : str :=
  if startswith b [47] then b
  else if negb (truthy a) || endswith a [47] then a ++ b
  else a ++ [47] ++ b.

(** *** Exceptions *)

Inductive exn : Type :=
| SMTPAuthenticationError
| SMTPException (kind : string)      (* any other class of the SMTP family *)
| UnicodeEncodeError
| KeyError (key : str)
| IndexError
| ValueError
| TypeError
| AttributeError
| OSError (what : string)
| OtherException (name : string).

(** [isinstance(e, smtplib.SMTPException)] *)
Definition is_SMTPException (e : exn) : bool :=
  match e with
  | SMTPAuthenticationError | SMTPException _ => true
  | _ => false
  end.

Inductive res (A : Type) : Type :=
| Ok (a : A)
| Raise (e : exn).
Arguments Raise {A} e.

End Py.

(** ** Encodings of the standard library used by the mail composer *)

Module Codec.

Import Py.
Local Open Scope N_scope.

(** *** UTF-8 *)

(** A code point that [str.encode('utf-8')] accepts: not a surrogate. *)
Definition scalar (c : N) : bool :=
  (c <? 55296) || ((57343 <? c) && (c <? 1114112)).

Definition utf8_cp (c : N) : list N :=
  if c <? 128 then [c]
  else if c <? 2048 then [192 + c / 64; 128 + c mod 64]
  else if c <? 65536 then
    [224 + c / 4096; 128 + (c / 64) mod 64; 128 + c mod 64]
  else
    [240 + c / 262144; 128 + (c / 4096) mod 64;
     128 + (c / 64) mod 64; 128 + c mod 64].

(** [s.encode('utf-8')], strict: a lone surrogate raises. *)
Fixpoint utf8_encode (s : str) : res bytes :=
  match s with
  | [] => Ok []
  | c :: r =>
      if scalar c then
        match utf8_encode r with
        | Ok b => Ok (utf8_cp c ++ b)
        | Raise e => Raise e
        end
      else Raise UnicodeEncodeError
  end.

Definition is_cont (b : N) : bool := (128 <=? b) && (b <? 192).

(** [b.decode('utf-8')], strict; [None] stands for a decoding error. *)
Fixpoint utf8_decode (b : bytes) : option str :=
  match b with
  | [] => Some []
  | b0 :: r0 =>
      if b0 <? 128 then option_map (cons b0) (utf8_decode r0)
      else if b0 <? 192 then None
      else if b0 <? 224 then
        match r0 with
        | b1 :: r1 =>
            let c := (b0 - 192) * 64 + (b1 - 128) in
            if is_cont b1 && (128 <=? c)
            then option_map (cons c) (utf8_decode r1) else None
        | _ => None
        end
      else if b0 <? 240 then
        match r0 with
        | b1 :: b2 :: r2 =>
            let c := (b0 - 224) * 4096 + (b1 - 128) * 64 + (b2 - 128) in
            if is_cont b1 && is_cont b2 && (2048 <=? c) && scalar c
            then option_map (cons c) (utf8_decode r2) else None
        | _ => None
        end
      else if b0 <? 248 then
        match r0 with
        | b1 :: b2 :: b3 :: r3 =>
            let c := (b0 - 240) * 262144 + (b1 - 128) * 4096
                     + (b2 - 128) * 64 + (b3 - 128) in
            if is_cont b1 && is_cont b2 && is_cont b3
               && (65536 <=? c) && (c <? 1114112)
            then option_map (cons c) (utf8_decode r3) else None
        | _ => None
        end
      else None
  end.

(** *** Percent-encoding ([urllib.parse]) *)

(** The characters [quote] never escapes: letters, digits and [_.-~]. *)
Definition always_safe (b : N) : bool :=
  ((65 <=? b) && (b <=? 90)) || ((97 <=? b) && (b <=? 122))
  || ((48 <=? b) && (b <=? 57))
  || (b =? 95) || (b =? 46) || (b =? 45) || (b =? 126).

Definition hexdigit (n : N) : N := if n <? 10 then 48 + n else 55 + n.

Definition quote_byte (safe : list N) (b : N) : str :=
  if always_safe b || existsb (N.eqb b) safe then [b]
  else [37; hexdigit (b / 16); hexdigit (b mod 16)].

(** [quote_from_bytes(bs, safe)] *)
Definition quote_from_bytes (safe : list N) (bs : bytes) : str :=
  flat_map (quote_byte safe) bs.

(** [quote(s, safe=safe)], encoding UTF-8, errors strict. *)
Definition quote_with (safe : list N) (s : str) : res str :=
  match utf8_encode s with
  | Ok bs => Ok (quote_from_bytes safe bs)
  | Raise e => Raise e
  end.

(** [urllib.parse.quote(s)]: the slash is left alone. *)
Definition quote (s : str) : res str := quote_with [47] s.

Definition unhex (c : N) : option N :=
  if (48 <=? c) && (c <=? 57) then Some (c - 48)
  else if (65 <=? c) && (c <=? 70) then Some (c - 55)
  else if (97 <=? c) && (c <=? 102) then Some (c - 87)
  else None.

(** [unquote_to_bytes] on ASCII text: [%XX] becomes one octet, anything
    else stands for itself. *)
Fixpoint unquote_to_bytes (s : str) : bytes :=
  match s with
  | [] => []
  | c :: r =>
      if c =? 37 then
        match r with
        | h :: l :: r' =>
            match unhex h, unhex l with
            | Some x, Some y => (16 * x + y) :: unquote_to_bytes r'
            | _, _ => c :: unquote_to_bytes r
            end
        | _ => c :: unquote_to_bytes r
        end
      else c :: unquote_to_bytes r
  end.

(** [unquote(s)]: percent-decoding, then UTF-8. *)
Definition unquote (s : str) : option str := utf8_decode (unquote_to_bytes s).

(** *** RFC 2231 and header parameters ([email.utils], [email.message]) *)

(** [email.utils.encode_rfc2231(s, charset, language)] with a charset. *)
Definition encode_rfc2231 (s charset language : str) : res str :=
  match quote_with [] s with
  | Ok q => Ok (charset ++ [39] ++ language ++ [39] ++ q)
  | Raise e => Raise e
  end.

(** Reading an extended value back: [charset'language'text], the text
    percent-decoded and read in the charset (UTF-8 is the only one the
    composer writes). *)
Definition decode_rfc2231 (v : str) : option str :=
  match split_on 39 v with
  | charset :: _ :: text :: rest =>
      if str_eqb (lower charset) (u "utf-8")
      then unquote (join [39] (text :: rest)) else None
  | _ => None
  end.

(** [email.utils.quote]: backslash and double quote are escaped. *)
Definition utils_quote (s : str) : str :=
  flat_map (fun c => if (c =? 92) || (c =? 34) then [92; c] else [c]) s.

Definition is_ascii (s : str) : bool := forallb (fun c => c <? 128) s.

(** A keyword argument of [add_header]: a string or an RFC 2231 triple. *)
Inductive param_value : Type :=
| PStr (s : str)
| PTriple (charset language value : str).

(** [email.message._formatparam(param, value)], quoting on. *)
Definition formatparam (param : str) (value : param_value) : res str :=
  match value with
  | PTriple cs lang v =>
      match encode_rfc2231 v cs lang with
      | Ok e => Ok (param ++ u "*=" ++ e)
      | Raise e => Raise e
      end
  | PStr [] => Ok param
  | PStr v =>
      if is_ascii v then Ok (param ++ [61; 34] ++ utils_quote v ++ [34])
      else match encode_rfc2231 v (u "utf-8") [] with
           | Ok e => Ok (param ++ u "*=" ++ e)
           | Raise e => Raise e
           end
  end.

(** The key of a keyword argument: underscores become dashes. *)
Definition param_key (k : str) : str :=
  map (fun c => if c =? 95 then 45 else c) k.

Fixpoint format_params (ps : list (str * param_value)) : res (list str) :=
  match ps with
  | [] => Ok []
  | (k, v) :: r =>
      match formatparam (param_key k) v with
      | Ok p => match format_params r with
                | Ok l => Ok (p :: l)
                | Raise e => Raise e
                end
      | Raise e => Raise e
      end
  end.

(** The value [Message.add_header(_name, _value, **_params)] stores. *)
Definition header_value (value : str) (ps : list (str * param_value)) : res str :=
  match format_params ps with
  | Ok l => Ok (join (u "; ") (value :: l))
  | Raise e => Raise e
  end.

(** *** Base64 ([base64.encodebytes]) *)

Definition b64_char (i : N) : N :=
  if i <? 26 then 65 + i
  else if i <? 52 then 71 + i
  else if i <? 62 then i - 4
  else if i =? 62 then 43 else 47.

Fixpoint b64_encode (b : bytes) : str :=
  match b with
  | x :: y :: z :: r =>
      let n := x * 65536 + y * 256 + z in
      b64_char (n / 262144) :: b64_char ((n / 4096) mod 64)
        :: b64_char ((n / 64) mod 64) :: b64_char (n mod 64) :: b64_encode r
  | [x; y] =>
      let n := x * 65536 + y * 256 in
      [b64_char (n / 262144); b64_char ((n / 4096) mod 64);
       b64_char ((n / 64) mod 64); 61]
  | [x] =>
      let n := x * 65536 in
      [b64_char (n / 262144); b64_char ((n / 4096) mod 64); 61; 61]
  | [] => []
  end.

Fixpoint encodebytes_lines (fuel : nat) (b : bytes) : str :=
  match fuel, b with
  | _, [] => []
  | O, _ => []
  | S f, _ => b64_encode (firstn 57 b) ++ [10] ++ encodebytes_lines f (skipn 57 b)
  end.

(** [base64.encodebytes]: lines of 57 octets, each ended by a newline. *)
Definition encodebytes (b : bytes) : str := encodebytes_lines (length b) b.

End Codec.

(** ** Data shared by the two source files *)

Module Data.

Import Py.

(** One attachment part of a message, as [send_email] leaves it. *)
Record attachment_part : Type := {
  part_maintype : str;
  part_subtype : str;
  part_payload : str;              (* the payload after [encode_base64] *)
  part_transfer_encoding : str;    (* Content-Transfer-Encoding *)
  part_disposition : str           (* Content-Disposition *)
}.

(** The [MIMEMultipart] object built by [send_email]. *)
Record message : Type := {
  msg_from : str;
  msg_to : str;
  msg_subject : str;
  msg_html : str;                  (* the text/html part, charset utf-8 *)
  msg_parts : list attachment_part
}.

(** [response.usage] *)
Record usage : Type := {
  prompt_tokens : Z;
  completion_tokens : Z;
  total_tokens : Z
}.

(** The object returned by [chat.completions.create]. *)
Record response : Type := {
  resp_choices : list (option str);   (* [choices[i].message.content] *)
  resp_model : str;
  resp_usage : option usage
}.

(** The [model_info] dictionary. *)
Record model_info : Type := {
  mi_model : str;
  mi_prompt_tokens : Z;
  mi_completion_tokens : Z;
  mi_total_tokens : Z
}.

(** A format string, kept split into literal text and replacement
    fields [{name}], each a bare argument name: a keyword, a number or
    nothing.  Fields with an attribute, an index, a conversion or a
    format specification have no counterpart here. *)
Inductive piece : Type :=
| Lit (s : str)
| Field (name : str).

Definition template := list piece.

(** The configuration dictionary read from [config.toml]. *)
Record azure_cfg : Type := {
  cfg_api_key : option str;
  cfg_endpoint : option str;
  cfg_deployment_name : option str;
  cfg_api_version : option str;
  cfg_system_prompt : option str
}.

Record email_cfg : Type := {
  cfg_smtp_server : option str;
  cfg_smtp_port : option Z;
  cfg_sender_email : option str;
  cfg_sender_password : option str;
  cfg_use_tls : option bool;
  cfg_receiver_email : option str;
  cfg_subject_template : option template
}.

Record download_cfg : Type := { cfg_dir : option str }.

Record config : Type := {
  azure_openai : option azure_cfg;
  email : option email_cfg;
  download : option download_cfg;
  other_tables : bool              (* the file has other top-level keys *)
}.

(** Lines written to the console. *)
Inductive console : Type :=
(* email_sender.py *)
| MsgAttachmentMissing (path : str)
| MsgMailSent (subject : str) (recipients : str)
| MsgAuthFailed
| MsgSmtpError (e : exn)
| MsgMailFailed (e : exn)
(* PDFSummarizer.__init__ *)
| MsgAzureNotConfigured
| MsgMailConfigIncomplete
(* extract_text_from_pdf *)
| MsgNoPyPDF2
| MsgReadingPdf (name : str) (total pages_to_read : Z)
| MsgCharCount (n : Z)
| MsgPdfReadFailed (e : exn)
(* summarize_text *)
| MsgClientMissing
| MsgTextTooShort
| MsgSummarizing (model : str)
| MsgSummaryDone
| MsgSummaryStats (chars : Z) (info : model_info)
| MsgSummaryFailed (e : exn)
(* process_pdf *)
| MsgProcessing (filename : str)
| MsgExtractFailedSkip
| MsgSummarizeFailedSkip
| MsgDoneSent
| MsgDoneSendFailed
| MsgDoneNoMail (summary : str)
(* scan_and_process_pdfs *)
| MsgScanning (directory : str)
| MsgFound (n : Z)
| MsgNoneFound
| MsgLimit (n : Z)
| MsgProgress (i n : Z)
| MsgProcessError (e : exn)
| MsgStats (total success failed : Z)
(* load_config and main *)
| MsgNoTomllib
| MsgNoConfigFile
| MsgConfigLoaded
| MsgConfigError (e : exn)
| MsgCannotLoadConfig
| MsgNeedApiKey
| MsgFileMissing (path : str)
| MsgDirMissing (path : str)
| MsgUsingDefaultDir (path : str)
| MsgNeedDirOrFile.

(** What the program does that can be observed from outside, in order. *)
Inductive event : Type :=
| Print (line : console)
| Exists (path : str)                              (* os.path.exists *)
| GetSize (path : str)                             (* os.path.getsize *)
| ReadFile (path : str)                            (* open(path, 'rb').read() *)
| Walk (directory : str)                           (* os.walk *)
| OpenPdf (path : str)                             (* open + PdfReader + len(pages) *)
| ExtractPage (path : str) (page : nat)            (* pages[i].extract_text() *)
| ChatCompletion (model system user : str)         (* chat.completions.create *)
| SmtpOpen (ssl : bool) (host : str) (port : Z)    (* SMTP(...) or SMTP_SSL(...) *)
| SmtpStartTls
| SmtpLogin (user password : str)
| SmtpSendMessage (m : message)
| SmtpQuit
| Sleep (seconds : Z)
| LoadToml (path : str)
| EnterProcessPdf (path : str) (send_email : bool). (* entry of process_pdf *)

Definition log := list event.

(** The environment.  Each answer may depend on everything that has
    happened so far. *)
Record world : Type := {
  (* which optional imports succeeded *)
  has_tomllib : bool;
  has_azure_openai : bool;
  has_pypdf2 : bool;
  (* file system *)
  path_exists : log -> str -> bool;
  getsize : log -> str -> res Z;
  read_file : log -> str -> res bytes;
  walk : log -> str -> list (str * list str * list str);
  load_toml : log -> str -> res config;
  (* PDF reader: the page count, then the text of one page *)
  open_pdf : log -> str -> res nat;
  extract_page : log -> str -> nat -> res str;
  (* completion backend *)
  chat_completion : log -> str -> str -> str -> res response;
  (* SMTP session *)
  smtp_open : log -> bool -> str -> Z -> res unit;
  smtp_starttls : log -> res unit;
  smtp_login : log -> str -> str -> res unit;
  smtp_send_message : log -> message -> res unit;
  smtp_quit : log -> res unit;
  (* the f-string of [create_email_body]: floating point and the clock *)
  render_html : log -> str -> str -> Z -> model_info -> str
}.

End Data.

(** ** Computations: a result or an exception, and the log so far *)

Module Eff.

Import Py Data.

Definition M (A : Type) : Type := log -> res A * log.

Definition ret {A} (a : A) : M A := fun h => (Ok a, h).

Definition bind {A B} (m : M A) (k : A -> M B) : M B :=
  fun h => match m h with
           | (Ok a, h') => k a h'
           | (Raise e, h') => (Raise e, h')
           end.

Definition raise {A} (e : exn) : M A := fun h => (Raise e, h).

(** [try: m except Exception as e: handler e] *)
Definition try_except {A} (m : M A) (handler : exn -> M A) : M A :=
  fun h => match m h with
           | (Raise e, h') => handler e h'
           | r => r
           end.

(** A call to the world: answered from the history, then recorded. *)
Definition ask {A} (answer : log -> res A) (ev : event) : M A :=
  fun h => (answer h, h ++ [ev]).

(** Recording an event that has no answer. *)
Definition note (ev : event) : M unit :=
  fun h => (Ok tt, h ++ [ev]).

(** A line on the console, which is taken to accept every line it is
    given: [print] does not raise. *)
Definition print (c : console) : M unit := note (Print c).

(** Reading the world without leaving a trace. *)
Definition peek {A} (f : log -> A) : M A := fun h => (Ok (f h), h).

(** Lifting a pure computation that may raise. *)
Definition lift {A} (r : res A) : M A := fun h => (r, h).

Declare Scope eff_scope.
Delimit Scope eff_scope with eff.
Notation "x <- m ;; k" := (bind m (fun x => k))
  (at level 61, m at next level, right associativity) : eff_scope.
Notation "m ;; k" := (bind m (fun _ => k))
  (at level 61, right associativity) : eff_scope.

(** [never_raises m]: whatever the history, [m] returns a value. *)
Definition never_raises {A} (m : M A) : Prop :=
  forall h, exists a h', m h = (Ok a, h').

(** [quiet P m]: [m] only appends to the log, and nothing that
    satisfies [P]. *)
Definition quiet {A} (P : event -> bool) (m : M A) : Prop :=
  forall h, exists evs, snd (m h) = h ++ evs /\ Forall (fun e => P e = false) evs.

End Eff.

(** ** email_sender.py *)

Module EmailSender.

Import Py Codec Data Eff.
Local Open Scope eff_scope.

(** The attributes set by [EmailSender.__init__]. *)
Record t : Type := {
  smtp_server : str;
  smtp_port : Z;
  sender_email : str;
  sender_password : str;
  use_tls : bool
}.

(** The type chosen from the file name. *)
Definition mime_type (filename : str) : str * str :=
  if endswith (lower filename) (u ".pdf")
  then (u "application", u "pdf")
  else (u "application", u "octet-stream").

(** The keyword arguments given to [add_header]. *)
Definition disposition_params (filename encoded_filename : str)
  : list (str * param_value) :=
  [(u "filename", PTriple (u "utf-8") [] filename);
   (u "filename_ascii", PStr encoded_filename)].

(** The body of the [with] block: the part built for one readable file. *)
Definition make_part (filename : str) (data : bytes) : res attachment_part :=
  let (maintype, subtype) := mime_type filename in
  match quote filename with
  | Raise e => Raise e
  | Ok encoded_filename =>
      match header_value (u "attachment")
                         (disposition_params filename encoded_filename) with
      | Raise e => Raise e
      | Ok disposition =>
          Ok {| part_maintype := maintype;
                part_subtype := subtype;
                part_payload := encodebytes data;
                part_transfer_encoding := u "base64";
                part_disposition := disposition |}
      end
  end.

Section WithWorld.

Variable w : world.

(** The loop over [attachments]; the parts are attached in order. *)
Fixpoint attach_all (attachments : list str) (parts : list attachment_part)
  : M (list attachment_part) :=
  match attachments with
  | [] => ret parts
  | file_path :: rest =>
      found <- ask (fun h => Ok (path_exists w h file_path)) (Exists file_path) ;;
      if (found : bool) then
        let filename := basename file_path in
        data <- ask (fun h => read_file w h file_path) (ReadFile file_path) ;;
        part <- lift (make_part filename data) ;;
        attach_all rest (parts ++ [part])
      else
        print (MsgAttachmentMissing file_path) ;;
        attach_all rest parts
  end.

(** The first half of the [try] block: the message object.  The
    headers are stored as given; [MIMEText(body, 'html', 'utf-8')]
    encodes the body, and raises if UTF-8 cannot. *)
Definition compose (self : t) (receiver_emails : list str) (subject body : str)
           (attachments : option (list str)) : M message :=
  lift (utf8_encode body) ;;
  parts <- match attachments with          (* [if attachments:] *)
           | Some l => if truthy_list l then attach_all l [] else ret []
           | None => ret []
           end ;;
  ret {| msg_from := sender_email self;
         msg_to := join (u ", ") receiver_emails;
         msg_subject := subject;
         msg_html := body;
         msg_parts := parts |}.

(** The second half: one session with the relay. *)
Definition transmit (self : t) (msg : message) : M unit :=
  (if use_tls self then
     ask (fun h => smtp_open w h false (smtp_server self) (smtp_port self))
         (SmtpOpen false (smtp_server self) (smtp_port self)) ;;
     ask (smtp_starttls w) SmtpStartTls
   else
     ask (fun h => smtp_open w h true (smtp_server self) (smtp_port self))
         (SmtpOpen true (smtp_server self) (smtp_port self))) ;;
  ask (fun h => smtp_login w h (sender_email self) (sender_password self))
      (SmtpLogin (sender_email self) (sender_password self)) ;;
  ask (fun h => smtp_send_message w h msg) (SmtpSendMessage msg) ;;
  ask (smtp_quit w) SmtpQuit.

(** The three [except] clauses, tried in order. *)
Definition on_error (e : exn) : M bool :=
  match e with
  | SMTPAuthenticationError => print MsgAuthFailed ;; ret false
  | _ =>
      if is_SMTPException e
      then print (MsgSmtpError e) ;; ret false
      else print (MsgMailFailed e) ;; ret false
  end.

Definition send_email (self : t) (receiver_emails : list str) (subject body : str)
           (attachments : option (list str)) : M bool :=
  try_except
    (msg <- compose self receiver_emails subject body attachments ;;
     transmit self msg ;;
     print (MsgMailSent subject (join (u ", ") receiver_emails)) ;;
     ret true)
    on_error.

Definition send_simple_email (self : t) (receiver_emails : list str)
           (subject body : str) : M bool :=
  send_email self receiver_emails subject body None.

End WithWorld.

End EmailSender.

(** ** pdf_summarizer.py *)

Module PDFSummarizer.

Import Py Codec Data Eff.
Local Open Scope eff_scope.

(** The attributes of a [PDFSummarizer] the methods read. *)
Record t : Type := {
  client : bool;                       (* [self.client] is not [None] *)
  deployment_name : str;
  system_prompt : str;
  email_sender : option EmailSender.t;
  receiver_emails : list str;
  subject_template : template
}.

(** The counters returned by a batch. *)
Record stats : Type := {
  total : Z;
  success : Z;
  failed : Z
}.

(** The command line after [parse_args]. *)
Record args : Type := {
  arg_directory : option str;
  arg_file : option str;
  arg_max_files : option Z;
  arg_no_email : bool
}.

Definition default_deployment : str := u "gpt-4".
Definition default_system_prompt : str :=
  [20320; 26159; 19968; 20010; 19987; 19994; 30340; 25991; 26723; 24635;
   32467; 21161; 25163; 12290]%N.
Definition default_subject_template : template :=
  [Lit [80; 68; 70; 25991; 26723; 24635; 32467; 58; 32]%N; Field (u "filename")].

Definition get {A} (o : option A) (default : A) : A :=
  match o with Some a => a | None => default end.

Definition empty_azure : azure_cfg :=
  {| cfg_api_key := None; cfg_endpoint := None; cfg_deployment_name := None;
     cfg_api_version := None; cfg_system_prompt := None |}.

Definition empty_email : email_cfg :=
  {| cfg_smtp_server := None; cfg_smtp_port := None; cfg_sender_email := None;
     cfg_sender_password := None; cfg_use_tls := None;
     cfg_receiver_email := None; cfg_subject_template := None |}.

(** The recipient list: split at commas, trimmed, empty entries dropped. *)
Definition parse_receivers (s : str) : list str :=
  map strip (filter (fun e => truthy (strip e)) (split_on 44 s)).

Definition isdigit (c : N) : bool := ((48 <=? c) && (c <=? 57))%N.

(** One replacement field of [template.format(filename=filename)]. *)
Definition format_field (name filename : str) : res str :=
  if str_eqb name (u "filename") then Ok filename
  else if forallb isdigit name then Raise IndexError
  else Raise (KeyError name).

(** [template.format(filename=filename)] *)
Fixpoint format_template (tpl : template) (filename : str) : res str :=
  match tpl with
  | [] => Ok []
  | Lit s :: r =>
      match format_template r filename with
      | Ok t => Ok (s ++ t)
      | Raise e => Raise e
      end
  | Field name :: r =>
      match format_field name filename with
      | Ok v => match format_template r filename with
                | Ok t => Ok (v ++ t)
                | Raise e => Raise e
                end
      | Raise e => Raise e
      end
  end.

(** The user message of the completion request. *)
Definition user_prompt (filename text : str) : str :=
  [35831; 24635; 32467; 20197; 19979; 80; 68; 70; 25991; 26723; 30340; 20869;
   23481; 65288; 25991; 20214; 21517; 65306]%N
  ++ filename ++ [65289; 65306; 10; 10]%N ++ text.

Section WithWorld.

Variable w : world.

(** [PDFSummarizer.__init__], for a configuration whose values have the
    types of [config]; the constructors of the two clients are taken
    to accept the arguments they are given. *)
Definition init (c : config) : M t :=
  let openai_config := get (azure_openai c) empty_azure in
  let has_client :=
    has_azure_openai w && truthy_opt (cfg_api_key openai_config)
    && truthy_opt (cfg_endpoint openai_config) in
  (if has_client then ret tt else print MsgAzureNotConfigured) ;;
  let email_config := get (email c) empty_email in
  bind
    (if truthy_opt (cfg_smtp_server email_config)
        && truthy_opt (cfg_sender_email email_config)
        && truthy_opt (cfg_sender_password email_config)
     then ret (Some {| EmailSender.smtp_server := get (cfg_smtp_server email_config) [];
                       EmailSender.smtp_port := get (cfg_smtp_port email_config) 587%Z;
                       EmailSender.sender_email := get (cfg_sender_email email_config) [];
                       EmailSender.sender_password := get (cfg_sender_password email_config) [];
                       EmailSender.use_tls := get (cfg_use_tls email_config) true |})
     else print MsgMailConfigIncomplete ;; ret None)
    (fun sender =>
       ret {| client := has_client;
              deployment_name := get (cfg_deployment_name openai_config) default_deployment;
              system_prompt := get (cfg_system_prompt openai_config) default_system_prompt;
              email_sender := sender;
              receiver_emails := parse_receivers (get (cfg_receiver_email email_config) []);
              subject_template := get (cfg_subject_template email_config)
                                      default_subject_template |}).

(** The loop over the pages: empty page texts are not kept. *)
Fixpoint read_pages (pdf_path : str) (pages : list nat) (text_content : list str)
  : M (list str) :=
  match pages with
  | [] => ret text_content
  | page_num :: rest =>
      text <- ask (fun h => extract_page w h pdf_path page_num)
                  (ExtractPage pdf_path page_num) ;;
      read_pages pdf_path rest
                 (if truthy text then text_content ++ [text] else text_content)
  end.

Definition extract_text_from_pdf (pdf_path : str) (max_pages : Z) : M str :=
  if negb (has_pypdf2 w) then print MsgNoPyPDF2 ;; ret []
  else
    try_except
      (total_pages <- ask (fun h => open_pdf w h pdf_path) (OpenPdf pdf_path) ;;
       let pages_to_read := Z.min (Z.of_nat total_pages) max_pages in
       print (MsgReadingPdf (basename pdf_path) (Z.of_nat total_pages) pages_to_read) ;;
       text_content <- read_pages pdf_path (seq 0 (Z.to_nat pages_to_read)) [] ;;
       let full_text := join [10; 10]%N text_content in
       print (MsgCharCount (len full_text)) ;;
       ret full_text)
      (fun e => print (MsgPdfReadFailed e) ;; ret []).

(** [response.choices[0].message.content] *)
Definition first_choice (r : response) : res (option str) :=
  match resp_choices r with
  | c :: _ => Ok c
  | [] => Raise IndexError
  end.

Definition usage_info (r : response) : res model_info :=
  match resp_usage r with
  | Some us => Ok {| mi_model := resp_model r;
                    mi_prompt_tokens := prompt_tokens us;
                    mi_completion_tokens := completion_tokens us;
                    mi_total_tokens := total_tokens us |}
  | None => Raise AttributeError
  end.

(** [len(summary)] where [summary] may be [None]. *)
Definition len_opt (s : option str) : res (Z * str) :=
  match s with
  | Some t => Ok (len t, t)
  | None => Raise TypeError
  end.

Definition summarize_text (self : t) (text filename : str)
  : M (option (str * model_info)) :=
  if negb (client self) then print MsgClientMissing ;; ret None
  else if negb (truthy text) || (len (strip text) <? 100)%Z
  then print MsgTextTooShort ;; ret None
  else
    try_except
      (print (MsgSummarizing (deployment_name self)) ;;
       response <- ask (fun h => chat_completion w h (deployment_name self)
                                   (system_prompt self) (user_prompt filename text))
                       (ChatCompletion (deployment_name self) (system_prompt self)
                                       (user_prompt filename text)) ;;
       content <- lift (first_choice response) ;;
       info <- lift (usage_info response) ;;
       print MsgSummaryDone ;;
       ls <- lift (len_opt content) ;;
       print (MsgSummaryStats (fst ls) info) ;;
       ret (Some (snd ls, info)))
      (fun e => print (MsgSummaryFailed e) ;; ret None).

Definition create_email_body (filename summary pdf_path : str) (info : model_info)
  : M str :=
  size <- ask (fun h => getsize w h pdf_path) (GetSize pdf_path) ;;
  peek (fun h => render_html w h filename summary size info).

Definition process_pdf (self : t) (pdf_path : str) (send_email : bool) : M bool :=
  note (EnterProcessPdf pdf_path send_email) ;;
  let filename := basename pdf_path in
  print (MsgProcessing filename) ;;
  text <- extract_text_from_pdf pdf_path 50 ;;
  if negb (truthy text) then print MsgExtractFailedSkip ;; ret false
  else
    result <- summarize_text self text filename ;;
    match result with
    | None => print MsgSummarizeFailedSkip ;; ret false
    | Some (summary, info) =>
        (* [send_email and self.email_sender and self.receiver_emails] *)
        match (if send_email && truthy_list (receiver_emails self)
               then email_sender self else None) with
        | Some sender =>
            subject <- lift (format_template (subject_template self) filename) ;;
            body <- create_email_body filename summary pdf_path info ;;
            ok <- EmailSender.send_email w sender (receiver_emails self)
                                         subject body (Some [pdf_path]) ;;
            if (ok : bool) then print MsgDoneSent ;; ret true
            else print MsgDoneSendFailed ;; ret false
        | None => print (MsgDoneNoMail summary) ;; ret true
        end
    end.

(** The [.pdf] files (any case) of a walk, in traversal order. *)
Definition discover (triples : list (str * list str * list str)) : list str :=
  flat_map (fun '(root, _, files) =>
              map (path_join root)
                  (filter (fun file => endswith (lower file) (u ".pdf")) files))
           triples.

Definition zero_stats : stats := {| total := 0; success := 0; failed := 0 |}.

Definition add_success (st : stats) : stats :=
  {| total := total st; success := success st + 1; failed := failed st |}.

Definition add_failed (st : stats) : stats :=
  {| total := total st; success := success st; failed := failed st + 1 |}.

(** One turn of the loop over the files: the [try] statement, then the
    pause unless this was the last file. *)
Definition batch_step (self : t) (send_email : bool) (n : Z)
           (st : stats) (i : Z) (pdf_path : str) : M stats :=
  print (MsgProgress i n) ;;
  st' <- try_except
           (ok <- process_pdf self pdf_path send_email ;;
            ret (if (ok : bool) then add_success st else add_failed st))
           (fun e => print (MsgProcessError e) ;; ret (add_failed st)) ;;
  (if (i <? n)%Z then note (Sleep 2) else ret tt) ;;
  ret st'.

Fixpoint batch_loop (self : t) (send_email : bool) (n : Z)
         (i : Z) (files : list str) (st : stats) : M stats :=
  match files with
  | [] => ret st
  | pdf_path :: rest =>
      st' <- batch_step self send_email n st i pdf_path ;;
      batch_loop self send_email n (i + 1) rest st'
  end.

Definition scan_and_process_pdfs (self : t) (directory : str) (send_email : bool)
           (max_files : option Z) : M stats :=
  print (MsgScanning directory) ;;
  triples <- ask (fun h => Ok (walk w h directory)) (Walk directory) ;;
  let found := discover triples in
  print (MsgFound (len found)) ;;
  if negb (truthy_list found) then print MsgNoneFound ;; ret zero_stats
  else
    pdf_files <- (if truthy_int max_files
                  then print (MsgLimit (get max_files 0%Z)) ;;
                       ret (slice_to found (get max_files 0%Z))
                  else ret found) ;;
    st <- batch_loop self send_email (len pdf_files) 1 pdf_files
                     {| total := len pdf_files; success := 0; failed := 0 |} ;;
    print (MsgStats (total st) (success st) (failed st)) ;;
    ret st.

Definition config_paths : list str :=
  [u "config.toml"; u "../config.toml"; u "../../config.toml"].

Fixpoint find_config (paths : list str) : M (option str) :=
  match paths with
  | [] => ret None
  | path :: rest =>
      found <- ask (fun h => Ok (path_exists w h path)) (Exists path) ;;
      if (found : bool) then ret (Some path) else find_config rest
  end.

Definition load_config : M (option config) :=
  if negb (has_tomllib w) then print MsgNoTomllib ;; ret None
  else
    config_file <- find_config config_paths ;;
    match config_file with
    | None => print MsgNoConfigFile ;; ret None
    | Some f =>
        try_except
          (c <- ask (fun h => load_toml w h f) (LoadToml f) ;;
           print MsgConfigLoaded ;;
           ret (Some c))
          (fun e => print (MsgConfigError e) ;; ret None)
    end.

(** Truth value of the configuration dictionary: false when it has no
    key at all. *)
Definition truthy_config (c : config) : bool :=
  match azure_openai c, email c, download c with
  | None, None, None => other_tables c
  | _, _, _ => true
  end.

Definition main (a : args) : M unit :=
  loaded <- load_config ;;
  match loaded with
  | None => print MsgCannotLoadConfig
  | Some c =>
      if negb (truthy_config c) then print MsgCannotLoadConfig
      else if negb (truthy_opt (cfg_api_key (get (azure_openai c) empty_azure)))
      then print MsgNeedApiKey
      else
        summarizer <- init c ;;
        let send_email := negb (arg_no_email a) in
        if truthy_opt (arg_file a) then
          let file := get (arg_file a) [] in
          found <- ask (fun h => Ok (path_exists w h file)) (Exists file) ;;
          if (found : bool)
          then process_pdf summarizer file send_email ;; ret tt
          else print (MsgFileMissing file)
        else if truthy_opt (arg_directory a) then
          let directory := get (arg_directory a) [] in
          found <- ask (fun h => Ok (path_exists w h directory)) (Exists directory) ;;
          if (found : bool)
          then scan_and_process_pdfs summarizer directory send_email
                                     (arg_max_files a) ;; ret tt
          else print (MsgDirMissing directory)
        else
          let default_dir :=
            get (cfg_dir (get (download c) {| cfg_dir := None |})) (u "downloads") in
          found <- ask (fun h => Ok (path_exists w h default_dir)) (Exists default_dir) ;;
          if (found : bool)
          then print (MsgUsingDefaultDir default_dir) ;;
               scan_and_process_pdfs summarizer default_dir send_email
                                     (arg_max_files a) ;; ret tt
          else print MsgNeedDirOrFile
  end.

End WithWorld.

End PDFSummarizer.

(** ** Notions used in the statements *)

Module Statements.

Import Py Codec Data Eff PDFSummarizer.
Local Open Scope Z_scope.

(** What one turn of the loop does to the counters: the outcome of
    [process_pdf] picks the counter, an exception counts as a failure. *)
Definition step_result (w : world) (self : t) (send_email : bool) (n : Z)
           (st : stats) (i : Z) (pdf_path : str) (h : log) : stats :=
  match fst (process_pdf w self pdf_path send_email (h ++ [Print (MsgProgress i n)])) with
  | Ok true => add_success st
  | _ => add_failed st
  end.

(** The files a batch goes through once the cap has been applied. *)
Definition capped (found : list str) (max_files : option Z) : list str :=
  if truthy_int max_files then slice_to found (get max_files 0) else found.

(** Selecting events of one kind from a log. *)
Definition is_chat (e : event) : bool :=
  match e with ChatCompletion _ _ _ => true | _ => false end.

Definition is_enter (e : event) : bool :=
  match e with EnterProcessPdf _ _ => true | _ => false end.

Definition is_smtp_open (e : event) : bool :=
  match e with SmtpOpen _ _ _ => true | _ => false end.

(** Everything but console output, existence tests and reading the
    configuration file: a batch that has not started leaves none. *)
Definition is_work (e : event) : bool :=
  match e with
  | Print _ | Exists _ | LoadToml _ => false
  | _ => true
  end.

Definition is_smtp (e : event) : bool :=
  match e with
  | SmtpOpen _ _ _ | SmtpStartTls | SmtpLogin _ _ | SmtpSendMessage _ | SmtpQuit => true
  | _ => false
  end.

(** "The summarization API key is absent" *)
Definition api_key_missing (c : config) : bool :=
  negb (truthy_opt (cfg_api_key (get (azure_openai c) empty_azure))).

(** "The mail relay credentials are absent": the relay, the sender
    address or the password. *)
Definition relay_credentials_missing (c : config) : bool :=
  negb (truthy_opt (cfg_smtp_server (get (email c) empty_email))
        && truthy_opt (cfg_sender_email (get (email c) empty_email))
        && truthy_opt (cfg_sender_password (get (email c) empty_email))).

(** The summarizer reaches the mail stage with this sender, if any. *)
Definition mail_stage (self : t) (send_email : bool) : option EmailSender.t :=
  if send_email && truthy_list (receiver_emails self) then email_sender self else None.

(** The log of [process_pdf] when it calls the extractor. *)
Definition entered (h : log) (pdf_path : str) (send_email : bool) : log :=
  (h ++ [EnterProcessPdf pdf_path send_email])
    ++ [Print (MsgProcessing (basename pdf_path))].

(** The three kinds of failure the transport reports. *)
Inductive failure_class : Type :=
| AuthenticationFailure      (* the relay rejected the credential *)
| ProtocolFailure            (* the relay reported an SMTP error *)
| GenericFailure.            (* anything else *)

Definition classify (e : exn) : failure_class :=
  match e with
  | SMTPAuthenticationError => AuthenticationFailure
  | SMTPException _ => ProtocolFailure
  | _ => GenericFailure
  end.

(** The console line of each kind. *)
Definition failure_line (e : exn) : console :=
  match classify e with
  | AuthenticationFailure => MsgAuthFailed
  | ProtocolFailure => MsgSmtpError e
  | GenericFailure => MsgMailFailed e
  end.

(** The calls of one complete session, by TLS mode: a plain connection
    upgraded with STARTTLS, or a connection that is TLS from the start. *)
Definition session (self : EmailSender.t) (msg : message) : list event :=
  (if EmailSender.use_tls self
   then [SmtpOpen false (EmailSender.smtp_server self) (EmailSender.smtp_port self);
         SmtpStartTls]
   else [SmtpOpen true (EmailSender.smtp_server self) (EmailSender.smtp_port self)])
  ++ [SmtpLogin (EmailSender.sender_email self) (EmailSender.sender_password self);
      SmtpSendMessage msg;
      SmtpQuit].

(** What [send_email] returns once the session has run. *)
Definition finish (subject : str) (receiver_emails : list str)
           (r : res unit * log) : res bool * log :=
  match r with
  | (Ok _, h) =>
      (Ok true, h ++ [Print (MsgMailSent subject (join (u ", ") receiver_emails))])
  | (Raise e, h) => (Ok false, h ++ [Print (failure_line e)])
  end.

(** A character of the output of [quote]: ASCII, and none of the
    double quote, the backslash and the apostrophe. *)
Definition plain (c : N) : bool :=
  ((c <? 128) && negb (c =? 34) && negb (c =? 92) && negb (c =? 39))%N.

(** "The extension is .pdf, in any case": the last four characters. *)
Definition has_pdf_extension (filename : str) : bool :=
  match rev filename with
  | f :: d :: p :: dot :: _ =>
      ((dot =? 46) && ((p =? 112) || (p =? 80)) && ((d =? 100) || (d =? 68))
       && ((f =? 102) || (f =? 70)))%N
  | _ => false
  end.

(** What the composer owes for an attachment [path] whose file holds
    [content path]. *)
Definition attached (content : str -> bytes) (path : str) (part : attachment_part)
  : Prop :=
  part_maintype part = u "application" /\
  part_subtype part
  = (if has_pdf_extension (basename path) then u "pdf" else u "octet-stream") /\
  part_payload part = encodebytes (content path) /\
  part_transfer_encoding part = u "base64".

(** The texts of a run of pages, or the exception of the first page
    that fails. *)
Fixpoint texts (l : list (res str)) : res (list str) :=
  match l with
  | [] => Ok []
  | Ok t :: r =>
      match texts r with
      | Ok ts => Ok (t :: ts)
      | Raise e => Raise e
      end
  | Raise e :: _ => Raise e
  end.

(** "The text of the first [min(total_pages, cap)] pages, joined by a
    blank line, pages without text left out", and the empty string when
    a page cannot be read. *)
Definition expected_text (page : nat -> res str) (total_pages : nat) (cap : Z) : str :=
  match texts (map page (seq 0 (Z.to_nat (Z.min (Z.of_nat total_pages) cap)))) with
  | Ok ts => join [10; 10]%N (filter truthy ts)
  | Raise _ => []
  end.

End Statements.

(** ** Concrete worlds, configurations and inputs *)

Module Samples.

Import Py Codec Data Eff PDFSummarizer.

(** "报告.pdf" and "报告.txt" *)
Definition baogao_pdf : str := [25253; 21578]%N ++ u ".pdf".
Definition baogao_txt : str := [25253; 21578]%N ++ u ".txt".

Definition long_text : str := repeat 97%N 120.

Definition reply : response :=
  {| resp_choices := [Some (u "summary")];
     resp_model := u "gpt-4";
     resp_usage := Some {| prompt_tokens := 10; completion_tokens := 5;
                           total_tokens := 15 |} |}.

Definition azure_ok : azure_cfg :=
  {| cfg_api_key := Some (u "key"); cfg_endpoint := Some (u "https://example");
     cfg_deployment_name := None; cfg_api_version := None;
     cfg_system_prompt := Some (u "sys") |}.

Definition email_ok (tpl : option template) : email_cfg :=
  {| cfg_smtp_server := Some (u "smtp.example"); cfg_smtp_port := None;
     cfg_sender_email := Some (u "me@example");
     cfg_sender_password := Some (u "secret"); cfg_use_tls := None;
     cfg_receiver_email := Some (u "a@example, b@example,");
     cfg_subject_template := tpl |}.

(** A complete configuration. *)
Definition config_ok : config :=
  {| azure_openai := Some azure_ok; email := Some (email_ok None); download := None; other_tables := false |}.

(** The subject template is "{name}". *)
Definition config_bad_template : config :=
  {| azure_openai := Some azure_ok;
     email := Some (email_ok (Some [Field (u "name")]));
     download := None; other_tables := false |}.

(** No mail relay credentials at all. *)
Definition config_no_mail : config :=
  {| azure_openai := Some azure_ok; email := None; download := None; other_tables := false |}.

(** Only tables the summarizer does not read. *)
Definition config_unrelated : config :=
  {| azure_openai := None; email := None; download := None; other_tables := true |}.

(** No API key. *)
Definition config_no_key : config :=
  {| azure_openai := None; email := Some (email_ok None); download := None; other_tables := false |}.

(** A world where every call succeeds: the directory holds [a.pdf],
    [n.txt] and [B.PDF], every PDF has two pages, the second one empty. *)
Definition world_with (c : config) (page : nat -> res str) : world :=
  {| has_tomllib := true; has_azure_openai := true; has_pypdf2 := true;
     path_exists := fun _ _ => true;
     getsize := fun _ _ => Ok 2048%Z;
     read_file := fun _ _ => Ok [77; 97; 110]%N;
     walk := fun _ d => [(d, [], [u "a.pdf"; u "n.txt"; u "B.PDF"])];
     load_toml := fun _ _ => Ok c;
     open_pdf := fun _ _ => Ok 2%nat;
     extract_page := fun _ _ i => page i;
     chat_completion := fun _ _ _ _ => Ok reply;
     smtp_open := fun _ _ _ _ => Ok tt;
     smtp_starttls := fun _ => Ok tt;
     smtp_login := fun _ _ _ => Ok tt;
     smtp_send_message := fun _ _ => Ok tt;
     smtp_quit := fun _ => Ok tt;
     render_html := fun _ _ summary _ _ => summary |}.

(** The same world with another file system: [ex] tells which paths exist. *)
Definition world_files (ex : str -> bool) : world :=
  {| has_tomllib := true; has_azure_openai := true; has_pypdf2 := true;
     path_exists := fun _ p => ex p;
     getsize := fun _ _ => Ok 2048%Z;
     read_file := fun _ _ => Ok [77; 97; 110]%N;
     walk := fun _ d => [(d, [], [u "a.pdf"; u "n.txt"; u "B.PDF"])];
     load_toml := fun _ _ => Ok config_ok;
     open_pdf := fun _ _ => Ok 2%nat;
     extract_page := fun _ _ _ => Ok long_text;
     chat_completion := fun _ _ _ _ => Ok reply;
     smtp_open := fun _ _ _ _ => Ok tt;
     smtp_starttls := fun _ => Ok tt;
     smtp_login := fun _ _ _ => Ok tt;
     smtp_send_message := fun _ _ => Ok tt;
     smtp_quit := fun _ => Ok tt;
     render_html := fun _ _ summary _ _ => summary |}.

(** Everything exists but [gone.pdf]. *)
Definition all_but_gone (p : str) : bool := negb (str_eqb p (u "gone.pdf")).

Definition three_attachments : list str :=
  [u "d/a.PDF"; u "gone.pdf"; u "d/" ++ baogao_txt].

Definition man : bytes := [77; 97; 110]%N.

(** The message [send_email] composes without attachments. *)
Definition plain_message : message :=
  {| msg_from := u "me@example";
     msg_to := u "a@example";
     msg_subject := u "subject";
     msg_html := u "body";
     msg_parts := [] |}.

Definition pages_ok (i : nat) : res str :=
  Ok (if Nat.eqb i 0 then long_text else []).

(** Three pages with text, the second one blank. *)
Definition pages_abc (i : nat) : res str :=
  Ok (match i with 0%nat => u "one" | 1%nat => [] | 2%nat => u "three" | _ => u "more" end).

(** The second page cannot be read. *)
Definition pages_broken (i : nat) : res str :=
  match i with 1%nat => Raise (OtherException "PdfReadError") | _ => Ok (u "text") end.

Definition world_pages (total_pages : res nat) (page : nat -> res str) : world :=
  {| has_tomllib := true; has_azure_openai := true; has_pypdf2 := true;
     path_exists := fun _ _ => true;
     getsize := fun _ _ => Ok 2048%Z;
     read_file := fun _ _ => Ok [77; 97; 110]%N;
     walk := fun _ d => [(d, [], [u "a.pdf"; u "n.txt"; u "B.PDF"])];
     load_toml := fun _ _ => Ok config_ok;
     open_pdf := fun _ _ => total_pages;
     extract_page := fun _ _ i => page i;
     chat_completion := fun _ _ _ _ => Ok reply;
     smtp_open := fun _ _ _ _ => Ok tt;
     smtp_starttls := fun _ => Ok tt;
     smtp_login := fun _ _ _ => Ok tt;
     smtp_send_message := fun _ _ => Ok tt;
     smtp_quit := fun _ => Ok tt;
     render_html := fun _ _ summary _ _ => summary |}.

(** A world for whole scenarios: the files of the directory, how each
    PDF opens, and what the relay answers to each call of a session. *)
Definition world_scenario (files : list str) (open : str -> res nat)
           (relay : event -> res unit) : world :=
  {| has_tomllib := true; has_azure_openai := true; has_pypdf2 := true;
     path_exists := fun _ _ => true;
     getsize := fun _ _ => Ok 2048%Z;
     read_file := fun _ _ => Ok [77; 97; 110]%N;
     walk := fun _ d => [(d, [], files)];
     load_toml := fun _ _ => Ok config_ok;
     open_pdf := fun _ p => open p;
     extract_page := fun _ _ _ => Ok long_text;
     chat_completion := fun _ _ _ _ => Ok reply;
     smtp_open := fun _ ssl host port => relay (SmtpOpen ssl host port);
     smtp_starttls := fun _ => relay SmtpStartTls;
     smtp_login := fun _ user password => relay (SmtpLogin user password);
     smtp_send_message := fun _ m => relay (SmtpSendMessage m);
     smtp_quit := fun _ => relay SmtpQuit;
     render_html := fun _ _ summary _ _ => summary |}.

Definition relay_ok (_ : event) : res unit := Ok tt.

(** The relay rejects the credential. *)
Definition relay_wrong_password (e : event) : res unit :=
  match e with SmtpLogin _ _ => Raise SMTPAuthenticationError | _ => Ok tt end.

(** The relay refuses the recipients. *)
Definition relay_refuses (e : event) : res unit :=
  match e with
  | SmtpSendMessage _ => Raise (SMTPException "SMTPRecipientsRefused")
  | _ => Ok tt
  end.

(** Nothing listens at the relay's address. *)
Definition relay_down (e : event) : res unit :=
  match e with
  | SmtpOpen _ _ _ => Raise (OSError "ConnectionRefusedError")
  | _ => Ok tt
  end.

(** [empty.pdf] has no bytes; the other files open with one page. *)
Definition open_unless_empty (p : str) : res nat :=
  if endswith p (u "empty.pdf") then Raise (OtherException "EmptyFileError")
  else Ok 1%nat.

Definition pages_short (i : nat) : res str :=
  Ok (if Nat.eqb i 0 then u "  too short  " else []).

Definition world_ok : world := world_with config_ok pages_ok.

(** The summarizer [init] builds from [config_ok] (see [init_config_ok]). *)
Definition sender_ok : EmailSender.t :=
  {| EmailSender.smtp_server := u "smtp.example";
     EmailSender.smtp_port := 587;
     EmailSender.sender_email := u "me@example";
     EmailSender.sender_password := u "secret";
     EmailSender.use_tls := true |}.

Definition summarizer_with (tpl : template) : t :=
  {| client := true;
     deployment_name := default_deployment;
     system_prompt := u "sys";
     email_sender := Some sender_ok;
     receiver_emails := [u "a@example"; u "b@example"];
     subject_template := tpl |}.

Definition summarizer_ok : t := summarizer_with default_subject_template.
Definition summarizer_bad_template : t := summarizer_with [Field (u "name")].

Definition args_dir (cap : option Z) : args :=
  {| arg_directory := Some (u "d"); arg_file := None;
     arg_max_files := cap; arg_no_email := false |}.

Definition args_file : args :=
  {| arg_directory := None; arg_file := Some (u "a.pdf");
     arg_max_files := None; arg_no_email := false |}.

End Samples.

(** ** Further notions used in the statements *)

Module Notions.

Import Py Codec Data Eff PDFSummarizer Statements.

Definition is_sleep (e : event) : bool :=
  match e with Sleep _ => true | _ => false end.

Definition is_extract_page (e : event) : bool :=
  match e with ExtractPage _ _ => true | _ => false end.

Definition is_open_pdf (e : event) : bool :=
  match e with OpenPdf _ => true | _ => false end.

Definition is_walk (e : event) : bool :=
  match e with Walk _ => true | _ => false end.

(** A file name as [os.walk] lists it: no slash in it. *)
Definition no_slash (s : str) : bool := negb (existsb (N.eqb 47) s).

(** The console lines and the walk: what a scan adds to the log
    around its loop. *)
Definition is_report (e : event) : bool :=
  match e with Print _ | Walk _ => true | _ => false end.

(** Everything the mail stage of [process_pdf] does in the world. *)
Definition is_delivery (e : event) : bool :=
  match e with
  | GetSize _ | Exists _ | ReadFile _
  | SmtpOpen _ _ _ | SmtpStartTls | SmtpLogin _ _ | SmtpSendMessage _ | SmtpQuit => true
  | _ => false
  end.

(** What [summarize_text] makes of the backend's answer: the first
    choice's text with the usage figures, when both are there. *)
Definition summary_of (answer : res response) : option (str * model_info) :=
  match answer with
  | Ok r =>
      match resp_choices r, resp_usage r with
      | Some s :: _, Some us =>
          Some (s, {| mi_model := resp_model r;
                      mi_prompt_tokens := prompt_tokens us;
                      mi_completion_tokens := completion_tokens us;
                      mi_total_tokens := total_tokens us |})
      | _, _ => None
      end
  | Raise _ => None
  end.

Definition is_send_message (e : event) : bool :=
  match e with SmtpSendMessage _ => true | _ => false end.

(** The candidate paths [load_config] tests before it stops: up to and
    including the first that exists. *)
Fixpoint tested (ex : str -> bool) (paths : list str) : list str :=
  match paths with
  | [] => []
  | p :: r => p :: (if ex p then [] else tested ex r)
  end.

(** A recipient as [__init__] keeps it: not empty, no white space at
    either end, no comma. *)
Definition clean (e : str) : bool :=
  match e with [] => false | c :: _ => negb (isspace c) end
  && match rev e with [] => false | c :: _ => negb (isspace c) end
  && negb (existsb (N.eqb 44) e).

(** A replacement field that is a bare argument name: ASCII, with
    none of the characters that start an attribute, an index, a
    conversion, a format specification or a nested field, and, when it
    is a number, short enough to be an index on every platform. *)
Definition bare_name (name : str) : bool :=
  forallb (fun c => (c <? 128)%N && negb (existsb (N.eqb c) (u ".[]!:{}"))) name
  && (negb (forallb isdigit name) || (length name <=? 9)%nat).

Definition bare_fields (tpl : template) : bool :=
  forallb (fun p => match p with Lit _ => true | Field name => bare_name name end) tpl.

(** A template with every field replaced by the file name. *)
Definition render (tpl : template) (filename : str) : str :=
  flat_map (fun p => match p with Lit s => s | Field _ => filename end) tpl.

(** The first field of a template that is not [filename]. *)
Fixpoint first_bad (tpl : template) : option str :=
  match tpl with
  | [] => None
  | Lit _ :: r => first_bad r
  | Field name :: r =>
      if str_eqb name (u "filename") then first_bad r else Some name
  end.

(** What goes wrong with an attachment that exists, if anything: the
    read raises, or the file name cannot be encoded for the header. *)
Definition attachment_error (rd : str -> res bytes) (p : str) : option exn :=
  match rd p with
  | Raise e => Some e
  | Ok _ => if forallb scalar (basename p) then None else Some UnicodeEncodeError
  end.

(** What the attachment loop leaves in the log for paths that are
    attached or passed over. *)
Definition attach_events (ex : str -> bool) (paths : list str) : log :=
  flat_map (fun p => if ex p then [Exists p; ReadFile p]
                     else [Exists p; Print (MsgAttachmentMissing p)]) paths.

(** The part of a batch's log that belongs to one document: the
    progress line, the entry into [process_pdf] for that document, and
    then neither another entry nor a pause. *)
Definition document_segment (send_email : bool) (pdf_path : str) (seg : log) : Prop :=
  exists line tail,
    seg = Print line :: EnterProcessPdf pdf_path send_email :: tail /\
    Forall (fun e => is_enter e || is_sleep e = false) tail.

(** Segments in a row, a pause of two seconds between one and the next. *)
Fixpoint with_pauses (segs : list log) : log :=
  match segs with
  | [] => []
  | seg :: rest =>
      seg ++ match rest with
             | [] => []
             | _ :: _ => Sleep 2 :: with_pauses rest
             end
  end.

(** The pages asked for when they are taken in order and the first
    that fails is the last one asked for. *)
Fixpoint upto_first_failure (answer : nat -> res str) (pages : list nat) : list nat :=
  match pages with
  | [] => []
  | i :: rest =>
      i :: match answer i with
           | Ok _ => upto_first_failure answer rest
           | Raise _ => []
           end
  end.

(** How many events of a log satisfy [P]. *)
Definition occurrences (P : event -> bool) (h : log) : Z := len (filter P h).

End Notions.

(** ** Reading base64 back *)

Module Decoding.

Import Py Codec.
Local Open Scope N_scope.

(** The value of a character of the base64 alphabet. *)
Definition b64_index (c : N) : option N :=
  if (65 <=? c) && (c <=? 90) then Some (c - 65)
  else if (97 <=? c) && (c <=? 122) then Some (c - 71)
  else if (48 <=? c) && (c <=? 57) then Some (c + 4)
  else if c =? 43 then Some 62
  else if c =? 47 then Some 63
  else None.

(** Decoding groups of four characters; padding only in the last. *)
Fixpoint b64_decode (s : str) : option bytes :=
  match s with
  | [] => Some []
  | a :: b :: c :: d :: r =>
      match b64_index a, b64_index b with
      | Some x, Some y =>
          if c =? 61 then
            if d =? 61 then
              match r with
              | [] => Some [(x * 262144 + y * 4096) / 65536]
              | _ => None
              end
            else None
          else
            match b64_index c with
            | Some z =>
                if d =? 61 then
                  match r with
                  | [] => let n := x * 262144 + y * 4096 + z * 64 in
                          Some [n / 65536; (n / 256) mod 256]
                  | _ => None
                  end
                else
                  match b64_index d with
                  | Some t =>
                      let n := x * 262144 + y * 4096 + z * 64 + t in
                      option_map (fun l => n / 65536 :: (n / 256) mod 256 :: n mod 256 :: l)
                                 (b64_decode r)
                  | None => None
                  end
            | None => None
            end
      | _, _ => None
      end
  | _ => None
  end.

Definition not_newline (c : N) : bool := negb (c =? 10).

(** [base64.decodebytes] on the output of [encodebytes]: the line
    breaks are dropped, the rest is decoded. *)
Definition decodebytes (s : str) : option bytes :=
  b64_decode (filter not_newline s).

(** The content of a file: every element is an octet. *)
Definition octets (bs : bytes) : Prop := Forall (fun b => b < 256) bs.

End Decoding.

(** ** Further concrete inputs *)

Module Inputs.

Import Py Codec Data Eff PDFSummarizer.

(** What [os.walk] answers for the directory of [Samples.world_ok]. *)
Definition walk_d : list (str * list str * list str) :=
  [(u "d", [], [u "a.pdf"; u "n.txt"; u "B.PDF"])].

(** A backend that answers with an empty text and no usage figures. *)
Definition reply_without_usage : response :=
  {| resp_choices := [Some (u "summary")]; resp_model := u "gpt-4"; resp_usage := None |}.

(** The attachment exists and cannot be read. *)
Definition world_unreadable : world :=
  {| has_tomllib := true; has_azure_openai := true; has_pypdf2 := true;
     path_exists := fun _ _ => true;
     getsize := fun _ _ => Ok 2048%Z;
     read_file := fun _ _ => Raise (OSError "PermissionError");
     walk := fun _ d => walk_d;
     load_toml := fun _ _ => Ok Samples.config_ok;
     open_pdf := fun _ _ => Ok 2%nat;
     extract_page := fun _ _ i => Samples.pages_ok i;
     chat_completion := fun _ _ _ _ => Ok Samples.reply;
     smtp_open := fun _ _ _ _ => Ok tt;
     smtp_starttls := fun _ => Ok tt;
     smtp_login := fun _ _ _ => Ok tt;
     smtp_send_message := fun _ _ => Ok tt;
     smtp_quit := fun _ => Ok tt;
     render_html := fun _ _ summary _ _ => summary |}.

(** A file name with a lone surrogate, as [os.walk] gives for a name
    that is not valid UTF-8 on disk. *)
Definition undecodable_name : str := [56575%N] ++ u ".pdf".

(** Only the configuration file of the parent directory exists, and it
    cannot be parsed. *)
Definition parent_config_only (p : str) : bool := str_eqb p (u "../config.toml").

Definition world_broken_config : world :=
  {| has_tomllib := true; has_azure_openai := true; has_pypdf2 := true;
     path_exists := fun _ p => parent_config_only p;
     getsize := fun _ _ => Ok 2048%Z;
     read_file := fun _ _ => Ok Samples.man;
     walk := fun _ d => walk_d;
     load_toml := fun _ _ => Raise (OtherException "TOMLDecodeError");
     open_pdf := fun _ _ => Ok 2%nat;
     extract_page := fun _ _ i => Samples.pages_ok i;
     chat_completion := fun _ _ _ _ => Ok Samples.reply;
     smtp_open := fun _ _ _ _ => Ok tt;
     smtp_starttls := fun _ => Ok tt;
     smtp_login := fun _ _ _ => Ok tt;
     smtp_send_message := fun _ _ => Ok tt;
     smtp_quit := fun _ => Ok tt;
     render_html := fun _ _ summary _ _ => summary |}.

(** Both a file and a directory on the command line. *)
Definition args_file_and_dir : args :=
  {| arg_directory := Some (u "d"); arg_file := Some (u "a.pdf");
     arg_max_files := Some 5%Z; arg_no_email := false |}.

(** An API key and no endpoint. *)
Definition config_no_endpoint : config :=
  {| azure_openai := Some {| cfg_api_key := Some (u "key"); cfg_endpoint := None;
                             cfg_deployment_name := None; cfg_api_version := None;
                             cfg_system_prompt := None |};
     email := Some (Samples.email_ok None); download := None; other_tables := false |}.

(** The summarizer [__init__] builds from it: no client. *)
Definition summarizer_no_client : t :=
  {| client := false;
     deployment_name := default_deployment;
     system_prompt := default_system_prompt;
     email_sender := Some Samples.sender_ok;
     receiver_emails := [u "a@example"; u "b@example"];
     subject_template := default_subject_template |}.

(** Every file can be read but [d/b.pdf]. *)
Definition read_all_but_b (p : str) : res bytes :=
  if str_eqb p (u "d/b.pdf") then Raise (OSError "PermissionError") else Ok Samples.man.

Definition world_b_unreadable : world :=
  {| has_tomllib := true; has_azure_openai := true; has_pypdf2 := true;
     path_exists := fun _ p => Samples.all_but_gone p;
     getsize := fun _ _ => Ok 2048%Z;
     read_file := fun _ p => read_all_but_b p;
     walk := fun _ d => walk_d;
     load_toml := fun _ _ => Ok Samples.config_ok;
     open_pdf := fun _ _ => Ok 2%nat;
     extract_page := fun _ _ i => Samples.pages_ok i;
     chat_completion := fun _ _ _ _ => Ok Samples.reply;
     smtp_open := fun _ _ _ _ => Ok tt;
     smtp_starttls := fun _ => Ok tt;
     smtp_login := fun _ _ _ => Ok tt;
     smtp_send_message := fun _ _ => Ok tt;
     smtp_quit := fun _ => Ok tt;
     render_html := fun _ _ summary _ _ => summary |}.

End Inputs.

(** ** Reasoning about computations *)

Unset Implicit Arguments.

Module EffFacts.

Import Py Data Eff.
Local Open Scope eff_scope.

Lemma never_raises_ret A (a : A) : never_raises (ret a).
Proof. intros h. exists a, h. reflexivity. Qed.

Lemma never_raises_note ev : never_raises (note ev).
Proof. intros h. eexists _, _. reflexivity. Qed.

Lemma never_raises_print c : never_raises (print c).
Proof. apply never_raises_note. Qed.

Lemma never_raises_peek A (f : log -> A) : never_raises (peek f).
Proof. intros h. eexists _, _. reflexivity. Qed.

Lemma never_raises_bind A B (m : M A) (k : A -> M B) :
  never_raises m -> (forall a, never_raises (k a)) -> never_raises (bind m k).
Proof.
  intros Hm Hk h. unfold bind.
  destruct (Hm h) as (a & h' & ->). apply Hk.
Qed.

Lemma never_raises_try A (m : M A) (handler : exn -> M A) :
  (forall e, never_raises (handler e)) -> never_raises (try_except m handler).
Proof.
  intros Hh h. unfold try_except.
  destruct (m h) as [[a | e] h'].
  - exists a, h'. reflexivity.
  - apply Hh.
Qed.

Lemma quiet_ret P A (a : A) : quiet P (ret a).
Proof. intros h. exists []. rewrite app_nil_r. split; [reflexivity | constructor]. Qed.

Lemma quiet_raise P A e : quiet P (@raise A e).
Proof. intros h. exists []. rewrite app_nil_r. split; [reflexivity | constructor]. Qed.

Lemma quiet_lift P A (r : res A) : quiet P (lift r).
Proof. intros h. exists []. rewrite app_nil_r. split; [reflexivity | constructor]. Qed.

Lemma quiet_peek P A (f : log -> A) : quiet P (peek f).
Proof. intros h. exists []. rewrite app_nil_r. split; [reflexivity | constructor]. Qed.

Lemma quiet_note P ev : P ev = false -> quiet P (note ev).
Proof. intros H h. exists [ev]. split; [reflexivity | repeat constructor; exact H]. Qed.

Lemma quiet_print P c : P (Print c) = false -> quiet P (print c).
Proof. apply quiet_note. Qed.

Lemma quiet_ask P A (f : log -> res A) ev : P ev = false -> quiet P (ask f ev).
Proof. intros H h. exists [ev]. split; [reflexivity | repeat constructor; exact H]. Qed.

Lemma quiet_bind P A B (m : M A) (k : A -> M B) :
  quiet P m -> (forall a, quiet P (k a)) -> quiet P (bind m k).
Proof.
  intros Hm Hk h. unfold bind.
  destruct (Hm h) as (e1 & E1 & F1).
  destruct (m h) as [[a | e] h']; simpl in E1; subst h'.
  - destruct (Hk a (h ++ e1)) as (e2 & E2 & F2).
    exists (e1 ++ e2). rewrite E2, app_assoc. split; [reflexivity |].
    apply Forall_app. split; assumption.
  - exists e1. split; [reflexivity | assumption].
Qed.

Lemma quiet_try P A (m : M A) (handler : exn -> M A) :
  quiet P m -> (forall e, quiet P (handler e)) -> quiet P (try_except m handler).
Proof.
  intros Hm Hh h. unfold try_except.
  destruct (Hm h) as (e1 & E1 & F1).
  destruct (m h) as [[a | e] h']; simpl in E1; subst h'.
  - exists e1. split; [reflexivity | assumption].
  - destruct (Hh e (h ++ e1)) as (e2 & E2 & F2).
    exists (e1 ++ e2). rewrite E2, app_assoc. split; [reflexivity |].
    apply Forall_app. split; assumption.
Qed.

(** What a quiet run leaves of the events selected by [P]. *)
Lemma quiet_filter P A (m : M A) h :
  quiet P m -> filter P (snd (m h)) = filter P h.
Proof.
  intros Hm. destruct (Hm h) as (evs & -> & F).
  rewrite filter_app.
  assert (filter P evs = []) as ->.
  { clear -F. induction F as [| e l He _ IH]; simpl; [reflexivity |].
    rewrite He. exact IH. }
  apply app_nil_r.
Qed.

(** A recorded event followed by a run that adds none of its kind. *)
Lemma filter_note_bind P A ev (k : unit -> M A) h :
  P ev = true -> quiet P (k tt) ->
  filter P (snd (bind (note ev) k h)) = filter P h ++ [ev].
Proof.
  intros Hev Hk. unfold bind, note.
  rewrite (quiet_filter P A (k tt) (h ++ [ev]) Hk), filter_app. simpl.
  rewrite Hev. reflexivity.
Qed.

Create HintDb eff discriminated.
#[export] Hint Resolve never_raises_ret never_raises_note never_raises_print
  never_raises_peek never_raises_bind never_raises_try : eff.
#[export] Hint Resolve quiet_ret quiet_raise quiet_lift quiet_peek quiet_note
  quiet_print quiet_ask quiet_bind quiet_try : eff.

(** Splitting a computation along its binds and branches. *)
Ltac eff_step :=
  match goal with
  | |- quiet _ (bind _ _) => apply quiet_bind
  | |- quiet _ (try_except _ _) => apply quiet_try
  | |- quiet _ (ask _ _) => apply quiet_ask; first [reflexivity | solve [auto]]
  | |- quiet _ (print _) => apply quiet_print; first [reflexivity | solve [auto]]
  | |- quiet _ (note _) => apply quiet_note; first [reflexivity | solve [auto]]
  | |- quiet _ (ret _) => apply quiet_ret
  | |- quiet _ (lift _) => apply quiet_lift
  | |- quiet _ (peek _) => apply quiet_peek
  | |- never_raises (bind _ _) => apply never_raises_bind
  | |- never_raises (try_except _ _) => apply never_raises_try
  | |- never_raises (print _) => apply never_raises_print
  | |- never_raises (note _) => apply never_raises_note
  | |- never_raises (ret _) => apply never_raises_ret
  | |- never_raises (peek _) => apply never_raises_peek
  | |- forall _, _ => intro
  | |- context [if ?b then _ else _] => destruct b
  | |- context [match ?x with _ => _ end] => destruct x
  end.

Ltac eff := repeat eff_step.

End EffFacts.

(** ** Which events each function can add to the log *)

Module Footprints.

Import Py Codec Data Eff EffFacts.

Section Filter.

Variable w : world.
Variable P : event -> bool.

Lemma attach_all_quiet attachments :
  (forall c, P (Print c) = false) ->
  (forall p, P (Exists p) = false) ->
  (forall p, P (ReadFile p) = false) ->
  forall parts, quiet P (EmailSender.attach_all w attachments parts).
Proof.
  intros Hp He Hr.
  induction attachments as [| f rest IH]; intros parts; simpl; eff; apply IH.
Qed.

Lemma compose_quiet self receiver_emails subject body attachments :
  (forall c, P (Print c) = false) ->
  (forall p, P (Exists p) = false) ->
  (forall p, P (ReadFile p) = false) ->
  quiet P (EmailSender.compose w self receiver_emails subject body attachments).
Proof.
  intros Hp He Hr. unfold EmailSender.compose. eff; apply attach_all_quiet; assumption.
Qed.

Lemma transmit_quiet self msg :
  (forall b s p, P (SmtpOpen b s p) = false) ->
  P SmtpStartTls = false ->
  (forall a b, P (SmtpLogin a b) = false) ->
  (forall m, P (SmtpSendMessage m) = false) ->
  P SmtpQuit = false ->
  quiet P (EmailSender.transmit w self msg).
Proof.
  intros. unfold EmailSender.transmit. eff.
Qed.

Lemma on_error_quiet e :
  (forall c, P (Print c) = false) -> quiet P (EmailSender.on_error e).
Proof.
  intros. unfold EmailSender.on_error. destruct e; simpl; eff.
Qed.

Lemma send_email_quiet self receiver_emails subject body attachments :
  (forall c, P (Print c) = false) ->
  (forall p, P (Exists p) = false) ->
  (forall p, P (ReadFile p) = false) ->
  (forall b s p, P (SmtpOpen b s p) = false) ->
  P SmtpStartTls = false ->
  (forall a b, P (SmtpLogin a b) = false) ->
  (forall m, P (SmtpSendMessage m) = false) ->
  P SmtpQuit = false ->
  quiet P (EmailSender.send_email w self receiver_emails subject body attachments).
Proof.
  intros. unfold EmailSender.send_email.
  apply quiet_try; [| intros; apply on_error_quiet; assumption].
  apply quiet_bind; [apply compose_quiet; assumption | intros msg].
  apply quiet_bind; [apply transmit_quiet; assumption | intros _].
  eff.
Qed.

Lemma read_pages_quiet pdf_path pages :
  (forall p i, P (ExtractPage p i) = false) ->
  forall acc, quiet P (PDFSummarizer.read_pages w pdf_path pages acc).
Proof.
  intros Hx. induction pages as [| i rest IH]; intros acc; simpl.
  - eff.
  - apply quiet_bind; [eff | intros text; apply IH].
Qed.

Lemma extract_quiet pdf_path max_pages :
  (forall c, P (Print c) = false) ->
  (forall p, P (OpenPdf p) = false) ->
  (forall p i, P (ExtractPage p i) = false) ->
  quiet P (PDFSummarizer.extract_text_from_pdf w pdf_path max_pages).
Proof.
  intros Hp Ho Hx. unfold PDFSummarizer.extract_text_from_pdf.
  destruct (has_pypdf2 w); simpl; [| eff].
  apply quiet_try; [| eff].
  apply quiet_bind; [eff | intros n].
  apply quiet_bind; [eff | intros _].
  apply quiet_bind; [apply read_pages_quiet; assumption | intros]. eff.
Qed.

Lemma summarize_quiet self text filename :
  (forall c, P (Print c) = false) ->
  (forall a b c, P (ChatCompletion a b c) = false) ->
  quiet P (PDFSummarizer.summarize_text w self text filename).
Proof.
  intros Hp Hc. unfold PDFSummarizer.summarize_text. eff.
Qed.

Lemma find_config_quiet paths :
  (forall p, P (Exists p) = false) ->
  quiet P (PDFSummarizer.find_config w paths).
Proof.
  intros He. induction paths as [| p rest IH]; simpl; eff. exact IH.
Qed.

Lemma load_config_quiet :
  (forall c, P (Print c) = false) ->
  (forall p, P (Exists p) = false) ->
  (forall p, P (LoadToml p) = false) ->
  quiet P (PDFSummarizer.load_config w).
Proof.
  intros Hp He Hl. unfold PDFSummarizer.load_config.
  destruct (has_tomllib w); cbn [negb]; [| eff].
  apply quiet_bind; [apply find_config_quiet; assumption | intros [f |]]; eff.
Qed.

Lemma create_email_body_quiet filename summary pdf_path info :
  (forall p, P (GetSize p) = false) ->
  quiet P (PDFSummarizer.create_email_body w filename summary pdf_path info).
Proof. intros. unfold PDFSummarizer.create_email_body. eff. Qed.

End Filter.

(** Discharging the side conditions of the lemmas above. *)
Ltac side := first [assumption | intros; reflexivity | solve [auto]].

(** What [process_pdf] does after recording its entry. *)
Ltac process_tail :=
  cbv zeta;
  apply quiet_bind; [eff | intros _];
  apply quiet_bind; [apply extract_quiet; side | intros ?text];
  match goal with |- context [negb ?b] => destruct (negb b) end; [eff |];
  apply quiet_bind; [apply summarize_quiet; side | intros [[?summary ?info] |]]; [| eff];
  match goal with
  | |- context [match ?x with Some _ => _ | None => _ end] => destruct x as [?sender |]
  end; [| eff];
  apply quiet_bind; [eff | intros ?subject];
  apply quiet_bind; [apply create_email_body_quiet; side | intros ?body];
  apply quiet_bind; [apply send_email_quiet; side | intros [|]]; eff.

Section Batch.

Import PDFSummarizer Statements.

Variable w : world.
Variable self : t.
Variable send_email : bool.

(** [process_pdf] only appends to the log. *)
Lemma process_pdf_grows pdf_path :
  quiet (fun _ => false) (process_pdf w self pdf_path send_email).
Proof.
  unfold process_pdf. apply quiet_bind; [eff | intros _]. process_tail.
Qed.

(** It records its entry once. *)
Lemma process_pdf_enters_once pdf_path h :
  filter is_enter (snd (process_pdf w self pdf_path send_email h))
  = filter is_enter h ++ [EnterProcessPdf pdf_path send_email].
Proof.
  unfold process_pdf. apply filter_note_bind; [reflexivity |]. process_tail.
Qed.

(** Without a sender it opens no session. *)
Lemma process_pdf_no_sender_quiet P pdf_path :
  email_sender self = None ->
  (forall c, P (Print c) = false) ->
  (forall p s, P (EnterProcessPdf p s) = false) ->
  (forall p, P (OpenPdf p) = false) ->
  (forall p i, P (ExtractPage p i) = false) ->
  (forall a b c, P (ChatCompletion a b c) = false) ->
  quiet P (process_pdf w self pdf_path send_email).
Proof.
  intros Hnone Hp He Ho Hx Hc. unfold process_pdf. rewrite Hnone.
  apply quiet_bind; [eff | intros _]. cbv zeta.
  apply quiet_bind; [eff | intros _].
  apply quiet_bind; [apply extract_quiet; side | intros text].
  destruct (negb (truthy text)); [eff |].
  apply quiet_bind; [apply summarize_quiet; side | intros [[summary info] |]]; [| eff].
  destruct (send_email && truthy_list (receiver_emails self)); eff.
Qed.

Variable P : event -> bool.
Hypothesis process_quiet : forall pdf_path, quiet P (process_pdf w self pdf_path send_email).
Hypothesis print_quiet : forall c, P (Print c) = false.
Hypothesis sleep_quiet : forall n, P (Sleep n) = false.

Lemma batch_step_quiet n st i pdf_path :
  quiet P (batch_step w self send_email n st i pdf_path).
Proof.
  unfold batch_step.
  apply quiet_bind; [eff | intros _].
  apply quiet_bind.
  - apply quiet_try; [| eff]. apply quiet_bind; [apply process_quiet | eff].
  - intros st'. apply quiet_bind; [destruct (i <? n)%Z; eff | eff].
Qed.

Lemma batch_loop_quiet n files :
  forall i st, quiet P (batch_loop w self send_email n i files st).
Proof.
  induction files as [| p rest IH]; intros i st; simpl.
  - eff.
  - apply quiet_bind; [apply batch_step_quiet | intros st'; apply IH].
Qed.

Lemma scan_quiet directory max_files :
  (forall d, P (Walk d) = false) ->
  quiet P (scan_and_process_pdfs w self directory send_email max_files).
Proof.
  intros Hw. unfold scan_and_process_pdfs.
  apply quiet_bind; [eff | intros _].
  apply quiet_bind; [eff | intros triples].
  cbv zeta. apply quiet_bind; [eff | intros _].
  destruct (negb (truthy_list (discover triples))); [eff |].
  apply quiet_bind; [destruct (truthy_int max_files); eff | intros pdf_files].
  apply quiet_bind; [apply batch_loop_quiet | eff].
Qed.

End Batch.

(** Every scan starts by walking the directory. *)
Lemma scan_walks w self directory send_email max_files h :
  exists evs,
    snd (PDFSummarizer.scan_and_process_pdfs w self directory send_email max_files h)
    = ((h ++ [Print (MsgScanning directory)]) ++ [Walk directory]) ++ evs.
Proof.
  unfold PDFSummarizer.scan_and_process_pdfs.
  unfold bind at 1, print at 1, note. unfold bind at 1, ask.
  match goal with
  | |- exists evs, snd (?rest ?h0) = _ =>
      assert (Hq : quiet (fun _ => false) rest); [| destruct (Hq h0) as (evs & E & _);
                                                    exists evs; exact E]
  end.
  cbv zeta. apply quiet_bind; [eff | intros _].
  match goal with |- context [negb ?b] => destruct (negb b) end; [eff |].
  apply quiet_bind; [destruct (truthy_int max_files); eff | intros pdf_files].
  apply quiet_bind; [| eff].
  apply batch_loop_quiet; [intros; apply process_pdf_grows | reflexivity | reflexivity].
Qed.

(** The stages of [process_pdf] that catch what they raise. *)

Lemma extract_never_raises w pdf_path max_pages :
  never_raises (PDFSummarizer.extract_text_from_pdf w pdf_path max_pages).
Proof. unfold PDFSummarizer.extract_text_from_pdf. eff. Qed.

Lemma summarize_never_raises w self text filename :
  never_raises (PDFSummarizer.summarize_text w self text filename).
Proof. unfold PDFSummarizer.summarize_text. eff. Qed.

Lemma on_error_never_raises e : never_raises (EmailSender.on_error e).
Proof. unfold EmailSender.on_error. destruct e; simpl; eff. Qed.

Lemma send_email_never_raises w self receiver_emails subject body attachments :
  never_raises (EmailSender.send_email w self receiver_emails subject body attachments).
Proof.
  unfold EmailSender.send_email. apply never_raises_try. apply on_error_never_raises.
Qed.

End Footprints.

(** ** The batch loop and its counters *)

Module BatchFacts.

Import Py Data Eff EffFacts PDFSummarizer Statements.
Local Open Scope Z_scope.

Lemma batch_step_returns w self send_email n st i pdf_path h :
  exists h',
    batch_step w self send_email n st i pdf_path h
    = (Ok (step_result w self send_email n st i pdf_path h), h').
Proof.
  unfold batch_step, step_result, bind, try_except, print, note, ret.
  destruct (process_pdf w self pdf_path send_email (h ++ [Print (MsgProgress i n)]))
    as [[[|] | e] h1]; simpl; destruct (i <? n); simpl; eexists; reflexivity.
Qed.

Lemma step_result_cases w self send_email n st i pdf_path h :
  let st' := step_result w self send_email n st i pdf_path h in
  total st' = total st /\
  ((success st' = success st + 1 /\ failed st' = failed st) \/
   (success st' = success st /\ failed st' = failed st + 1)).
Proof.
  unfold step_result.
  destruct (fst (process_pdf w self pdf_path send_email _)) as [[|] | e]; simpl; auto.
Qed.

Lemma batch_loop_returns w self send_email n files :
  forall i st h,
  exists st' h',
    batch_loop w self send_email n i files st h = (Ok st', h') /\
    total st' = total st /\
    success st' + failed st' = success st + failed st + len files /\
    success st <= success st' /\ failed st <= failed st'.
Proof.
  induction files as [| p rest IH]; intros i st h; simpl.
  - exists st, h. unfold ret, len. simpl. repeat split; lia.
  - unfold bind.
    destruct (batch_step_returns w self send_email n st i p h) as (h1 & ->).
    pose proof (step_result_cases w self send_email n st i p h) as Hc.
    simpl in Hc. set (st1 := step_result _ _ _ _ _ _ _ _) in *.
    destruct (IH (i + 1) st1 h1) as (st' & h' & E & Ht & Hs & H1 & H2).
    exists st', h'. split; [exact E |].
    unfold len in *. simpl length. rewrite Nat2Z.inj_succ.
    destruct Hc as (Ht1 & [[Ha Hb] | [Ha Hb]]); repeat split; lia.
Qed.

Lemma scan_returns w self directory send_email max_files h :
  exists st h',
    scan_and_process_pdfs w self directory send_email max_files h = (Ok st, h') /\
    total st = len (capped (discover (walk w (h ++ [Print (MsgScanning directory)]) directory))
                           max_files) /\
    total st = success st + failed st /\
    0 <= success st /\ 0 <= failed st.
Proof.
  unfold scan_and_process_pdfs, bind, print, note, ask, ret, capped.
  cbv beta iota.
  set (found := discover _).
  destruct (truthy_list found) eqn:Et; cbn [negb].
  - destruct (truthy_int max_files);
      match goal with
      | |- context [batch_loop w self send_email ?n ?i ?l ?st ?h0] =>
          destruct (batch_loop_returns w self send_email n l i st h0)
            as (st' & h' & -> & Ht & Hs & H1 & H2)
      end; simpl in *; eexists _, _; (split; [reflexivity |]); repeat split; lia.
  - assert (found = []) as -> by (destruct found; [reflexivity | discriminate]).
    eexists _, _. split; [reflexivity |].
    destruct (truthy_int max_files); unfold slice_to, len; simpl.
    + destruct (0 <=? get max_files 0); rewrite firstn_nil; simpl; repeat split; lia.
    + repeat split; lia.
Qed.

(** C1.  Every batch returns its counters, with
    [total = success + failed]; each turn of the loop leaves [total]
    alone and adds exactly one to exactly one of [success] and
    [failed], so neither ever decreases. *)
Theorem batch_stats_invariant :
  (forall w self directory send_email max_files h,
      exists st h',
        scan_and_process_pdfs w self directory send_email max_files h = (Ok st, h') /\
        total st = success st + failed st /\
        0 <= success st /\ 0 <= failed st)
  /\
  (forall w self send_email n st i pdf_path h,
      exists st' h',
        batch_step w self send_email n st i pdf_path h = (Ok st', h') /\
        total st' = total st /\
        ((success st' = success st + 1 /\ failed st' = failed st) \/
         (success st' = success st /\ failed st' = failed st + 1))).
Proof.
  split.
  - intros. destruct (scan_returns w self directory send_email max_files h)
      as (st & h' & E & _ & Hsum & Hs & Hf).
    exists st, h'. auto.
  - intros. destruct (batch_step_returns w self send_email n st i pdf_path h) as (h' & E).
    eexists _, h'. split; [exact E |].
    apply step_result_cases.
Qed.

(** Three files, one of them empty: two successes, one failure. *)
Example two_good_one_empty :
  fst (scan_and_process_pdfs
         (Samples.world_scenario [u "a.pdf"; u "empty.pdf"; u "b.pdf"]
                                 Samples.open_unless_empty Samples.relay_ok)
         Samples.summarizer_ok (u "d") true None [])
  = Ok {| total := 3; success := 2; failed := 1 |}.
Proof. vm_compute. reflexivity. Qed.

(** A wrong relay credential fails every document that reaches the
    mail stage; with delivery switched off the same documents succeed. *)
Example wrong_password_fails_each_document :
  fst (scan_and_process_pdfs
         (Samples.world_scenario [u "a.pdf"; u "b.pdf"]
                                 Samples.open_unless_empty Samples.relay_wrong_password)
         Samples.summarizer_ok (u "d") true None [])
  = Ok {| total := 2; success := 0; failed := 2 |}
  /\
  fst (scan_and_process_pdfs
         (Samples.world_scenario [u "a.pdf"; u "b.pdf"]
                                 Samples.open_unless_empty Samples.relay_wrong_password)
         Samples.summarizer_ok (u "d") false None [])
  = Ok {| total := 2; success := 2; failed := 0 |}.
Proof. vm_compute. split; reflexivity. Qed.

(** An exception out of [process_pdf] fails that document and no other. *)
Example escaped_exception_counted :
  fst (scan_and_process_pdfs Samples.world_ok Samples.summarizer_bad_template
                             (u "d") true None [])
  = Ok {| total := 2; success := 0; failed := 2 |}.
Proof. vm_compute. reflexivity. Qed.

End BatchFacts.

(** ** Encoding and decoding file names *)

Module CodecFacts.

Import Py Codec Statements.
Local Open Scope N_scope.

Ltac Zify.zify_post_hook ::= Z.to_euclidean_division_equations.

(** Settling the comparisons of a goal from the bounds at hand. *)
Ltac tests :=
  repeat match goal with
    | |- context [andb] => progress cbn [andb]
    | |- context [if true then _ else _] => progress cbv iota
    | |- context [if false then _ else _] => progress cbv iota
    | |- context [?a <? ?b] => destruct (N.ltb_spec a b); try lia
    | |- context [?a <=? ?b] => destruct (N.leb_spec a b); try lia
    | |- context [?a =? ?b] => destruct (N.eqb_spec a b); try lia
    end;
  cbn [andb orb negb].

Lemma utf8_encode_scalars s :
  forallb scalar s = true -> utf8_encode s = Ok (flat_map utf8_cp s).
Proof.
  induction s as [| c r IH]; simpl; [reflexivity |].
  intros H. apply andb_prop in H as [Hc Hr].
  rewrite Hc, (IH Hr). reflexivity.
Qed.

Lemma utf8_cp_octets c :
  scalar c = true -> Forall (fun b => b < 256) (utf8_cp c).
Proof.
  unfold scalar, utf8_cp. intros H.
  apply orb_prop in H.
  assert (c < 1114112) by
    (destruct H as [H | H]; [apply N.ltb_lt in H; lia |
       apply andb_prop in H as [_ H]; apply N.ltb_lt in H; lia]).
  tests; repeat constructor; lia.
Qed.

Lemma utf8_decode_cp c r :
  scalar c = true ->
  utf8_decode (utf8_cp c ++ r) = option_map (cons c) (utf8_decode r).
Proof.
  intros Hs. pose proof Hs as Hs'. unfold scalar in Hs'.
  assert (Hb : c < 55296 \/ 57343 < c < 1114112).
  { apply orb_prop in Hs' as [H | H]; [left; apply N.ltb_lt; exact H |].
    apply andb_prop in H as [H1 H2]. apply N.ltb_lt in H1, H2. right. lia. }
  clear Hs'. unfold utf8_cp.
  destruct (N.ltb_spec c 128).
  - cbn [app utf8_decode]. tests. reflexivity.
  - destruct (N.ltb_spec c 2048).
    + remember (192 + c / 64) as b0 eqn:E0.
      remember (128 + c mod 64) as b1 eqn:E1.
      assert (Hc : (b0 - 192) * 64 + (b1 - 128) = c) by lia.
      cbn [app utf8_decode]. cbv zeta. rewrite Hc. unfold is_cont.
      tests. reflexivity.
    + destruct (N.ltb_spec c 65536).
      * remember (224 + c / 4096) as b0 eqn:E0.
        remember (128 + (c / 64) mod 64) as b1 eqn:E1.
        remember (128 + c mod 64) as b2 eqn:E2.
        assert (Hc : (b0 - 224) * 4096 + (b1 - 128) * 64 + (b2 - 128) = c) by lia.
        cbn [app utf8_decode]. cbv zeta. rewrite Hc, Hs. unfold is_cont.
        tests. reflexivity.
      * remember (240 + c / 262144) as b0 eqn:E0.
        remember (128 + (c / 4096) mod 64) as b1 eqn:E1.
        remember (128 + (c / 64) mod 64) as b2 eqn:E2.
        remember (128 + c mod 64) as b3 eqn:E3.
        assert (Hc : (b0 - 240) * 262144 + (b1 - 128) * 4096
                     + (b2 - 128) * 64 + (b3 - 128) = c) by lia.
        cbn [app utf8_decode]. cbv zeta. rewrite Hc. unfold is_cont.
        tests. reflexivity.
Qed.

Lemma utf8_roundtrip s :
  forallb scalar s = true -> utf8_decode (flat_map utf8_cp s) = Some s.
Proof.
  induction s as [| c r IH]; simpl; [reflexivity |].
  intros H. apply andb_prop in H as [Hc Hr].
  rewrite (utf8_decode_cp _ _ Hc), (IH Hr). reflexivity.
Qed.

Lemma utf8_octets s :
  forallb scalar s = true -> Forall (fun b => b < 256) (flat_map utf8_cp s).
Proof.
  induction s as [| c r IH]; simpl; [constructor |].
  intros H. apply andb_prop in H as [Hc Hr].
  apply Forall_app. split; [apply utf8_cp_octets; exact Hc | apply IH; exact Hr].
Qed.

Lemma unhex_hexdigit n : n < 16 -> unhex (hexdigit n) = Some n.
Proof.
  intros H. unfold hexdigit. destruct (N.ltb_spec n 10); unfold unhex; tests; f_equal; lia.
Qed.

Lemma unquote_quote_byte safe b r :
  b < 256 -> existsb (N.eqb 37) safe = false ->
  unquote_to_bytes (quote_byte safe b ++ r) = b :: unquote_to_bytes r.
Proof.
  intros Hb Hsafe. unfold quote_byte.
  destruct (always_safe b || existsb (N.eqb b) safe) eqn:E.
  - assert (b <> 37) as Hne.
    { intros ->. rewrite Hsafe in E. discriminate E. }
    cbn [app unquote_to_bytes].
    destruct (N.eqb_spec b 37); [contradiction | reflexivity].
  - cbn [app unquote_to_bytes N.eqb Pos.eqb].
    rewrite !unhex_hexdigit by lia. f_equal. lia.
Qed.

Lemma unquote_to_bytes_quote safe bs :
  Forall (fun b => b < 256) bs -> existsb (N.eqb 37) safe = false ->
  unquote_to_bytes (quote_from_bytes safe bs) = bs.
Proof.
  intros Hbs Hsafe. unfold quote_from_bytes.
  induction Hbs as [| b r Hb _ IH]; simpl; [reflexivity |].
  rewrite unquote_quote_byte by assumption. rewrite IH. reflexivity.
Qed.

(** Percent-decoding gives the name back. *)
Lemma unquote_quote safe s :
  forallb scalar s = true -> existsb (N.eqb 37) safe = false ->
  exists q, quote_with safe s = Ok q /\ unquote q = Some s.
Proof.
  intros Hs Hsafe. unfold quote_with, unquote.
  rewrite (utf8_encode_scalars _ Hs). eexists. split; [reflexivity |].
  rewrite unquote_to_bytes_quote by (auto using utf8_octets).
  apply utf8_roundtrip. exact Hs.
Qed.

Lemma hexdigit_plain n : n < 16 -> plain (hexdigit n) = true.
Proof.
  intros H. unfold hexdigit. destruct (N.ltb_spec n 10); unfold plain; tests; reflexivity.
Qed.

Lemma always_safe_plain b : always_safe b = true -> plain b = true.
Proof.
  unfold always_safe, plain. intros H.
  destruct (N.ltb_spec b 128).
  - destruct (N.eqb_spec b 34) as [-> |]; [discriminate H |].
    destruct (N.eqb_spec b 92) as [-> |]; [discriminate H |].
    destruct (N.eqb_spec b 39) as [-> |]; [discriminate H |]. reflexivity.
  - exfalso. revert H. tests; try discriminate.
Qed.

Lemma quote_byte_plain safe b :
  b < 256 -> forallb plain safe = true -> forallb plain (quote_byte safe b) = true.
Proof.
  intros Hb Hsafe. unfold quote_byte.
  destruct (always_safe b) eqn:Ea; cbn [orb].
  - cbn [forallb]. rewrite (always_safe_plain _ Ea). reflexivity.
  - destruct (existsb (N.eqb b) safe) eqn:Ee.
    + apply existsb_exists in Ee as (x & Hx & Hbx). apply N.eqb_eq in Hbx. subst x.
      rewrite forallb_forall in Hsafe. cbn [forallb]. rewrite (Hsafe _ Hx). reflexivity.
    + cbn [forallb]. rewrite !hexdigit_plain by lia. reflexivity.
Qed.

Lemma quote_plain safe bs :
  Forall (fun b => b < 256) bs -> forallb plain safe = true ->
  forallb plain (quote_from_bytes safe bs) = true.
Proof.
  intros Hbs Hsafe. unfold quote_from_bytes.
  induction Hbs as [| b r Hb _ IH]; simpl; [reflexivity |].
  rewrite forallb_app, (quote_byte_plain _ _ Hb Hsafe), IH. reflexivity.
Qed.

Lemma plain_is_ascii s : forallb plain s = true -> is_ascii s = true.
Proof.
  unfold is_ascii. induction s as [| c r IH]; simpl; [reflexivity |].
  intros H. apply andb_prop in H as [Hc Hr]. rewrite (IH Hr), andb_true_r.
  unfold plain in Hc. destruct (c <? 128); [reflexivity | discriminate Hc].
Qed.

Lemma plain_utils_quote s : forallb plain s = true -> utils_quote s = s.
Proof.
  unfold utils_quote. induction s as [| c r IH]; simpl; [reflexivity |].
  intros H. apply andb_prop in H as [Hc Hr]. rewrite (IH Hr).
  unfold plain in Hc.
  destruct (c =? 92); [rewrite !andb_false_r in Hc; discriminate Hc |].
  destruct (c =? 34); [rewrite !andb_false_r in Hc; discriminate Hc |].
  reflexivity.
Qed.

Lemma plain_split s : forallb plain s = true -> split_on 39 s = [s].
Proof.
  induction s as [| c r IH]; simpl; [reflexivity |].
  intros H. apply andb_prop in H as [Hc Hr]. rewrite (IH Hr).
  unfold plain in Hc. destruct (c =? 39); [| reflexivity].
  rewrite andb_false_r in Hc. discriminate Hc.
Qed.

(** Reading the extended value back gives the name. *)
Lemma decode_encode_rfc2231 s :
  forallb scalar s = true ->
  exists q, quote_with [] s = Ok q /\
            encode_rfc2231 s (u "utf-8") [] = Ok (u "utf-8''" ++ q) /\
            decode_rfc2231 (u "utf-8''" ++ q) = Some s.
Proof.
  intros Hs.
  destruct (unquote_quote [] s Hs eq_refl) as (q & Hq & Hu).
  exists q. split; [exact Hq |]. unfold encode_rfc2231. rewrite Hq.
  split; [reflexivity |].
  assert (Hp : forallb plain q = true).
  { unfold quote_with in Hq. rewrite (utf8_encode_scalars _ Hs) in Hq.
    injection Hq as <-. apply quote_plain; [apply utf8_octets; exact Hs | reflexivity]. }
  unfold decode_rfc2231. cbn [u list_ascii_of_string map app split_on N_of_ascii
                               N.eqb Pos.eqb N.add N.mul Pos.add Pos.mul Pos.succ N_of_digits].
  simpl split_on. rewrite (plain_split _ Hp). simpl. exact Hu.
Qed.

Lemma lower_cp_letter k c :
  97 <= k <= 122 -> (k =? lower_cp c) = ((c =? k) || (c =? k - 32)).
Proof.
  intros Hk. unfold lower_cp.
  destruct (N.leb_spec 65 c), (N.leb_spec c 90); cbn [andb]; tests; reflexivity.
Qed.

Lemma lower_cp_dot c : (46 =? lower_cp c) = (c =? 46).
Proof.
  unfold lower_cp.
  destruct (N.leb_spec 65 c), (N.leb_spec c 90); cbn [andb]; tests; reflexivity.
Qed.

(** The test the program makes on a file name is the one on its last
    four characters. *)
Lemma lower_endswith_pdf filename :
  endswith (lower filename) (u ".pdf") = has_pdf_extension filename.
Proof.
  unfold endswith, lower, has_pdf_extension. rewrite <- map_rev.
  change (rev (u ".pdf")) with [102; 100; 112; 46].
  destruct (rev filename) as [| f [| d [| p [| dot r]]]];
    cbn [map startswith]; rewrite ?andb_false_r; try reflexivity.
  rewrite lower_cp_dot, !lower_cp_letter by lia.
  change (102 - 32) with 70. change (100 - 32) with 68. change (112 - 32) with 80.
  destruct (dot =? 46), ((p =? 112) || (p =? 80)), ((d =? 100) || (d =? 68)),
    ((f =? 102) || (f =? 70)); reflexivity.
Qed.

End CodecFacts.

(** ** The mail transport *)

Module TransportFacts.

Import Py Codec Data Eff EffFacts Footprints EmailSender Statements.

Lemma on_error_line e h :
  on_error e h = (Ok false, h ++ [Print (failure_line e)]).
Proof. destruct e; reflexivity. Qed.

(** Once the message is composed, [send_email] is one run of
    [transmit] and the report of its outcome. *)
Lemma send_email_after_compose w self receiver_emails subject body attachments h msg h1 :
  compose w self receiver_emails subject body attachments h = (Ok msg, h1) ->
  send_email w self receiver_emails subject body attachments h
  = finish subject receiver_emails (transmit w self msg h1).
Proof.
  intros Hc. unfold send_email, try_except, bind at 1. rewrite Hc.
  unfold bind, finish.
  destruct (transmit w self msg h1) as [[[] | e] h2]; [reflexivity |].
  apply on_error_line.
Qed.

(** A composition that raises is reported like any other failure. *)
Lemma send_email_compose_raises w self receiver_emails subject body attachments h e h1 :
  compose w self receiver_emails subject body attachments h = (Raise e, h1) ->
  send_email w self receiver_emails subject body attachments h
  = (Ok false, h1 ++ [Print (failure_line e)]).
Proof.
  intros Hc. unfold send_email, try_except, bind. rewrite Hc. apply on_error_line.
Qed.

(** The headers of the composed message. *)
Lemma compose_headers w self receiver_emails subject body attachments h msg h1 :
  compose w self receiver_emails subject body attachments h = (Ok msg, h1) ->
  msg_from msg = sender_email self /\
  msg_to msg = join (u ", ") receiver_emails /\
  msg_subject msg = subject /\
  msg_html msg = body.
Proof.
  unfold compose, bind, ret, lift.
  destruct (utf8_encode body) as [bs | e]; [| intros [=]].
  match goal with
  | |- context [match ?x with (_, _) => _ end] => destruct x as [[parts | e] h2]
  end; intros [= <- <-]; simpl; auto.
Qed.

(** One session: the calls are made in order, the first one that
    raises ends it. *)
Lemma transmit_cases w self msg h :
  transmit w self msg h = (Ok tt, h ++ session self msg)
  \/ exists k e,
       1 <= k <= length (session self msg) /\
       transmit w self msg h = (Raise e, h ++ firstn k (session self msg)).
Proof.
  unfold transmit, session.
  cbv beta iota zeta delta [bind ask].
  destruct (use_tls self);
    repeat match goal with
      | |- context [match ?x with Ok _ => _ | Raise _ => _ end] =>
          let e := fresh "e" in destruct x as [[] | e]
      end;
    try match goal with
      | |- context [smtp_quit w ?hq] => destruct (smtp_quit w hq) as [[] | e]
      end;
    simpl; rewrite <- ?app_assoc; simpl;
    first [ left; reflexivity
          | right; exists 1, e; split; [simpl; lia | reflexivity]
          | right; exists 2, e; split; [simpl; lia | reflexivity]
          | right; exists 3, e; split; [simpl; lia | reflexivity]
          | right; exists 4, e; split; [simpl; lia | reflexivity]
          | right; exists 5, e; split; [simpl; lia | reflexivity] ].
Qed.

Lemma session_prefix_opens_once self msg k :
  1 <= k -> length (filter is_smtp_open (firstn k (session self msg))) = 1.
Proof.
  intros Hk. unfold session.
  destruct (use_tls self); destruct k as [| [| [| [| [| k]]]]]; simpl;
    rewrite ?firstn_nil; simpl; lia.
Qed.



(** The three kinds of failure, and a session that fails at its last
    call, after the message has been handed over. *)
Example wrong_password_reported :
  send_email (Samples.world_scenario [] Samples.open_unless_empty
                                     Samples.relay_wrong_password)
             Samples.sender_ok [u "a@example"] (u "subject") (u "body") None []
  = (Ok false, [SmtpOpen false (u "smtp.example") 587; SmtpStartTls;
                SmtpLogin (u "me@example") (u "secret"); Print MsgAuthFailed]).
Proof. reflexivity. Qed.

Example refused_recipients_reported :
  send_email (Samples.world_scenario [] Samples.open_unless_empty Samples.relay_refuses)
             Samples.sender_ok [u "a@example"] (u "subject") (u "body") None []
  = (Ok false, [SmtpOpen false (u "smtp.example") 587; SmtpStartTls;
                SmtpLogin (u "me@example") (u "secret");
                SmtpSendMessage Samples.plain_message;
                Print (MsgSmtpError (SMTPException "SMTPRecipientsRefused"))]).
Proof. reflexivity. Qed.

Example relay_down_reported :
  send_email (Samples.world_scenario [] Samples.open_unless_empty Samples.relay_down)
             Samples.sender_ok [u "a@example"] (u "subject") (u "body") None []
  = (Ok false, [SmtpOpen false (u "smtp.example") 587;
                Print (MsgMailFailed (OSError "ConnectionRefusedError"))]).
Proof. reflexivity. Qed.

(** C10.  [send_simple_email] is [send_email] without attachments: the
    two return the same result and leave the same log, whether the
    attachment list is omitted or empty; the message composed has no
    attachment part, and composing it fails only if UTF-8 cannot encode
    the body. *)
Theorem send_simple_email_is_send_email w self receiver_emails subject body h :
  send_simple_email w self receiver_emails subject body h
  = send_email w self receiver_emails subject body None h
  /\
  send_simple_email w self receiver_emails subject body h
  = send_email w self receiver_emails subject body (Some []) h
  /\
  compose w self receiver_emails subject body None h
  = (match utf8_encode body with
     | Ok _ => Ok {| msg_from := sender_email self;
                     msg_to := join (u ", ") receiver_emails;
                     msg_subject := subject;
                     msg_html := body;
                     msg_parts := [] |}
     | Raise e => Raise e
     end, h).
Proof.
  repeat split.
  unfold compose, bind, lift, ret. destruct (utf8_encode body); reflexivity.
Qed.

End TransportFacts.

(** ** The message composer *)

Module ComposeFacts.

Import Py Codec Data Eff EffFacts CodecFacts EmailSender Statements.

Lemma quote_nonempty safe s q :
  s <> [] -> quote_with safe s = Ok q -> q <> [].
Proof.
  intros Hs. unfold quote_with.
  destruct (utf8_encode s) as [bs | e] eqn:E; [| discriminate].
  intros [= <-]. destruct s as [| c r]; [contradiction |].
  simpl in E. destruct (scalar c); [| discriminate].
  destruct (utf8_encode r); [| discriminate]. injection E as <-.
  unfold utf8_cp, quote_from_bytes.
  destruct (c <? 128)%N; [| destruct (c <? 2048)%N; [| destruct (c <? 65536)%N]];
    simpl; unfold quote_byte;
    match goal with
    | |- context [if ?b then _ else _] => destruct b
    end; discriminate.
Qed.

(** The part built for a file name that UTF-8 can encode. *)
Lemma make_part_encodable filename data :
  forallb scalar filename = true -> filename <> [] ->
  exists qa q,
    make_part filename data
    = Ok {| part_maintype := u "application";
            part_subtype := if has_pdf_extension filename
                            then u "pdf" else u "octet-stream";
            part_payload := encodebytes data;
            part_transfer_encoding := u "base64";
            part_disposition :=
              u "attachment; filename*=utf-8''" ++ qa
                ++ u "; filename-ascii=" ++ [34%N] ++ q ++ [34%N] |} /\
    forallb plain qa = true /\ forallb plain q = true /\
    decode_rfc2231 (u "utf-8''" ++ qa) = Some filename /\
    unquote q = Some filename.
Proof.
  intros Hs Hne.
  destruct (decode_encode_rfc2231 filename Hs) as (qa & Hqa & Henc & Hdec).
  destruct (unquote_quote [47%N] filename Hs eq_refl) as (q & Hq & Hun).
  exists qa, q.
  assert (Hpa : forallb plain qa = true).
  { unfold quote_with in Hqa. rewrite (utf8_encode_scalars _ Hs) in Hqa.
    injection Hqa as <-. apply quote_plain; [apply utf8_octets; exact Hs | reflexivity]. }
  assert (Hp : forallb plain q = true).
  { unfold quote_with in Hq. rewrite (utf8_encode_scalars _ Hs) in Hq.
    injection Hq as <-. apply quote_plain; [apply utf8_octets; exact Hs | reflexivity]. }
  repeat split; try assumption.
  unfold make_part, mime_type, quote. rewrite lower_endswith_pdf, Hq.
  unfold header_value, disposition_params, format_params, formatparam.
  rewrite Henc.
  pose proof (quote_nonempty [47%N] filename q Hne Hq) as Hqne.
  destruct q as [| x q']; [contradiction |].
  rewrite (plain_is_ascii _ Hp), (plain_utils_quote _ Hp).
  destruct (has_pdf_extension filename); simpl; rewrite <- ?app_assoc; reflexivity.
Qed.

Lemma not_ascii_nonempty s : is_ascii s = false -> s <> [].
Proof. intros H ->. discriminate H. Qed.

(** A path that does not exist is passed over with a warning. *)
Lemma attach_all_missing w file_path rest parts h :
  path_exists w h file_path = false ->
  attach_all w (file_path :: rest) parts h
  = attach_all w rest parts
               ((h ++ [Exists file_path]) ++ [Print (MsgAttachmentMissing file_path)]).
Proof.
  intros He. cbn [attach_all]. unfold bind, ask, print, note. rewrite He. reflexivity.
Qed.

(** A path that exists and can be read gets the part of [make_part]. *)
Lemma attach_all_present w file_path rest parts h data part :
  path_exists w h file_path = true ->
  read_file w (h ++ [Exists file_path]) file_path = Ok data ->
  make_part (basename file_path) data = Ok part ->
  attach_all w (file_path :: rest) parts h
  = attach_all w rest (parts ++ [part])
               ((h ++ [Exists file_path]) ++ [ReadFile file_path]).
Proof.
  intros He Hr Hm. cbn [attach_all]. unfold bind, ask, lift.
  rewrite He, Hr, Hm. reflexivity.
Qed.

(** Type, payload and transfer encoding of the part, for any encodable
    name (the empty one included). *)
Lemma make_part_typed content path :
  forallb scalar (basename path) = true ->
  exists part,
    make_part (basename path) (content path) = Ok part /\ attached content path part.
Proof.
  intros Hs.
  destruct (decode_encode_rfc2231 _ Hs) as (qa & _ & Henc & _).
  destruct (unquote_quote [47%N] _ Hs eq_refl) as (q & Hq & _).
  assert (Hp : forallb plain q = true).
  { unfold quote_with in Hq. rewrite (utf8_encode_scalars _ Hs) in Hq.
    injection Hq as <-. apply quote_plain; [apply utf8_octets; exact Hs | reflexivity]. }
  unfold make_part, mime_type, quote. rewrite lower_endswith_pdf, Hq.
  unfold header_value, disposition_params, format_params, formatparam.
  rewrite Henc.
  destruct q as [| x q'].
  - destruct (has_pdf_extension (basename path)) eqn:E; eexists;
      (split; [reflexivity |]); unfold attached; rewrite E; simpl; auto.
  - rewrite (plain_is_ascii _ Hp).
    destruct (has_pdf_extension (basename path)) eqn:E; eexists;
      (split; [reflexivity |]); unfold attached; rewrite E; simpl; auto.
Qed.

Section StableFiles.

Variable w : world.
Variable ex : str -> bool.
Variable content : str -> bytes.
Hypothesis exists_stable : forall h p, path_exists w h p = ex p.
Hypothesis read_stable : forall h p, ex p = true -> read_file w h p = Ok (content p).

Lemma attach_all_stable attachments :
  (forall p, In p attachments -> ex p = true -> forallb scalar (basename p) = true) ->
  forall parts h,
  exists new evs,
    attach_all w attachments parts h = (Ok (parts ++ new), h ++ evs) /\
    Forall2 (attached content) (filter ex attachments) new /\
    (forall p, In p attachments -> ex p = false ->
               In (Print (MsgAttachmentMissing p)) evs).
Proof.
  induction attachments as [| f rest IH]; intros Henc parts h.
  - exists [], []. rewrite !app_nil_r. split; [reflexivity |].
    split; [constructor | intros p []].
  - assert (Hrest : forall p, In p rest -> ex p = true ->
                              forallb scalar (basename p) = true)
      by (intros p Hp; apply Henc; right; exact Hp).
    destruct (ex f) eqn:Ef.
    + destruct (make_part_typed content f (Henc f (or_introl eq_refl) Ef))
        as (part & Hm & Ha).
      rewrite (attach_all_present w f rest parts h (content f) part);
        [| rewrite exists_stable; exact Ef | apply read_stable; exact Ef | exact Hm].
      destruct (IH Hrest (parts ++ [part]) ((h ++ [Exists f]) ++ [ReadFile f]))
        as (new & evs & E & HF & HW).
      exists (part :: new), ([Exists f; ReadFile f] ++ evs).
      rewrite E. split; [| split].
      * rewrite <- !app_assoc. reflexivity.
      * simpl. rewrite Ef. constructor; assumption.
      * intros p [<- | Hp] Hno; [congruence |].
        apply in_or_app. right. apply HW; assumption.
    + rewrite (attach_all_missing w f rest parts h);
        [| rewrite exists_stable; exact Ef].
      destruct (IH Hrest parts ((h ++ [Exists f]) ++ [Print (MsgAttachmentMissing f)]))
        as (new & evs & E & HF & HW).
      exists new, ([Exists f; Print (MsgAttachmentMissing f)] ++ evs).
      rewrite E. split; [| split].
      * rewrite <- !app_assoc. reflexivity.
      * simpl. rewrite Ef. exact HF.
      * intros p [<- | Hp] Hno.
        -- simpl. auto.
        -- apply in_or_app. right. apply HW; assumption.
Qed.

End StableFiles.




Example three_attachments_sent :
  let r := send_email (Samples.world_files Samples.all_but_gone) Samples.sender_ok
                      [u "a@example"] (u "subject") (u "body")
                      (Some Samples.three_attachments) [] in
  fst r = Ok true /\
  In (Print (MsgAttachmentMissing (u "gone.pdf"))) (snd r) /\
  map (fun e => match e with
                | SmtpSendMessage m => map part_subtype (msg_parts m)
                | _ => []
                end)
      (filter (fun e => match e with SmtpSendMessage _ => true | _ => false end) (snd r))
  = [[u "pdf"; u "octet-stream"]].
Proof. vm_compute. auto 10. Qed.

(** C5, as stated, fails: the attachment "报告.txt" exists and has a
    non-ASCII name, both forms of its name decode to "报告.txt", and
    that does not end in ".pdf". *)
Lemma decoded_name_need_not_end_in_pdf :
  is_ascii Samples.baogao_txt = false /\
  exists part h',
    attach_all Samples.world_ok [u "d/" ++ Samples.baogao_txt] [] [] = (Ok [part], h') /\
    part_disposition part
    = u "attachment; filename*=utf-8''%E6%8A%A5%E5%91%8A.txt; filename-ascii="
        ++ [34%N] ++ u "%E6%8A%A5%E5%91%8A.txt" ++ [34%N] /\
    decode_rfc2231 (u "utf-8''%E6%8A%A5%E5%91%8A.txt") = Some Samples.baogao_txt /\
    unquote (u "%E6%8A%A5%E5%91%8A.txt") = Some Samples.baogao_txt /\
    endswith Samples.baogao_txt (u ".pdf") = false.
Proof. vm_compute. split; [reflexivity |]. eexists _, _. repeat split. Qed.

(** C5, amended.  For an attachment that exists and is read, whose
    name UTF-8 can encode and is not pure ASCII, the part's
    Content-Disposition is
    [attachment; filename*=utf-8''QA; filename-ascii="Q"]: the name
    stands in two forms at once, an RFC 2231 extended value made from
    the literal name with charset utf-8 and a percent-encoded fallback,
    both in plain ASCII, and decoding either gives the attachment's own
    name back, so a name ending in ".pdf" exactly when that name does. *)
Theorem disposition_carries_both_names w h file_path rest parts data :
  path_exists w h file_path = true ->
  read_file w (h ++ [Exists file_path]) file_path = Ok data ->
  forallb scalar (basename file_path) = true ->
  is_ascii (basename file_path) = false ->
  exists part qa q,
    attach_all w (file_path :: rest) parts h
    = attach_all w rest (parts ++ [part])
                 ((h ++ [Exists file_path]) ++ [ReadFile file_path]) /\
    part_disposition part
    = u "attachment; filename*=utf-8''" ++ qa
        ++ u "; filename-ascii=" ++ [34%N] ++ q ++ [34%N] /\
    forallb plain qa = true /\ forallb plain q = true /\
    decode_rfc2231 (u "utf-8''" ++ qa) = Some (basename file_path) /\
    unquote q = Some (basename file_path) /\
    (forall name,
        decode_rfc2231 (u "utf-8''" ++ qa) = Some name \/ unquote q = Some name ->
        endswith name (u ".pdf") = endswith (basename file_path) (u ".pdf")).
Proof.
  intros He Hr Hs Hna.
  destruct (make_part_encodable (basename file_path) data Hs (not_ascii_nonempty _ Hna))
    as (qa & q & Hm & Hpa & Hp & Hd & Hu).
  eexists _, qa, q.
  split; [apply (attach_all_present w file_path rest parts h data _ He Hr Hm) |].
  split; [reflexivity |].
  repeat split; try assumption.
  intros name [H | H]; congruence.
Qed.

Lemma disposition_carries_both_names_witness :
  exists part qa q,
    attach_all Samples.world_ok [u "d/" ++ Samples.baogao_pdf] [] []
    = attach_all Samples.world_ok [] ([] ++ [part])
                 (([] ++ [Exists (u "d/" ++ Samples.baogao_pdf)])
                    ++ [ReadFile (u "d/" ++ Samples.baogao_pdf)]) /\
    part_disposition part
    = u "attachment; filename*=utf-8''" ++ qa
        ++ u "; filename-ascii=" ++ [34%N] ++ q ++ [34%N] /\
    forallb plain qa = true /\ forallb plain q = true /\
    decode_rfc2231 (u "utf-8''" ++ qa) = Some (basename (u "d/" ++ Samples.baogao_pdf)) /\
    unquote q = Some (basename (u "d/" ++ Samples.baogao_pdf)) /\
    (forall name,
        decode_rfc2231 (u "utf-8''" ++ qa) = Some name \/ unquote q = Some name ->
        endswith name (u ".pdf")
        = endswith (basename (u "d/" ++ Samples.baogao_pdf)) (u ".pdf")).
Proof.
  apply (disposition_carries_both_names Samples.world_ok []
           (u "d/" ++ Samples.baogao_pdf) [] [] Samples.man); reflexivity.
Defined.

Example baogao_pdf_disposition :
  option_map part_disposition
    (match make_part Samples.baogao_pdf Samples.man with Ok p => Some p | Raise _ => None end)
  = Some (u "attachment; filename*=utf-8''%E6%8A%A5%E5%91%8A.pdf; filename-ascii="
            ++ [34%N] ++ u "%E6%8A%A5%E5%91%8A.pdf" ++ [34%N]).
Proof. vm_compute. reflexivity. Qed.

End ComposeFacts.

(** ** The cap on the number of files *)

Module CapFacts.

Import Py Data Eff EffFacts Footprints PDFSummarizer Statements BatchFacts.
Local Open Scope Z_scope.

Section Processed.

Variable w : world.
Variable self : t.
Variable send_email : bool.

Lemma batch_step_enters n st i pdf_path h :
  filter is_enter (snd (batch_step w self send_email n st i pdf_path h))
  = filter is_enter h ++ [EnterProcessPdf pdf_path send_email].
Proof.
  pose proof (process_pdf_enters_once w self send_email pdf_path
                (h ++ [Print (MsgProgress i n)])) as H.
  unfold batch_step, bind, try_except, print, note, ret.
  destruct (process_pdf w self pdf_path send_email (h ++ [Print (MsgProgress i n)]))
    as [[[|] | e] h1]; simpl in H; destruct (i <? n); simpl;
    rewrite ?filter_app; simpl; rewrite H, filter_app; simpl;
    rewrite ?app_nil_r; reflexivity.
Qed.

(** The loop enters [process_pdf] once per file, in order. *)
Lemma batch_loop_enters n files :
  forall i st h,
    filter is_enter (snd (batch_loop w self send_email n i files st h))
    = filter is_enter h ++ map (fun p => EnterProcessPdf p send_email) files.
Proof.
  induction files as [| p rest IH]; intros i st h; simpl.
  - rewrite app_nil_r. reflexivity.
  - unfold bind.
    pose proof (batch_step_enters n st i p h) as Hs.
    destruct (batch_step_returns w self send_email n st i p h) as (h1 & E).
    rewrite E in Hs |- *. simpl in Hs.
    rewrite IH, Hs, <- app_assoc. reflexivity.
Qed.

(** The documents a batch processes are the files found, capped. *)
Lemma scan_enters directory max_files h :
  filter is_enter (snd (scan_and_process_pdfs w self directory send_email max_files h))
  = filter is_enter h
      ++ map (fun p => EnterProcessPdf p send_email)
             (capped (discover (walk w (h ++ [Print (MsgScanning directory)]) directory))
                     max_files).
Proof.
  unfold scan_and_process_pdfs, bind at 1, print at 1, note.
  unfold bind at 1, ask. cbv zeta. unfold capped.
  set (found := discover _).
  set (h0 := (h ++ _) ++ _).
  assert (Hh0 : filter is_enter h0 = filter is_enter h).
  { unfold h0. rewrite !filter_app. simpl. rewrite !app_nil_r. reflexivity. }
  unfold bind at 1, print at 1, note.
  destruct (truthy_list found) eqn:Et; cbn [negb].
  - destruct (truthy_int max_files); unfold bind at 1.
    + unfold bind at 1, print at 1, note, ret.
      unfold bind at 1.
      match goal with
      | |- context [batch_loop w self send_email ?n ?i ?l ?st ?hh] =>
          pose proof (batch_loop_enters n l i st hh) as Hl;
          destruct (batch_loop_returns w self send_email n l i st hh)
            as (st' & h' & E & _)
      end.
      rewrite E in Hl |- *. simpl in Hl |- *.
      rewrite filter_app, Hl, !filter_app. simpl. rewrite !app_nil_r, Hh0. reflexivity.
    + unfold ret at 1. unfold bind at 1.
      match goal with
      | |- context [batch_loop w self send_email ?n ?i ?l ?st ?hh] =>
          pose proof (batch_loop_enters n l i st hh) as Hl;
          destruct (batch_loop_returns w self send_email n l i st hh)
            as (st' & h' & E & _)
      end.
      rewrite E in Hl |- *. simpl in Hl |- *.
      rewrite filter_app, Hl, !filter_app. simpl. rewrite !app_nil_r, Hh0. reflexivity.
  - assert (found = []) as -> by (destruct found; [reflexivity | discriminate]).
    simpl. rewrite !filter_app. simpl. rewrite !app_nil_r, Hh0.
    destruct (truthy_int max_files); [| simpl; rewrite app_nil_r; reflexivity].
    unfold slice_to. destruct (0 <=? get max_files 0); rewrite firstn_nil;
      simpl; rewrite app_nil_r; reflexivity.
Qed.

End Processed.

Lemma capped_none found : capped found None = found.
Proof. reflexivity. Qed.

Lemma capped_positive found n :
  0 < n ->
  capped found (Some n) = firstn (Z.to_nat n) found /\ len (capped found (Some n)) <= n.
Proof.
  intros Hn. unfold capped, truthy_int, slice_to, get.
  destruct (Z.eqb_spec n 0); [lia |]. cbn [negb].
  destruct (Z.leb_spec 0 n); [| lia].
  split; [reflexivity |].
  unfold len. rewrite length_firstn. lia.
Qed.

(** A cap of zero is read as no cap at all. *)
Lemma capped_zero found : capped found (Some 0) = found.
Proof. reflexivity. Qed.

(** With a positive cap [n] the batch processes the first [n] files
    found and no more; without a cap every file found, once each. *)
Lemma positive_cap_respected w self directory send_email n h :
  0 < n ->
  let found := discover (walk w (h ++ [Print (MsgScanning directory)]) directory) in
  exists st h',
    scan_and_process_pdfs w self directory send_email (Some n) h = (Ok st, h') /\
    total st <= n /\
    filter is_enter h'
    = filter is_enter h
        ++ map (fun p => EnterProcessPdf p send_email) (firstn (Z.to_nat n) found).
Proof.
  intros Hn found.
  destruct (scan_returns w self directory send_email (Some n) h)
    as (st & h' & E & Ht & _).
  pose proof (scan_enters w self send_email directory (Some n) h) as He.
  rewrite E in He. simpl in He.
  fold found in Ht, He.
  destruct (capped_positive found n Hn) as [Hc Hl].
  exists st, h'. split; [exact E |]. split; [lia |].
  rewrite He, Hc. reflexivity.
Qed.

Lemma no_cap_processes_all w self directory send_email h :
  let found := discover (walk w (h ++ [Print (MsgScanning directory)]) directory) in
  exists st h',
    scan_and_process_pdfs w self directory send_email None h = (Ok st, h') /\
    total st = len found /\
    filter is_enter h'
    = filter is_enter h ++ map (fun p => EnterProcessPdf p send_email) found.
Proof.
  intros found.
  destruct (scan_returns w self directory send_email None h)
    as (st & h' & E & Ht & _).
  pose proof (scan_enters w self send_email directory None h) as He.
  rewrite E in He. simpl in He.
  exists st, h'. split; [exact E |]. split; [exact Ht | exact He].
Qed.

(** Nothing found: the counters are all zero, and this is a return. *)
Lemma empty_scan w self directory send_email max_files h :
  discover (walk w (h ++ [Print (MsgScanning directory)]) directory) = [] ->
  fst (scan_and_process_pdfs w self directory send_email max_files h) = Ok zero_stats.
Proof.
  intros Hd. unfold scan_and_process_pdfs, bind, print, note, ask. cbv zeta.
  rewrite Hd. reflexivity.
Qed.

Lemma cap_zero_is_no_cap w self directory send_email h :
  scan_and_process_pdfs w self directory send_email (Some 0) h
  = scan_and_process_pdfs w self directory send_email None h.
Proof. reflexivity. Qed.

(** C2, at the input where the code departs from it: the directory
    holds two PDF files and the cap is 0; both files are processed. *)
Theorem cap_zero_processes_every_file :
  let r := scan_and_process_pdfs Samples.world_ok Samples.summarizer_ok
                                 (u "d") true (Some 0) [] in
  fst r = Ok {| total := 2; success := 2; failed := 0 |} /\
  filter is_enter (snd r)
  = [EnterProcessPdf (u "d/a.pdf") true; EnterProcessPdf (u "d/B.PDF") true].
Proof. vm_compute. split; reflexivity. Qed.

Example cap_one :
  fst (scan_and_process_pdfs Samples.world_ok Samples.summarizer_ok
                             (u "d") true (Some 1) [])
  = Ok {| total := 1; success := 1; failed := 0 |}.
Proof. vm_compute. reflexivity. Qed.

(** A negative cap drops files from the end of the list. *)
Example cap_minus_one :
  fst (scan_and_process_pdfs Samples.world_ok Samples.summarizer_ok
                             (u "d") true (Some (-1)) [])
  = Ok {| total := 1; success := 1; failed := 0 |}.
Proof. vm_compute. reflexivity. Qed.

End CapFacts.

(** ** The text extractor *)

Module ExtractFacts.

Import Py Codec Data Eff EffFacts Footprints PDFSummarizer Statements.
Local Open Scope Z_scope.

Section StablePages.

Variable w : world.
Variable pdf_path : str.
Variable page : nat -> res str.
Hypothesis pages_stable : forall h i, extract_page w h pdf_path i = page i.

Lemma read_pages_stable pages :
  forall acc h,
    fst (read_pages w pdf_path pages acc h)
    = match texts (map page pages) with
      | Ok ts => Ok (acc ++ filter truthy ts)
      | Raise e => Raise e
      end.
Proof.
  induction pages as [| i rest IH]; intros acc h; simpl.
  - rewrite app_nil_r. reflexivity.
  - unfold bind, ask. rewrite pages_stable.
    destruct (page i) as [text | e]; [| reflexivity].
    rewrite IH. destruct (texts (map page rest)) as [ts | e]; [| reflexivity].
    simpl. destruct (truthy text); [rewrite <- app_assoc |]; reflexivity.
Qed.

Lemma extract_stable max_pages h n :
  has_pypdf2 w = true ->
  open_pdf w h pdf_path = Ok n ->
  fst (extract_text_from_pdf w pdf_path max_pages h)
  = Ok (expected_text page n max_pages).
Proof.
  intros Hlib Hopen. unfold extract_text_from_pdf, expected_text.
  rewrite Hlib. cbn [negb].
  unfold try_except, bind at 1, ask. rewrite Hopen.
  unfold bind at 1, print, note. unfold bind at 1.
  match goal with
  | |- context [read_pages w pdf_path ?l ?acc ?h0] =>
      pose proof (read_pages_stable l acc h0) as Hr;
      destruct (read_pages w pdf_path l acc h0) as [[ts | e] h1]
  end; simpl in Hr;
    destruct (texts (map page (seq 0 (Z.to_nat (Z.min (Z.of_nat n) max_pages)))))
      as [ts' | e']; try discriminate.
  - injection Hr as ->. reflexivity.
  - reflexivity.
Qed.

End StablePages.

Lemma extract_without_library w pdf_path max_pages h :
  has_pypdf2 w = false ->
  extract_text_from_pdf w pdf_path max_pages h = (Ok [], h ++ [Print MsgNoPyPDF2]).
Proof. intros H. unfold extract_text_from_pdf. rewrite H. reflexivity. Qed.

Lemma extract_unreadable w pdf_path max_pages h e :
  has_pypdf2 w = true ->
  open_pdf w h pdf_path = Raise e ->
  extract_text_from_pdf w pdf_path max_pages h
  = (Ok [], (h ++ [OpenPdf pdf_path]) ++ [Print (MsgPdfReadFailed e)]).
Proof.
  intros Hlib Hopen. unfold extract_text_from_pdf. rewrite Hlib. cbn [negb].
  unfold try_except, bind, ask. rewrite Hopen. reflexivity.
Qed.

Lemma process_pdf_empty_text w self pdf_path send_email h :
  fst (extract_text_from_pdf w pdf_path 50 (entered h pdf_path send_email)) = Ok [] ->
  fst (process_pdf w self pdf_path send_email h) = Ok false.
Proof.
  intros Hx.
  cbv beta iota zeta delta [process_pdf bind note print ret].
  fold (entered h pdf_path send_email).
  destruct (extract_text_from_pdf w pdf_path 50 (entered h pdf_path send_email))
    as [[t | e] h1]; simpl in Hx; [| discriminate].
  injection Hx as ->. reflexivity.
Qed.


Example expected_text_abc :
  expected_text Samples.pages_abc 3 50 = u "one" ++ [10; 10]%N ++ u "three"
  /\ expected_text Samples.pages_abc 3 2 = u "one"
  /\ expected_text Samples.pages_abc 3 (-1) = []
  /\ expected_text Samples.pages_broken 3 50 = []
  /\ expected_text Samples.pages_broken 3 1 = u "text".
Proof. repeat split. Qed.


End ExtractFacts.

(** ** The document processor *)

Module ProcessFacts.

Import Py Codec Data Eff EffFacts Footprints PDFSummarizer Statements.
Local Open Scope Z_scope.

Example init_config_ok :
  fst (init Samples.world_ok Samples.config_ok []) = Ok Samples.summarizer_ok.
Proof. reflexivity. Qed.

Example init_config_bad_template :
  fst (init Samples.world_ok Samples.config_bad_template [])
  = Ok Samples.summarizer_bad_template.
Proof. reflexivity. Qed.

Example subject_from_template :
  format_template [Lit (u "Summary: "); Field (u "filename")] (u "report.pdf")
  = Ok (u "Summary: report.pdf").
Proof. reflexivity. Qed.

(** The default subject template formats for every file name. *)
Lemma default_template_formats filename :
  format_template default_subject_template filename
  = Ok ([80; 68; 70; 25991; 26723; 24635; 32467; 58; 32]%N ++ filename).
Proof. simpl. rewrite app_nil_r. reflexivity. Qed.

Example process_pdf_ok :
  fst (process_pdf Samples.world_ok Samples.summarizer_ok (u "d/a.pdf") true [])
  = Ok true.
Proof. vm_compute. reflexivity. Qed.

Example process_pdf_raises_in_single_file_mode :
  fst (main (Samples.world_with Samples.config_bad_template Samples.pages_ok)
            Samples.args_file [])
  = Raise (KeyError (u "name")).
Proof. vm_compute. reflexivity. Qed.

(** C3, as stated, fails: with the subject template "{name}" the call
    of [format] raises [KeyError] after a successful summary, and
    nothing in [process_pdf] catches it. *)
Lemma process_pdf_lets_key_error_escape :
  fst (process_pdf Samples.world_ok Samples.summarizer_bad_template
                   (u "d/a.pdf") true [])
  = Raise (KeyError (u "name")).
Proof. vm_compute. reflexivity. Qed.

(** C3, amended.  [process_pdf] has no handler of its own.  What goes
    wrong inside extraction, summarization or the mail transport stays
    there: these stages never raise, and for a file name that UTF-8 can
    encode, so that the console can show it, [process_pdf] turns their
    failure results (no text, no summary, [False] from [send_email])
    into [False].  What its own statements raise escapes it unchanged:
    the exception of formatting the subject, or of sizing the file for
    the body, once the mail stage is reached.  In a batch the loop
    catches whatever escapes, reports it, counts that document as
    failed and goes on. *)
Theorem stage_failures_contained_others_escape w self pdf_path send_email h :
  (never_raises (extract_text_from_pdf w pdf_path 50) /\
   (forall text, never_raises (summarize_text w self text (basename pdf_path))) /\
   (forall sender subject body,
       never_raises (EmailSender.send_email w sender (receiver_emails self)
                                            subject body (Some [pdf_path]))))
  /\
  (forallb scalar (basename pdf_path) = true ->
   forall text h1,
     extract_text_from_pdf w pdf_path 50 (entered h pdf_path send_email) = (Ok text, h1) ->
     (truthy text = false ->
      process_pdf w self pdf_path send_email h
      = (Ok false, h1 ++ [Print MsgExtractFailedSkip]))
     /\
     (truthy text = true ->
      forall result h2,
        summarize_text w self text (basename pdf_path) h1 = (Ok result, h2) ->
        match result, mail_stage self send_email with
        | None, _ =>
            process_pdf w self pdf_path send_email h
            = (Ok false, h2 ++ [Print MsgSummarizeFailedSkip])
        | Some (summary, info), None =>
            forallb scalar summary = true ->
            process_pdf w self pdf_path send_email h
            = (Ok true, h2 ++ [Print (MsgDoneNoMail summary)])
        | Some (summary, info), Some sender =>
            match format_template (subject_template self) (basename pdf_path) with
            | Raise e => process_pdf w self pdf_path send_email h = (Raise e, h2)
            | Ok subject =>
                match getsize w h2 pdf_path with
                | Raise e =>
                    process_pdf w self pdf_path send_email h
                    = (Raise e, h2 ++ [GetSize pdf_path])
                | Ok size =>
                    exists ok h4,
                      EmailSender.send_email
                        w sender (receiver_emails self) subject
                        (render_html w (h2 ++ [GetSize pdf_path]) (basename pdf_path)
                                     summary size info)
                        (Some [pdf_path]) (h2 ++ [GetSize pdf_path]) = (Ok ok, h4) /\
                      process_pdf w self pdf_path send_email h
                      = (Ok ok, h4 ++ [Print (if ok then MsgDoneSent
                                               else MsgDoneSendFailed)])
                end
            end
        end))
  /\
  (forall n st i e h',
      process_pdf w self pdf_path send_email (h ++ [Print (MsgProgress i n)])
      = (Raise e, h') ->
      batch_step w self send_email n st i pdf_path h
      = (Ok (add_failed st),
         (h' ++ [Print (MsgProcessError e)]) ++ (if i <? n then [Sleep 2] else []))).
Proof.
  split; [| split].
  - split; [apply extract_never_raises |].
    split; [intros; apply summarize_never_raises | intros; apply send_email_never_raises].
  - intros _ text h1 Hx.
    cbv beta iota zeta delta [process_pdf mail_stage bind note print
                                           create_email_body ask peek lift ret].
    fold (entered h pdf_path send_email). rewrite Hx.
    split; [intros ->; reflexivity |].
    intros -> result h2 Hs. cbn [negb]. rewrite Hs.
    destruct result as [[summary info] |]; [| reflexivity].
    destruct (if send_email && truthy_list (receiver_emails self)
              then email_sender self else None) as [sender |]; [| intros _; reflexivity].
    destruct (format_template (subject_template self) (basename pdf_path))
      as [subject | e]; [| reflexivity].
    destruct (getsize w h2 pdf_path) as [size | e]; [| reflexivity].
    match goal with
    | |- context [EmailSender.send_email w sender ?r ?s ?b ?a ?h0] =>
        destruct (send_email_never_raises w sender r s b a h0) as (ok & h4 & E)
    end.
    exists ok, h4. split; [exact E |]. rewrite E. destruct ok; reflexivity.
  - intros n st i e h' Hp.
    unfold batch_step, bind, try_except, print, note, ret.
    rewrite Hp. destruct (i <? n); rewrite <- ?app_assoc; simpl;
      rewrite ?app_nil_r; reflexivity.
Qed.

Lemma stage_failures_contained_others_escape_witness :
  exists h2,
    process_pdf Samples.world_ok Samples.summarizer_bad_template (u "d/a.pdf") true []
    = (Raise (KeyError (u "name")), h2)
    /\
    forall st,
      batch_step Samples.world_ok Samples.summarizer_bad_template true 2 st 1
                 (u "d/a.pdf") []
      = (Ok (add_failed st),
         (snd (process_pdf Samples.world_ok Samples.summarizer_bad_template
                           (u "d/a.pdf") true ([] ++ [Print (MsgProgress 1 2)]))
            ++ [Print (MsgProcessError (KeyError (u "name")))]) ++ [Sleep 2]).
Proof.
  destruct (stage_failures_contained_others_escape Samples.world_ok
              Samples.summarizer_bad_template (u "d/a.pdf") true [])
    as (_ & B & C).
  destruct (B eq_refl _ _ eq_refl) as [_ B2].
  specialize (B2 eq_refl _ _ eq_refl).
  eexists. split; [exact B2 |].
  intros st.
  apply (C 2 st 1 (KeyError (u "name"))). reflexivity.
Defined.

(** C4.  A text shorter than 100 characters once trimmed (the empty
    text included) is rejected by [summarize_text] with a single console
    line and no call to the backend; a document whose extracted text is
    that short is reported as failed, and the log holds no more
    completion requests than before. *)
Theorem short_text_rejected_locally w self text filename pdf_path send_email h h0 :
  len (strip text) < 100 ->
  (exists c, summarize_text w self text filename h0 = (Ok None, h0 ++ [Print c]))
  /\
  (fst (extract_text_from_pdf w pdf_path 50 (entered h pdf_path send_email)) = Ok text ->
   exists h',
     process_pdf w self pdf_path send_email h = (Ok false, h') /\
     filter is_chat h' = filter is_chat h).
Proof.
  intros Hshort.
  assert (Hs : forall fn hx, exists c,
             summarize_text w self text fn hx = (Ok None, hx ++ [Print c])).
  { intros fn hx. unfold summarize_text.
    destruct (client self); cbn [negb].
    - apply Z.ltb_lt in Hshort. rewrite Hshort, orb_true_r.
      exists MsgTextTooShort. reflexivity.
    - exists MsgClientMissing. reflexivity. }
  split; [apply Hs |].
  intros Hx.
  cbv beta iota zeta delta [process_pdf bind note print ret].
  fold (entered h pdf_path send_email).
  pose proof (quiet_filter is_chat _ (extract_text_from_pdf w pdf_path 50)
                (entered h pdf_path send_email)
                (extract_quiet w is_chat pdf_path 50
                   (fun _ => eq_refl) (fun _ => eq_refl) (fun _ _ => eq_refl))) as Hq.
  destruct (extract_text_from_pdf w pdf_path 50 (entered h pdf_path send_email))
    as [[t | e] h1]; simpl in Hx, Hq; [| discriminate].
  injection Hx as ->.
  assert (Hh : filter is_chat h1 = filter is_chat h).
  { rewrite Hq. unfold entered. rewrite !filter_app. simpl. rewrite !app_nil_r.
    reflexivity. }
  destruct (truthy text); cbn [negb].
  - destruct (Hs (basename pdf_path) h1) as (c & ->).
    eexists. split; [reflexivity |].
    rewrite !filter_app. simpl. rewrite !app_nil_r. exact Hh.
  - eexists. split; [reflexivity |].
    rewrite filter_app. simpl. rewrite app_nil_r. exact Hh.
Qed.

(** A two-page document whose only text is a trimmed dozen characters. *)
Lemma short_text_rejected_locally_witness :
  (exists c, summarize_text (Samples.world_with Samples.config_ok Samples.pages_short)
                            Samples.summarizer_ok (u "  too short  ") (u "a.pdf") []
             = (Ok None, [] ++ [Print c]))
  /\
  (exists h',
      process_pdf (Samples.world_with Samples.config_ok Samples.pages_short)
                  Samples.summarizer_ok (u "d/a.pdf") true [] = (Ok false, h') /\
      filter is_chat h' = filter is_chat []).
Proof.
  destruct (short_text_rejected_locally
              (Samples.world_with Samples.config_ok Samples.pages_short)
              Samples.summarizer_ok (u "  too short  ") (u "a.pdf")
              (u "d/a.pdf") true [] []) as [A B].
  - vm_compute. reflexivity.
  - split; [exact A | apply B; vm_compute; reflexivity].
Defined.

End ProcessFacts.

(** ** Start-up *)

Module StartupFacts.

Import Py Codec Data Eff EffFacts Footprints PDFSummarizer Statements.
Local Open Scope Z_scope.

(** [__init__] returns a summarizer and prints at most two warnings;
    without relay credentials the summarizer has no sender. *)
Lemma init_returns w c h :
  exists self evs,
    init w c h = (Ok self, h ++ evs) /\
    Forall (fun e => exists line, e = Print line) evs /\
    (relay_credentials_missing c = true ->
     email_sender self = None /\ In (Print MsgMailConfigIncomplete) evs).
Proof.
  unfold init, relay_credentials_missing.
  cbv beta iota zeta delta [bind print note ret].
  destruct (has_azure_openai w && _ && _);
    destruct (truthy_opt (cfg_smtp_server (get (email c) empty_email))
              && truthy_opt (cfg_sender_email (get (email c) empty_email))
              && truthy_opt (cfg_sender_password (get (email c) empty_email)));
    cbv beta iota;
    first [ eexists _, []; split; [rewrite app_nil_r; reflexivity |]
          | eexists _, [_]; split; [reflexivity |]
          | eexists _, [_; _]; split; [rewrite <- app_assoc; reflexivity |] ];
    (split; [repeat constructor; eexists; reflexivity |]);
    simpl; intros H; try discriminate H; split; auto.
Qed.

(** C8, as stated, fails: the configuration has an API key and no mail
    relay settings at all, and the batch runs; both documents are
    summarized and counted as successes. *)
Lemma batch_runs_without_relay_credentials :
  let w := Samples.world_with Samples.config_no_mail Samples.pages_ok in
  let r := main w (Samples.args_dir None) [] in
  fst (load_config w []) = Ok (Some Samples.config_no_mail) /\
  relay_credentials_missing Samples.config_no_mail = true /\
  fst r = Ok tt /\
  In (Walk (u "d")) (snd r) /\
  filter is_enter (snd r)
  = [EnterProcessPdf (u "d/a.pdf") true; EnterProcessPdf (u "d/B.PDF") true] /\
  In (Print (MsgStats 2 2 0)) (snd r).
Proof. vm_compute. repeat split; auto 60. Qed.

Lemma snd_bind_ret A (m : M A) h :
  snd (bind m (fun _ => ret tt) h) = snd (m h).
Proof. unfold bind, ret. destruct (m h) as [[a | e] h']; reflexivity. Qed.

Lemma key_present_truthy_config c :
  api_key_missing c = false -> truthy_config c = true.
Proof.
  unfold api_key_missing, truthy_config.
  destruct (azure_openai c); [reflexivity | discriminate].
Qed.

(** C8, amended.  A configuration without the API key is fatal at
    start-up: [main] prints one line and returns, and nothing of a
    batch has happened.  Missing relay credentials are not: [__init__]
    prints a warning and builds a summarizer without a sender, and a
    batch over an existing directory starts all the same, opening no
    SMTP session. *)
Theorem missing_api_key_is_fatal w a h c h1 :
  load_config w h = (Ok (Some c), h1) ->
  (api_key_missing c = true ->
   (exists line, main w a h = (Ok tt, h1 ++ [Print line])) /\
   filter is_work (snd (main w a h)) = filter is_work h)
  /\
  (api_key_missing c = false -> relay_credentials_missing c = true ->
   exists self h2,
     init w c h1 = (Ok self, h2) /\
     email_sender self = None /\
     In (Print MsgMailConfigIncomplete) h2 /\
     forall directory,
       truthy_opt (arg_file a) = false ->
       arg_directory a = Some directory -> truthy directory = true ->
       path_exists w h2 directory = true ->
       In (Walk directory) (snd (main w a h)) /\
       filter is_smtp (snd (main w a h)) = filter is_smtp h).
Proof.
  intros Hload.
  assert (Hq : forall P, (forall c, P (Print c) = false) ->
                         (forall p, P (Exists p) = false) ->
                         (forall p, P (LoadToml p) = false) ->
                         filter P h1 = filter P h).
  { intros P H1 H2 H3.
    pose proof (quiet_filter P _ (load_config w) h
                  (load_config_quiet w P H1 H2 H3)) as Hf.
    rewrite Hload in Hf. exact Hf. }
  split.
  - intros Hkey. unfold api_key_missing in Hkey.
    assert (Hm : exists line, main w a h = (Ok tt, h1 ++ [Print line])).
    { unfold main, bind at 1. rewrite Hload.
      destruct (truthy_config c); cbn [negb].
      - rewrite Hkey. eexists. reflexivity.
      - eexists. reflexivity. }
    split; [exact Hm |].
    destruct Hm as (line & ->). simpl. rewrite filter_app. simpl.
    rewrite app_nil_r. apply Hq; reflexivity.
  - intros Hkey Hmail.
    destruct (init_returns w c h1) as (self & evs & Hinit & Hprints & Hnone).
    destruct (Hnone Hmail) as [Hsender Hwarn].
    exists self, (h1 ++ evs). split; [exact Hinit |]. split; [exact Hsender |].
    split; [apply in_or_app; right; exact Hwarn |].
    intros directory Hfile Hdir Htruthy Hexists.
    assert (Hmain : snd (main w a h)
                    = snd (scan_and_process_pdfs w self directory (negb (arg_no_email a))
                             (arg_max_files a) ((h1 ++ evs) ++ [Exists directory]))).
    { unfold main, bind at 1. rewrite Hload.
      rewrite (key_present_truthy_config c Hkey). cbn [negb].
      unfold api_key_missing in Hkey. rewrite Hkey.
      unfold bind at 1. rewrite Hinit. cbv zeta.
      rewrite Hfile, Hdir. cbn [truthy_opt get]. rewrite Htruthy.
      unfold bind at 1, ask. rewrite Hexists.
      apply snd_bind_ret. }
    rewrite Hmain. split.
    + destruct (scan_walks w self directory (negb (arg_no_email a)) (arg_max_files a)
                  ((h1 ++ evs) ++ [Exists directory])) as (evs' & ->).
      apply in_or_app. left. apply in_or_app. right. left. reflexivity.
    + rewrite (quiet_filter is_smtp _ _ _
                 (scan_quiet w self (negb (arg_no_email a)) is_smtp
                    (fun p => process_pdf_no_sender_quiet w self _ is_smtp p Hsender
                                (fun _ => eq_refl) (fun _ _ => eq_refl) (fun _ => eq_refl)
                                (fun _ _ => eq_refl) (fun _ _ _ => eq_refl))
                    (fun _ => eq_refl) (fun _ => eq_refl) directory (arg_max_files a)
                    (fun _ => eq_refl))).
      rewrite !filter_app. simpl. rewrite app_nil_r.
      assert (filter is_smtp evs = []) as ->.
      { clear -Hprints. induction Hprints as [| e l (line & ->) _ IH]; simpl; auto. }
      rewrite app_nil_r. apply Hq; reflexivity.
Qed.

Lemma missing_api_key_is_fatal_witness :
  (exists line,
      main (Samples.world_with Samples.config_no_key Samples.pages_ok)
           (Samples.args_dir None) []
      = (Ok tt, [Exists (u "config.toml"); LoadToml (u "config.toml"); Print MsgConfigLoaded]
                  ++ [Print line]))
  /\
  (In (Walk (u "d"))
      (snd (main (Samples.world_with Samples.config_no_mail Samples.pages_ok)
                 (Samples.args_dir None) []))
   /\
   filter is_smtp (snd (main (Samples.world_with Samples.config_no_mail Samples.pages_ok)
                             (Samples.args_dir None) []))
   = filter is_smtp []).
Proof.
  split.
  - apply (missing_api_key_is_fatal
             (Samples.world_with Samples.config_no_key Samples.pages_ok)
             (Samples.args_dir None) [] Samples.config_no_key _ eq_refl).
    reflexivity.
  - destruct (missing_api_key_is_fatal
                (Samples.world_with Samples.config_no_mail Samples.pages_ok)
                (Samples.args_dir None) [] Samples.config_no_mail _ eq_refl)
      as [_ B].
    destruct (B eq_refl eq_refl) as (self & h2 & Hi & _ & _ & Hd).
    injection Hi as <- <-.
    apply (Hd (u "d")); reflexivity.
Defined.

End StartupFacts.

(** ** Paths and discovery *)

Module DiscoverFacts.

Import Py Codec Data Eff EffFacts CodecFacts PDFSummarizer Statements Notions.

Lemma basename_no_slash s : no_slash s = true -> basename s = s.
Proof.
  unfold no_slash. destruct s as [| c r]; [reflexivity |].
  cbn [existsb basename]. intros H.
  apply negb_true_iff in H. apply orb_false_elim in H as [Hc Hr].
  rewrite Hr, N.eqb_sym, Hc. reflexivity.
Qed.

Lemma basename_app_slash a b :
  no_slash b = true -> basename (a ++ 47%N :: b) = b.
Proof.
  intros Hb. unfold no_slash in Hb. apply negb_true_iff in Hb.
  induction a as [| c r IH]; cbn [app basename].
  - rewrite Hb. reflexivity.
  - rewrite existsb_app. cbn [existsb]. rewrite N.eqb_refl, orb_true_r. exact IH.
Qed.

Lemma endswith_slash_last a :
  endswith a [47%N] = true -> exists a', a = a' ++ [47%N].
Proof.
  unfold endswith. cbn [rev app]. destruct (rev a) as [| c r] eqn:E; cbn [startswith].
  - discriminate.
  - rewrite andb_true_r. intros H. apply N.eqb_eq in H. subst c.
    exists (rev r). rewrite <- (rev_involutive a), E. reflexivity.
Qed.

(** [basename] undoes [os.path.join] on a name without a slash. *)
Lemma basename_path_join root file :
  no_slash file = true -> basename (path_join root file) = file.
Proof.
  intros Hf. unfold path_join.
  destruct (startswith file [47%N]) eqn:Es.
  - apply basename_no_slash. exact Hf.
  - destruct (negb (truthy root) || endswith root [47%N]) eqn:Ee.
    + apply orb_prop in Ee as [Hr | Hr].
      * destruct root; [| discriminate Hr]. apply basename_no_slash. exact Hf.
      * destruct (endswith_slash_last root Hr) as (a' & ->).
        rewrite <- app_assoc. exact (basename_app_slash a' file Hf).
    + exact (basename_app_slash root file Hf).
Qed.

Lemma in_discover triples p :
  In p (discover triples) <->
  exists root dirs files file,
    In (root, dirs, files) triples /\ In file files /\
    endswith (lower file) (u ".pdf") = true /\ p = path_join root file.
Proof.
  unfold discover. rewrite in_flat_map. split.
  - intros ([[root dirs] files] & Ht & Hp).
    apply in_map_iff in Hp as (file & <- & Hf). apply filter_In in Hf as [Hf Hpdf].
    exists root, dirs, files, file. auto.
  - intros (root & dirs & files & file & Ht & Hf & Hpdf & ->).
    exists (root, dirs, files). split; [exact Ht |].
    apply in_map. apply filter_In. auto.
Qed.

(** X1.  The documents of a batch are the files of the walk whose name
    has the extension .pdf in any case, all of them and no others; each
    keeps its file name as the last component of its path, so the mail
    composer gives it the type application/pdf. *)
Theorem discovered_files_are_pdf_attachments triples :
  (forall root dirs files,
      In (root, dirs, files) triples -> forallb no_slash files = true) ->
  forall p,
    (In p (discover triples) <->
     exists root dirs files file,
       In (root, dirs, files) triples /\ In file files /\
       has_pdf_extension file = true /\ p = path_join root file)
    /\
    (In p (discover triples) ->
     has_pdf_extension (basename p) = true /\
     EmailSender.mime_type (basename p) = (u "application", u "pdf")).
Proof.
  intros Hns p. split.
  - rewrite in_discover. split;
      intros (root & dirs & files & file & Ht & Hf & Hpdf & ->);
      exists root, dirs, files, file;
      rewrite lower_endswith_pdf in *; auto.
  - intros Hp. apply in_discover in Hp
      as (root & dirs & files & file & Ht & Hf & Hpdf & ->).
    assert (Hfile : no_slash file = true).
    { pose proof (Hns root dirs files Ht) as H.
      rewrite forallb_forall in H. apply H. exact Hf. }
    rewrite (basename_path_join root file Hfile).
    unfold EmailSender.mime_type. rewrite Hpdf.
    rewrite lower_endswith_pdf in Hpdf. auto.
Qed.

Lemma discovered_files_are_pdf_attachments_witness :
  (In (u "d/B.PDF") (discover Inputs.walk_d) <->
   exists root dirs files file,
     In (root, dirs, files) Inputs.walk_d /\
     In file files /\ has_pdf_extension file = true /\
     u "d/B.PDF" = path_join root file)
  /\
  (In (u "d/B.PDF") (discover Inputs.walk_d) ->
   has_pdf_extension (basename (u "d/B.PDF")) = true /\
   EmailSender.mime_type (basename (u "d/B.PDF")) = (u "application", u "pdf")).
Proof.
  apply (discovered_files_are_pdf_attachments Inputs.walk_d).
  intros root dirs files [[= <- <- <-] | []]. reflexivity.
Defined.

Example discover_walk :
  discover [(u "d", [u "sub"], [u "a.pdf"; u "n.txt"]); (u "d/sub", [], [u "B.PDF"; u "pdf"])]
  = [u "d/a.pdf"; u "d/sub/B.PDF"].
Proof. reflexivity. Qed.

End DiscoverFacts.

(** ** More on the batch: pacing, caps, delivery switched off *)

Module LoopFacts.

Import Py Data Eff EffFacts Footprints PDFSummarizer Statements Notions BatchFacts.
Local Open Scope Z_scope.

Lemma filter_reports P l :
  (forall e, is_report e = true -> P e = false) ->
  Forall (fun e => is_report e = true) l -> filter P l = [].
Proof.
  intros HP Hl. induction Hl as [| e r He _ IH]; simpl; [reflexivity |].
  rewrite (HP e He). exact IH.
Qed.

(** A scan is its loop over the capped list of files, between console
    lines and the walk. *)
Lemma scan_is_loop w self directory send_email max_files h :
  let files := capped (discover (walk w (h ++ [Print (MsgScanning directory)]) directory))
                      max_files in
  exists pre post,
    Forall (fun e => is_report e = true) pre /\
    Forall (fun e => is_report e = true) post /\
    snd (scan_and_process_pdfs w self directory send_email max_files h)
    = snd (batch_loop w self send_email (len files) 1 files
                      {| total := len files; success := 0; failed := 0 |} (h ++ pre))
        ++ post.
Proof.
  unfold scan_and_process_pdfs, capped.
  cbv beta iota zeta delta [bind print note ask ret].
  set (found := discover _).
  destruct (truthy_list found) eqn:Et; cbn [negb].
  - destruct (truthy_int max_files).
    + exists [Print (MsgScanning directory); Walk directory; Print (MsgFound (len found));
              Print (MsgLimit (get max_files 0))].
      match goal with
      | |- context [batch_loop w self send_email ?n ?i ?l ?st ?hh] =>
          replace hh with (h ++ [Print (MsgScanning directory); Walk directory;
                                 Print (MsgFound (len found));
                                 Print (MsgLimit (get max_files 0))])
            by (rewrite <- !app_assoc; reflexivity);
          destruct (batch_loop_returns w self send_email n l i st
                      (h ++ [Print (MsgScanning directory); Walk directory;
                             Print (MsgFound (len found));
                             Print (MsgLimit (get max_files 0))]))
            as (st' & h' & E & _)
      end.
      rewrite E. eexists. split; [repeat constructor |].
      split; [| reflexivity]. repeat constructor.
    + exists [Print (MsgScanning directory); Walk directory; Print (MsgFound (len found))].
      match goal with
      | |- context [batch_loop w self send_email ?n ?i ?l ?st ?hh] =>
          replace hh with (h ++ [Print (MsgScanning directory); Walk directory;
                                 Print (MsgFound (len found))])
            by (rewrite <- !app_assoc; reflexivity);
          destruct (batch_loop_returns w self send_email n l i st
                      (h ++ [Print (MsgScanning directory); Walk directory;
                             Print (MsgFound (len found))]))
            as (st' & h' & E & _)
      end.
      rewrite E. eexists. split; [repeat constructor |].
      split; [| reflexivity]. repeat constructor.
  - assert (found = []) as -> by (destruct found; [reflexivity | discriminate]).
    assert (Hc : (if truthy_int max_files then slice_to (@nil str) (get max_files 0)
                  else []) = []).
    { destruct (truthy_int max_files); [| reflexivity].
      unfold slice_to. destruct (0 <=? get max_files 0); apply firstn_nil. }
    rewrite Hc.
    exists [Print (MsgScanning directory); Walk directory; Print (MsgFound (len (@nil str)));
            Print MsgNoneFound], [].
    split; [repeat constructor |]. split; [constructor |].
    simpl. rewrite <- !app_assoc. reflexivity.
Qed.

(** What a scan leaves of the events selected by [P], when [P] selects
    no console line and no walk. *)
Lemma scan_filter P w self directory send_email max_files h :
  (forall e, is_report e = true -> P e = false) ->
  let files := capped (discover (walk w (h ++ [Print (MsgScanning directory)]) directory))
                      max_files in
  exists h0,
    filter P h0 = filter P h /\
    filter P (snd (scan_and_process_pdfs w self directory send_email max_files h))
    = filter P (snd (batch_loop w self send_email (len files) 1 files
                                {| total := len files; success := 0; failed := 0 |} h0)).
Proof.
  intros HP files.
  destruct (scan_is_loop w self directory send_email max_files h)
    as (pre & post & Hpre & Hpost & E).
  exists (h ++ pre). split.
  - rewrite filter_app, (filter_reports P pre HP Hpre). apply app_nil_r.
  - rewrite E, filter_app, (filter_reports P post HP Hpost). apply app_nil_r.
Qed.

Section Pacing.

Variable w : world.
Variable self : t.
Variable send_email : bool.

Lemma process_pdf_never_sleeps pdf_path :
  quiet is_sleep (process_pdf w self pdf_path send_email).
Proof.
  unfold process_pdf. apply quiet_bind; [eff | intros _]. process_tail.
Qed.

Lemma batch_step_sleeps n st i pdf_path h :
  filter is_sleep (snd (batch_step w self send_email n st i pdf_path h))
  = filter is_sleep h ++ (if i <? n then [Sleep 2] else []).
Proof.
  pose proof (quiet_filter is_sleep _ _ (h ++ [Print (MsgProgress i n)])
                (process_pdf_never_sleeps pdf_path)) as H.
  rewrite filter_app in H. simpl in H. rewrite app_nil_r in H.
  unfold batch_step, bind, try_except, print, note, ret.
  destruct (process_pdf w self pdf_path send_email (h ++ [Print (MsgProgress i n)]))
    as [[[|] | e] h1]; simpl in H; destruct (i <? n); simpl;
    rewrite ?filter_app; simpl; rewrite H, ?app_nil_r; reflexivity.
Qed.

Lemma batch_loop_sleeps n files :
  forall i st h,
    i + len files = n + 1 ->
    filter is_sleep (snd (batch_loop w self send_email n i files st h))
    = filter is_sleep h ++ repeat (Sleep 2) (length files - 1).
Proof.
  induction files as [| p rest IH]; intros i st h Hi; simpl.
  - rewrite app_nil_r. reflexivity.
  - unfold bind.
    pose proof (batch_step_sleeps n st i p h) as Hs.
    destruct (batch_step_returns w self send_email n st i p h) as (h1 & E).
    rewrite E in Hs |- *. simpl in Hs.
    unfold len in Hi. simpl length in Hi. rewrite Nat2Z.inj_succ in Hi.
    rewrite IH by (unfold len; lia). rewrite Hs, Nat.sub_0_r.
    destruct rest as [| q r].
    + simpl in *. destruct (Z.ltb_spec i n); [lia |]. rewrite !app_nil_r. reflexivity.
    + simpl length in *. rewrite Nat2Z.inj_succ in Hi.
      destruct (Z.ltb_spec i n); [| lia].
      rewrite <- app_assoc. simpl. rewrite Nat.sub_0_r. reflexivity.
Qed.

End Pacing.

Section Segments.

Variable w : world.
Variable self : t.
Variable send_email : bool.

(** After its entry, [process_pdf] records neither an entry nor a pause. *)
Lemma process_pdf_segment pdf_path h :
  exists tail,
    snd (process_pdf w self pdf_path send_email h)
    = (h ++ [EnterProcessPdf pdf_path send_email]) ++ tail /\
    Forall (fun e => is_enter e || is_sleep e = false) tail.
Proof.
  unfold process_pdf.
  match goal with
  | |- context [bind (note ?ev) ?k h] =>
      assert (Hq : quiet (fun e => is_enter e || is_sleep e) (k tt))
  end.
  { cbv beta. process_tail. }
  destruct (Hq (h ++ [EnterProcessPdf pdf_path send_email])) as (tail & E & F).
  exists tail. split; [exact E | exact F].
Qed.

Lemma batch_step_segment n st i pdf_path h :
  exists seg,
    document_segment send_email pdf_path seg /\
    snd (batch_step w self send_email n st i pdf_path h)
    = (h ++ seg) ++ (if i <? n then [Sleep 2] else []).
Proof.
  destruct (process_pdf_segment pdf_path (h ++ [Print (MsgProgress i n)]))
    as (tail & E & F).
  unfold batch_step, bind, try_except, print, note, ret.
  destruct (process_pdf w self pdf_path send_email (h ++ [Print (MsgProgress i n)]))
    as [[ok | e] h1]; simpl in E; subst h1.
  - exists (Print (MsgProgress i n) :: EnterProcessPdf pdf_path send_email :: tail).
    split; [exists (MsgProgress i n), tail; split; [reflexivity | exact F] |].
    destruct (i <? n); simpl; rewrite <- ?app_assoc; simpl; rewrite ?app_nil_r;
      reflexivity.
  - exists (Print (MsgProgress i n) :: EnterProcessPdf pdf_path send_email
              :: tail ++ [Print (MsgProcessError e)]).
    split.
    + exists (MsgProgress i n), (tail ++ [Print (MsgProcessError e)]).
      split; [reflexivity |]. apply Forall_app. split; [exact F | repeat constructor].
    + destruct (i <? n); simpl; rewrite <- ?app_assoc; simpl; rewrite <- ?app_assoc;
        simpl; rewrite ?app_nil_r; reflexivity.
Qed.

Lemma batch_loop_segments n files :
  forall i st h,
    i + len files = n + 1 ->
    exists segs,
      Forall2 (document_segment send_email) files segs /\
      snd (batch_loop w self send_email n i files st h) = h ++ with_pauses segs.
Proof.
  induction files as [| p rest IH]; intros i st h Hi.
  - exists []. split; [constructor |]. simpl. rewrite app_nil_r. reflexivity.
  - cbn [batch_loop]. unfold bind.
    destruct (batch_step_segment n st i p h) as (seg & Hseg & Es).
    destruct (batch_step_returns w self send_email n st i p h) as (h1 & E).
    rewrite E in Es |- *. simpl in Es. subst h1.
    unfold len in Hi. simpl length in Hi. rewrite Nat2Z.inj_succ in Hi.
    match goal with
    | |- context [batch_loop w self send_email n (i + 1) rest ?st1 ?h1] =>
        destruct (IH (i + 1) st1 h1) as (segs & HF & ->); [unfold len; lia |]
    end.
    exists (seg :: segs). split; [constructor; assumption |].
    cbn [with_pauses].
    destruct HF as [| q sq rest' segs' Hq HF'].
    + simpl in Hi. destruct (Z.ltb_spec i n); [lia |].
      simpl. rewrite !app_nil_r. reflexivity.
    + simpl length in Hi. rewrite Nat2Z.inj_succ in Hi.
      destruct (Z.ltb_spec i n); [| lia].
      rewrite <- !app_assoc. reflexivity.
Qed.

End Segments.

(** X2.  Pacing.  The log of a batch is, between the lines and the walk
    that open and close it, the segments of its documents in order,
    each starting with the progress line and the entry into
    [process_pdf] and holding no pause, with one pause of two seconds
    between a segment and the next: the batch pauses after every
    document but the last, [k - 1] times for [k] files, and not at all
    for a single file or none. *)
Theorem batch_pauses_between_documents w self directory send_email max_files h :
  let files := capped (discover (walk w (h ++ [Print (MsgScanning directory)]) directory))
                      max_files in
  (exists pre segs post,
      snd (scan_and_process_pdfs w self directory send_email max_files h)
      = ((h ++ pre) ++ with_pauses segs) ++ post /\
      Forall (fun e => is_report e = true) pre /\
      Forall (fun e => is_report e = true) post /\
      Forall2 (document_segment send_email) files segs)
  /\
  filter is_sleep (snd (scan_and_process_pdfs w self directory send_email max_files h))
  = filter is_sleep h ++ repeat (Sleep 2) (length files - 1).
Proof.
  intros files. split.
  - destruct (scan_is_loop w self directory send_email max_files h)
      as (pre & post & Hpre & Hpost & E).
    fold files in E.
    destruct (batch_loop_segments w self send_email (len files) files 1
                {| total := len files; success := 0; failed := 0 |} (h ++ pre))
      as (segs & HF & El); [lia |].
    exists pre, segs, post. rewrite E, El. repeat split; assumption.
  - destruct (scan_filter is_sleep w self directory send_email max_files h)
      as (h0 & Hh0 & ->).
    + intros [] H; try discriminate H; reflexivity.
    + fold files. rewrite batch_loop_sleeps by lia. rewrite Hh0. reflexivity.
Qed.

(** Two documents: one pause, between the two entries. *)
Example pause_between_the_two :
  filter (fun e => is_enter e || is_sleep e)
         (snd (scan_and_process_pdfs Samples.world_ok Samples.summarizer_ok
                                     (u "d") true None []))
  = [EnterProcessPdf (u "d/a.pdf") true; Sleep 2; EnterProcessPdf (u "d/B.PDF") true].
Proof. vm_compute. reflexivity. Qed.

Example two_documents_one_pause :
  filter is_sleep (snd (scan_and_process_pdfs Samples.world_ok Samples.summarizer_ok
                                              (u "d") true None []))
  = [Sleep 2].
Proof. vm_compute. reflexivity. Qed.

Lemma capped_negative found n :
  n < 0 -> capped found (Some n) = firstn (length found - Z.to_nat (- n)) found.
Proof.
  intros Hn. unfold capped, truthy_int, slice_to, get.
  destruct (Z.eqb_spec n 0); [lia |]. cbn [negb].
  destruct (Z.leb_spec 0 n); [lia |].
  f_equal. unfold len. lia.
Qed.

(** X3.  A negative cap [-k] is handed to the slice as it is: the batch
    processes the files found but the last [k], in order, and none at
    all when [k] is at least their number. *)
Theorem negative_cap_drops_from_the_end w self directory send_email n h :
  n < 0 ->
  let found := discover (walk w (h ++ [Print (MsgScanning directory)]) directory) in
  let kept := firstn (length found - Z.to_nat (- n)) found in
  exists st h',
    scan_and_process_pdfs w self directory send_email (Some n) h = (Ok st, h') /\
    total st = len kept /\
    filter is_enter h'
    = filter is_enter h ++ map (fun p => EnterProcessPdf p send_email) kept.
Proof.
  intros Hn found kept.
  destruct (scan_returns w self directory send_email (Some n) h)
    as (st & h' & E & Ht & _).
  pose proof (CapFacts.scan_enters w self send_email directory (Some n) h) as He.
  rewrite E in He. simpl in He.
  fold found in Ht, He. rewrite (capped_negative found n Hn) in Ht, He.
  exists st, h'. auto.
Qed.

Lemma negative_cap_drops_from_the_end_witness :
  exists st h',
    scan_and_process_pdfs Samples.world_ok Samples.summarizer_ok (u "d") true
                          (Some (-1)) [] = (Ok st, h') /\
    total st = len [u "d/a.pdf"] /\
    filter is_enter h'
    = filter is_enter [] ++ map (fun p => EnterProcessPdf p true) [u "d/a.pdf"].
Proof.
  apply (negative_cap_drops_from_the_end Samples.world_ok Samples.summarizer_ok
           (u "d") true (-1) []).
  reflexivity.
Defined.

Lemma process_pdf_without_mail_stage P w self send_email pdf_path :
  mail_stage self send_email = None ->
  (forall c, P (Print c) = false) ->
  (forall p s, P (EnterProcessPdf p s) = false) ->
  (forall p, P (OpenPdf p) = false) ->
  (forall p i, P (ExtractPage p i) = false) ->
  (forall a b c, P (ChatCompletion a b c) = false) ->
  quiet P (process_pdf w self pdf_path send_email).
Proof.
  intros Hnone Hp He Ho Hx Hc. unfold mail_stage in Hnone.
  unfold process_pdf. rewrite Hnone.
  apply quiet_bind; [eff | intros _]. cbv zeta.
  apply quiet_bind; [eff | intros _].
  apply quiet_bind; [apply extract_quiet; side | intros text].
  destruct (negb (truthy text)); [eff |].
  apply quiet_bind; [apply summarize_quiet; side | intros [[summary info] |]]; eff.
Qed.

(** X4.  Delivery switched off. When the flag is off, or no sender is
    configured, or the recipient list is empty, a batch never touches
    the mail relay: no session is opened, and no file is sized or read
    for a message. *)
Theorem no_mail_stage_no_delivery w self directory send_email max_files h :
  mail_stage self send_email = None ->
  filter is_delivery (snd (scan_and_process_pdfs w self directory send_email max_files h))
  = filter is_delivery h.
Proof.
  intros Hnone. apply quiet_filter.
  apply (scan_quiet w self send_email is_delivery); try (intros; reflexivity).
  intros p. apply process_pdf_without_mail_stage; try assumption; intros; reflexivity.
Qed.

Lemma no_mail_stage_no_delivery_witness :
  filter is_delivery (snd (scan_and_process_pdfs Samples.world_ok Samples.summarizer_ok
                                                 (u "d") false None []))
  = filter is_delivery [].
Proof.
  apply (no_mail_stage_no_delivery Samples.world_ok Samples.summarizer_ok
           (u "d") false None []).
  reflexivity.
Defined.

End LoopFacts.

(** ** The summarization client and the page reader *)

Module StageFacts.

Import Py Codec Data Eff EffFacts Footprints PDFSummarizer Statements Notions.
Local Open Scope Z_scope.

Lemma long_text_truthy text : 100 <= len (strip text) -> truthy text = true.
Proof.
  destruct text as [| c r]; [| reflexivity].
  unfold len. simpl. lia.
Qed.

Lemma summarize_text_asks_once w self text filename h :
  client self = true -> 100 <= len (strip text) ->
  filter is_chat (snd (summarize_text w self text filename h))
  = filter is_chat h
      ++ [ChatCompletion (deployment_name self) (system_prompt self)
                         (user_prompt filename text)].
Proof.
  intros Hc Hlen. unfold summarize_text.
  rewrite Hc, (long_text_truthy text Hlen). cbn [negb orb].
  destruct (Z.ltb_spec (len (strip text)) 100); [lia |].
  cbv beta iota zeta delta [try_except bind print note ask lift ret].
  destruct (chat_completion w _ _ _ _) as [r | e].
  - unfold first_choice, usage_info, len_opt.
    destruct (resp_choices r) as [| [s |] cs]; destruct (resp_usage r) as [us |];
      cbv beta iota; cbn [fst snd];
      rewrite ?filter_app; simpl; rewrite ?app_nil_r; reflexivity.
  - cbn [fst snd]. rewrite ?filter_app. simpl. rewrite ?app_nil_r. reflexivity.
Qed.

(** X5.  The summarization client. With a client and a text of at least
    100 characters once trimmed, [summarize_text] makes exactly one
    completion request, for the configured deployment and system prompt
    and the user prompt built from the file name and the whole text; it
    returns the first choice's text with the usage figures when the
    answer has both, and [None] when the call raises, the answer has no
    choice, the choice has no text, or the usage figures are missing.
    Without a client it makes no request. *)
Theorem summarize_contract w self text filename h :
  (client self = true -> 100 <= len (strip text) ->
   fst (summarize_text w self text filename h)
   = Ok (summary_of (chat_completion w (h ++ [Print (MsgSummarizing (deployment_name self))])
                                     (deployment_name self) (system_prompt self)
                                     (user_prompt filename text)))
   /\
   filter is_chat (snd (summarize_text w self text filename h))
   = filter is_chat h
       ++ [ChatCompletion (deployment_name self) (system_prompt self)
                          (user_prompt filename text)])
  /\
  (client self = false ->
   summarize_text w self text filename h = (Ok None, h ++ [Print MsgClientMissing])).
Proof.
  split.
  - intros Hc Hlen. unfold summarize_text.
    rewrite Hc, (long_text_truthy text Hlen). cbn [negb orb].
    destruct (Z.ltb_spec (len (strip text)) 100); [lia |].
    cbv beta iota zeta delta [try_except bind print note ask lift ret].
    destruct (chat_completion w _ _ _ _) as [r | e]; cbn [summary_of].
    + unfold first_choice, usage_info, len_opt.
      destruct (resp_choices r) as [| [s |] cs]; destruct (resp_usage r) as [us |];
        cbv beta iota; cbn [fst snd]; (split; [reflexivity |]);
        rewrite ?filter_app; simpl; rewrite ?app_nil_r; reflexivity.
    + cbn [fst snd]. split; [reflexivity |].
      rewrite ?filter_app. simpl. rewrite ?app_nil_r. reflexivity.
  - intros Hc. unfold summarize_text. rewrite Hc. reflexivity.
Qed.

Lemma summarize_contract_witness :
  (fst (summarize_text Samples.world_ok Samples.summarizer_ok Samples.long_text
                       (u "a.pdf") [])
   = Ok (summary_of (chat_completion Samples.world_ok
                       ([] ++ [Print (MsgSummarizing (deployment_name Samples.summarizer_ok))])
                       (deployment_name Samples.summarizer_ok)
                       (system_prompt Samples.summarizer_ok)
                       (user_prompt (u "a.pdf") Samples.long_text)))
   /\
   filter is_chat (snd (summarize_text Samples.world_ok Samples.summarizer_ok
                                       Samples.long_text (u "a.pdf") []))
   = filter is_chat []
       ++ [ChatCompletion (deployment_name Samples.summarizer_ok)
                          (system_prompt Samples.summarizer_ok)
                          (user_prompt (u "a.pdf") Samples.long_text)]).
Proof.
  apply (summarize_contract Samples.world_ok Samples.summarizer_ok Samples.long_text
           (u "a.pdf") []).
  - reflexivity.
  - vm_compute. discriminate.
Defined.

(** An answer that has a text but no usage figures is thrown away. *)
Example summary_without_usage_is_lost :
  summary_of (Ok Inputs.reply_without_usage) = None.
Proof. reflexivity. Qed.

Lemma firstn_seq j : forall start n, (j <= n)%nat -> firstn j (seq start n) = seq start j.
Proof.
  induction j as [| j IH]; intros start n Hj; [reflexivity |].
  destruct n as [| n]; [lia |]. simpl. f_equal. apply IH. lia.
Qed.

Section Pages.

Variable w : world.
Variable pdf_path : str.

Lemma read_pages_calls pages :
  forall acc h,
  exists j,
    (j <= length pages)%nat /\
    filter is_extract_page (snd (read_pages w pdf_path pages acc h))
    = filter is_extract_page h ++ map (ExtractPage pdf_path) (firstn j pages).
Proof.
  induction pages as [| i rest IH]; intros acc h; simpl.
  - exists 0%nat. rewrite app_nil_r. auto.
  - unfold bind, ask.
    destruct (extract_page w h pdf_path i) as [text | e].
    + match goal with
      | |- context [read_pages w pdf_path rest ?a ?hh] =>
          destruct (IH a hh) as (j & Hj & E)
      end.
      exists (S j). split; [lia |].
      rewrite E, filter_app. simpl. rewrite <- app_assoc. reflexivity.
    + exists 1%nat. split; [lia |].
      simpl. rewrite filter_app. simpl. reflexivity.
Qed.

End Pages.

Lemma filter_map_extract pdf_path l :
  filter is_extract_page (map (ExtractPage pdf_path) l) = map (ExtractPage pdf_path) l.
Proof. induction l as [| i r IH]; simpl; [reflexivity | rewrite IH; reflexivity]. Qed.

Section PagesInOrder.

Variable w : world.
Variable pdf_path : str.
Variable h0 : log.

(** The request for page [j] is answered when the pages before it have
    been asked for. *)
Lemma read_pages_upto n :
  forall start acc,
    snd (read_pages w pdf_path (seq start n) acc
                    (h0 ++ map (ExtractPage pdf_path) (seq 0 start)))
    = (h0 ++ map (ExtractPage pdf_path) (seq 0 start))
        ++ map (ExtractPage pdf_path)
               (upto_first_failure
                  (fun j => extract_page
                              w (h0 ++ map (ExtractPage pdf_path) (seq 0 j)) pdf_path j)
                  (seq start n)).
Proof.
  set (answer := fun j => extract_page
                            w (h0 ++ map (ExtractPage pdf_path) (seq 0 j)) pdf_path j).
  induction n as [| n IH]; intros start acc; simpl.
  - rewrite app_nil_r. reflexivity.
  - unfold bind, ask. change (extract_page w _ pdf_path start) with (answer start).
    assert (Hlog : (h0 ++ map (ExtractPage pdf_path) (seq 0 start))
                     ++ [ExtractPage pdf_path start]
                   = h0 ++ map (ExtractPage pdf_path) (seq 0 (S start))).
    { rewrite seq_S, map_app, app_assoc. reflexivity. }
    destruct (answer start) as [text | e].
    + rewrite Hlog, IH, <- Hlog, <- !app_assoc. reflexivity.
    + reflexivity.
Qed.

End PagesInOrder.



(** The second of three pages cannot be read: the third is not asked for. *)
Example extraction_stops_at_the_broken_page :
  filter is_extract_page
         (snd (extract_text_from_pdf (Samples.world_pages (Ok 3%nat) Samples.pages_broken)
                                     (u "a.pdf") 50 []))
  = [ExtractPage (u "a.pdf") 0; ExtractPage (u "a.pdf") 1].
Proof. reflexivity. Qed.

Example extraction_reads_two_of_three :
  filter is_extract_page
         (snd (extract_text_from_pdf (Samples.world_pages (Ok 3%nat) Samples.pages_abc)
                                     (u "a.pdf") 2 []))
  = [ExtractPage (u "a.pdf") 0; ExtractPage (u "a.pdf") 1].
Proof. reflexivity. Qed.

End StageFacts.

(** ** More on sending *)

Module SendFacts.

Import Py Codec Data Eff EffFacts Footprints CodecFacts TransportFacts EmailSender
       Statements Notions.

Lemma utf8_encode_rejects s :
  forallb scalar s = false -> utf8_encode s = Raise UnicodeEncodeError.
Proof.
  induction s as [| c r IH]; simpl; [discriminate |].
  destruct (scalar c); [| reflexivity].
  simpl. intros Hr. rewrite (IH Hr). reflexivity.
Qed.

Lemma make_part_rejects filename data :
  forallb scalar filename = false -> make_part filename data = Raise UnicodeEncodeError.
Proof.
  intros H. unfold make_part, quote, quote_with.
  rewrite (utf8_encode_rejects filename H).
  destruct (mime_type filename). reflexivity.
Qed.

Lemma session_sends_once self msg :
  filter is_send_message (session self msg) = [SmtpSendMessage msg].
Proof. unfold session. destruct (use_tls self); reflexivity. Qed.

Lemma send_email_true_inv
        w self receiver_emails subject body attachments h h' :
  send_email w self receiver_emails subject body attachments h = (Ok true, h') ->
  exists msg h1,
    compose w self receiver_emails subject body attachments h = (Ok msg, h1) /\
    transmit w self msg h1 = (Ok tt, h1 ++ session self msg) /\
    h' = h1 ++ session self msg
            ++ [Print (MsgMailSent subject (join (u ", ") receiver_emails))] /\
    msg_from msg = sender_email self /\
    msg_to msg = join (u ", ") receiver_emails /\
    msg_subject msg = subject /\ msg_html msg = body /\
    filter is_send_message h' = filter is_send_message h ++ [SmtpSendMessage msg].
Proof.
  intros Hs.
  destruct (compose w self receiver_emails subject body attachments h)
    as [[msg | e] h1] eqn:Hc.
  - rewrite (send_email_after_compose _ _ _ _ _ _ _ _ _ Hc) in Hs.
    destruct (transmit_cases w self msg h1) as [E | (k & e & _ & E)];
      rewrite E in Hs; simpl in Hs; [| discriminate Hs].
    injection Hs as <-.
    destruct (compose_headers _ _ _ _ _ _ _ _ _ Hc) as (Hf & Ht & Hsub & Hb).
    exists msg, h1. repeat split; try assumption.
    + rewrite <- app_assoc. reflexivity.
    + pose proof (quiet_filter is_send_message _ _ h
                    (compose_quiet w is_send_message self receiver_emails subject body
                       attachments (fun _ => eq_refl) (fun _ => eq_refl)
                       (fun _ => eq_refl))) as Hq.
      rewrite Hc in Hq. simpl in Hq.
      rewrite !filter_app, session_sends_once, Hq. simpl. rewrite app_nil_r. reflexivity.
  - rewrite (send_email_compose_raises _ _ _ _ _ _ _ _ _ Hc) in Hs. discriminate Hs.
Qed.

(** X7.  Success means a complete session. [send_email] returns [True]
    only when the message was composed and every call of the session
    succeeded, the closing [quit] included; the message handed to the
    relay, once, carries the sender, the recipients joined by a comma
    and a space, the subject and the body given. *)
Theorem send_email_true_means_sent
        w self receiver_emails subject body attachments h h' :
  send_email w self receiver_emails subject body attachments h = (Ok true, h') ->
  exists msg h1,
    compose w self receiver_emails subject body attachments h = (Ok msg, h1) /\
    transmit w self msg h1 = (Ok tt, h1 ++ session self msg) /\
    h' = h1 ++ session self msg
            ++ [Print (MsgMailSent subject (join (u ", ") receiver_emails))] /\
    msg_from msg = sender_email self /\
    msg_to msg = join (u ", ") receiver_emails /\
    msg_subject msg = subject /\ msg_html msg = body /\
    filter is_send_message h' = filter is_send_message h ++ [SmtpSendMessage msg].
Proof. apply send_email_true_inv. Qed.

Lemma send_email_true_means_sent_witness :
  exists msg h1,
    compose Samples.world_ok Samples.sender_ok [u "a@example"] (u "subject") (u "body")
            None [] = (Ok msg, h1) /\
    transmit Samples.world_ok Samples.sender_ok msg h1
    = (Ok tt, h1 ++ session Samples.sender_ok msg) /\
    snd (send_email Samples.world_ok Samples.sender_ok [u "a@example"] (u "subject")
                    (u "body") None [])
    = h1 ++ session Samples.sender_ok msg
         ++ [Print (MsgMailSent (u "subject") (join (u ", ") [u "a@example"]))] /\
    msg_from msg = sender_email Samples.sender_ok /\
    msg_to msg = join (u ", ") [u "a@example"] /\
    msg_subject msg = u "subject" /\ msg_html msg = u "body" /\
    filter is_send_message
           (snd (send_email Samples.world_ok Samples.sender_ok [u "a@example"]
                            (u "subject") (u "body") None []))
    = filter is_send_message [] ++ [SmtpSendMessage msg].
Proof.
  apply (send_email_true_means_sent Samples.world_ok Samples.sender_ok [u "a@example"]
           (u "subject") (u "body") None []).
  reflexivity.
Defined.

Section StableFiles.

Variable w : world.
Variable ex : str -> bool.
Variable rd : str -> res bytes.
Hypothesis exists_stable : forall h p, path_exists w h p = ex p.
Hypothesis read_stable : forall h p, read_file w h p = rd p.

(** The loop goes through the paths that are attached or passed over. *)
Lemma attach_all_prefix pre :
  (forall q, In q pre -> ex q = true -> attachment_error rd q = None) ->
  forall l parts h,
  exists new,
    attach_all w (pre ++ l) parts h
    = attach_all w l (parts ++ new) (h ++ attach_events ex pre).
Proof.
  induction pre as [| q pre IH]; intros Hpre l parts h.
  - exists []. simpl. rewrite !app_nil_r. reflexivity.
  - assert (Hrest : forall p, In p pre -> ex p = true -> attachment_error rd p = None)
      by (intros p Hp; apply Hpre; right; exact Hp).
    cbn [app attach_events flat_map].
    destruct (ex q) eqn:Eq.
    + pose proof (Hpre q (or_introl eq_refl) Eq) as Hq.
      unfold attachment_error in Hq.
      destruct (rd q) as [data | e] eqn:Er; [| discriminate Hq].
      destruct (forallb scalar (basename q)) eqn:Es; [| discriminate Hq].
      destruct (ComposeFacts.make_part_typed (fun _ => data) q Es) as (part & Hm & _).
      rewrite (ComposeFacts.attach_all_present w q (pre ++ l) parts h data part);
        [| rewrite exists_stable; exact Eq | rewrite read_stable; exact Er | exact Hm].
      destruct (IH Hrest l (parts ++ [part]) ((h ++ [Exists q]) ++ [ReadFile q]))
        as (new & ->).
      exists (part :: new). rewrite <- !app_assoc. reflexivity.
    + rewrite (ComposeFacts.attach_all_missing w q (pre ++ l) parts h);
        [| rewrite exists_stable; exact Eq].
      destruct (IH Hrest l parts
                   ((h ++ [Exists q]) ++ [Print (MsgAttachmentMissing q)]))
        as (new & ->).
      exists new. rewrite <- !app_assoc. reflexivity.
Qed.

(** It stops at an attachment that exists and fails. *)
Lemma attach_all_fails file_path rest parts h e :
  ex file_path = true ->
  attachment_error rd file_path = Some e ->
  attach_all w (file_path :: rest) parts h
  = (Raise e, (h ++ [Exists file_path]) ++ [ReadFile file_path]).
Proof.
  intros Hex He. cbn [attach_all]. unfold bind, ask, lift.
  rewrite exists_stable, Hex, read_stable.
  unfold attachment_error in He.
  destruct (rd file_path) as [data | e'].
  - destruct (forallb scalar (basename file_path)) eqn:Es; [discriminate He |].
    injection He as <-. rewrite (make_part_rejects _ data Es). reflexivity.
  - injection He as <-. reflexivity.
Qed.

End StableFiles.



(** A name UTF-8 cannot encode fails the send as well, after the file
    has been read. *)
Example unencodable_name_fails_the_send :
  send_email Samples.world_ok Samples.sender_ok [u "a@example"] (u "subject")
             (u "body") (Some [u "d/" ++ Inputs.undecodable_name; u "d/b.pdf"]) []
  = (Ok false, [Exists (u "d/" ++ Inputs.undecodable_name);
                ReadFile (u "d/" ++ Inputs.undecodable_name);
                Print (MsgMailFailed UnicodeEncodeError)]).
Proof. reflexivity. Qed.

End SendFacts.

(** ** What a successful document has been through *)

Module SuccessFacts.

Import Py Codec Data Eff EffFacts Footprints PDFSummarizer Statements Notions.
Local Open Scope Z_scope.

Lemma summarize_some w self text filename h x h2 :
  summarize_text w self text filename h = (Ok (Some x), h2) ->
  client self = true /\ 100 <= len (strip text).
Proof.
  unfold summarize_text.
  destruct (client self); cbn [negb]; [| intros [=]].
  destruct (negb (truthy text) || (len (strip text) <? 100)) eqn:E; [intros [=] |].
  intros _. apply orb_false_elim in E as [_ E]. apply Z.ltb_ge in E. auto.
Qed.

(** A document reported as processed went through every stage. *)
Lemma process_pdf_true_inv w self pdf_path send_email h h' :
  process_pdf w self pdf_path send_email h = (Ok true, h') ->
  exists text h1 summary info h2,
    extract_text_from_pdf w pdf_path 50 (entered h pdf_path send_email) = (Ok text, h1) /\
    summarize_text w self text (basename pdf_path) h1 = (Ok (Some (summary, info)), h2) /\
    match mail_stage self send_email with
    | None => h' = h2 ++ [Print (MsgDoneNoMail summary)]
    | Some sender =>
        exists subject size h4,
          format_template (subject_template self) (basename pdf_path) = Ok subject /\
          getsize w h2 pdf_path = Ok size /\
          EmailSender.send_email w sender (receiver_emails self) subject
            (render_html w (h2 ++ [GetSize pdf_path]) (basename pdf_path) summary size info)
            (Some [pdf_path]) (h2 ++ [GetSize pdf_path]) = (Ok true, h4) /\
          h' = h4 ++ [Print MsgDoneSent]
    end.
Proof.
  cbv beta iota zeta delta [process_pdf mail_stage bind note print
                                         create_email_body ask peek lift ret].
  fold (entered h pdf_path send_email).
  destruct (extract_text_from_pdf w pdf_path 50 (entered h pdf_path send_email))
    as [[text | e] h1] eqn:Ex; [| intros [=]].
  destruct (truthy text); cbn [negb]; [| intros [=]].
  destruct (summarize_text w self text (basename pdf_path) h1)
    as [[[[summary info] |] | e] h2] eqn:Esum; try (intros [=]; fail).
  destruct (if send_email && truthy_list (receiver_emails self)
            then email_sender self else None) as [sender |].
  - destruct (format_template (subject_template self) (basename pdf_path))
      as [subject | e] eqn:Ef; [| intros [=]].
    destruct (getsize w h2 pdf_path) as [size | e] eqn:Eg; [| intros [=]].
    destruct (EmailSender.send_email w sender (receiver_emails self) subject _ _ _)
      as [[[|] | e] h4] eqn:Es; try (intros [=]; fail).
    intros [= <-]. exists text, h1, summary, info, h2.
    split; [reflexivity |]. split; [exact Esum |].
    exists subject, size, h4. repeat split; first [reflexivity | assumption].
  - intros [= <-]. exists text, h1, summary, info, h2.
    split; [reflexivity |]. split; [exact Esum | reflexivity].
Qed.

Ltac filters := rewrite ?filter_app; simpl; rewrite ?app_nil_r.

Lemma process_pdf_true_facts w self pdf_path send_email h h' :
  process_pdf w self pdf_path send_email h = (Ok true, h') ->
  (exists text,
      fst (extract_text_from_pdf w pdf_path 50 (entered h pdf_path send_email)) = Ok text /\
      100 <= len (strip text) /\
      filter is_chat h'
      = filter is_chat h
          ++ [ChatCompletion (deployment_name self) (system_prompt self)
                             (user_prompt (basename pdf_path) text)])
  /\
  (forall sender,
      mail_stage self send_email = Some sender ->
      exists msg,
        filter is_send_message h' = filter is_send_message h ++ [SmtpSendMessage msg] /\
        msg_from msg = EmailSender.sender_email sender /\
        msg_to msg = join (u ", ") (receiver_emails self))
  /\
  (mail_stage self send_email = None ->
   filter is_delivery h' = filter is_delivery h).
Proof.
  intros H.
  destruct (process_pdf_true_inv w self pdf_path send_email h h' H)
    as (text & h1 & summary & info & h2 & Hx & Hs & Hm).
  destruct (summarize_some w self text (basename pdf_path) h1 _ h2 Hs) as [Hc Hlen].
  assert (Hx_all : forall P, (forall c, P (Print c) = false) ->
                             (forall p s, P (EnterProcessPdf p s) = false) ->
                             (forall p, P (OpenPdf p) = false) ->
                             (forall p i, P (ExtractPage p i) = false) ->
                             filter P h1 = filter P h).
  { intros P H1 H2 H3 H4.
    pose proof (quiet_filter P _ _ (entered h pdf_path send_email)
                  (extract_quiet w P pdf_path 50 H1 H3 H4)) as Hq.
    rewrite Hx in Hq. simpl in Hq. rewrite Hq. unfold entered.
    rewrite !filter_app. simpl. rewrite H1, H2, !app_nil_r. reflexivity. }
  assert (Hs_all : forall P, (forall c, P (Print c) = false) ->
                             (forall a b c, P (ChatCompletion a b c) = false) ->
                             filter P h2 = filter P h1).
  { intros P H1 H2.
    pose proof (quiet_filter P _ _ h1
                  (summarize_quiet w P self text (basename pdf_path) H1 H2)) as Hq.
    rewrite Hs in Hq. exact Hq. }
  assert (Hchat : filter is_chat h2
                  = filter is_chat h
                      ++ [ChatCompletion (deployment_name self) (system_prompt self)
                                         (user_prompt (basename pdf_path) text)]).
  { pose proof (StageFacts.summarize_text_asks_once w self text (basename pdf_path) h1
                  Hc Hlen) as Hf.
    rewrite Hs in Hf. simpl in Hf.
    rewrite Hf, (Hx_all is_chat); auto. }
  split; [| split].
  - exists text. rewrite Hx. split; [reflexivity |]. split; [exact Hlen |].
    destruct (mail_stage self send_email) as [sender |].
    + destruct Hm as (subject & size & h4 & _ & _ & Hsend & ->).
      match type of Hsend with
      | EmailSender.send_email _ ?s ?r ?su ?b ?a ?hh = _ =>
          pose proof (quiet_filter is_chat _ _ hh
                        (send_email_quiet w is_chat s r su b a
                           (fun _ => eq_refl) (fun _ => eq_refl)
                           (fun _ => eq_refl) (fun _ _ _ => eq_refl) eq_refl
                           (fun _ _ => eq_refl) (fun _ => eq_refl) eq_refl)) as Hq
      end.
      rewrite Hsend in Hq. simpl in Hq. filters. rewrite Hq. filters. exact Hchat.
    + subst h'. filters. exact Hchat.
  - intros sender Hsender. rewrite Hsender in Hm.
    destruct Hm as (subject & size & h4 & _ & _ & Hsend & ->).
    destruct (SendFacts.send_email_true_inv _ _ _ _ _ _ _ _ Hsend)
      as (msg & hc & _ & _ & _ & Hfrom & Hto & _ & _ & Hf).
    exists msg. split; [| auto].
    filters. rewrite Hf. filters.
    rewrite (Hs_all is_send_message), (Hx_all is_send_message); auto.
  - intros Hnone. rewrite Hnone in Hm. subst h'. filters.
    rewrite (Hs_all is_delivery), (Hx_all is_delivery); auto.
Qed.

(** X9.  Success means summarized, and delivered when mail is on. When
    [process_pdf] returns [True]: the extracted text had at least 100
    characters once trimmed and exactly one completion request was made,
    for that text; if the mail stage applies, exactly one message was
    handed to the relay, from the configured sender to the configured
    recipients; if it does not, nothing was done for delivery. *)
Theorem processed_means_summarized_and_delivered w self pdf_path send_email h h' :
  process_pdf w self pdf_path send_email h = (Ok true, h') ->
  (exists text,
      fst (extract_text_from_pdf w pdf_path 50 (entered h pdf_path send_email)) = Ok text /\
      100 <= len (strip text) /\
      filter is_chat h'
      = filter is_chat h
          ++ [ChatCompletion (deployment_name self) (system_prompt self)
                             (user_prompt (basename pdf_path) text)])
  /\
  (forall sender,
      mail_stage self send_email = Some sender ->
      exists msg,
        filter is_send_message h' = filter is_send_message h ++ [SmtpSendMessage msg] /\
        msg_from msg = EmailSender.sender_email sender /\
        msg_to msg = join (u ", ") (receiver_emails self))
  /\
  (mail_stage self send_email = None ->
   filter is_delivery h' = filter is_delivery h).
Proof. apply process_pdf_true_facts. Qed.

Lemma processed_means_summarized_and_delivered_witness :
  exists msg,
    filter is_send_message
           (snd (process_pdf Samples.world_ok Samples.summarizer_ok (u "d/a.pdf") true []))
    = filter is_send_message [] ++ [SmtpSendMessage msg] /\
    msg_from msg = EmailSender.sender_email Samples.sender_ok /\
    msg_to msg = join (u ", ") (receiver_emails Samples.summarizer_ok).
Proof.
  destruct (processed_means_summarized_and_delivered Samples.world_ok
              Samples.summarizer_ok (u "d/a.pdf") true []
              (snd (process_pdf Samples.world_ok Samples.summarizer_ok
                                (u "d/a.pdf") true []))) as (_ & B & _).
  - vm_compute. reflexivity.
  - apply (B Samples.sender_ok). reflexivity.
Defined.

Lemma occurrences_app P h evs :
  occurrences P (h ++ evs) = occurrences P h + occurrences P evs.
Proof. unfold occurrences, len. rewrite filter_app, length_app. lia. Qed.

Lemma occurrences_nonneg P h : 0 <= occurrences P h.
Proof. unfold occurrences, len. lia. Qed.

Section Backed.

Variable w : world.
Variable self : t.
Variable send_email : bool.
Variable P : event -> bool.
Hypothesis one_per_success :
  forall pdf_path h h',
    process_pdf w self pdf_path send_email h = (Ok true, h') ->
    occurrences P h' = occurrences P h + 1.

Lemma batch_step_backed n st i pdf_path h :
  exists st1 h1,
    batch_step w self send_email n st i pdf_path h = (Ok st1, h1) /\
    success st1 + occurrences P h <= success st + occurrences P h1.
Proof.
  unfold batch_step, bind, try_except, print, note, ret.
  destruct (process_pdf_grows w self send_email pdf_path (h ++ [Print (MsgProgress i n)]))
    as (evs & E & _).
  pose proof (one_per_success pdf_path (h ++ [Print (MsgProgress i n)])) as Ht.
  destruct (process_pdf w self pdf_path send_email (h ++ [Print (MsgProgress i n)]))
    as [[[|] | e] h2]; simpl in E; [specialize (Ht h2 eq_refl) | clear Ht | clear Ht];
    destruct (i <? n); eexists _, _; (split; [reflexivity |]);
    subst h2; rewrite ?occurrences_app in *; simpl;
    repeat match goal with
           | |- context [occurrences P ?l] =>
               lazymatch goal with
               | _ : 0 <= occurrences P l |- _ => fail
               | _ => pose proof (occurrences_nonneg P l)
               end
           end; lia.
Qed.

Lemma batch_loop_backed n files :
  forall i st h,
  exists st' h',
    batch_loop w self send_email n i files st h = (Ok st', h') /\
    success st' + occurrences P h <= success st + occurrences P h'.
Proof.
  induction files as [| p rest IH]; intros i st h; simpl.
  - exists st, h. split; [reflexivity | lia].
  - unfold bind.
    destruct (batch_step_backed n st i p h) as (st1 & h1 & -> & H1).
    destruct (IH (i + 1) st1 h1) as (st' & h' & -> & H2).
    exists st', h'. split; [reflexivity | lia].
Qed.

Lemma scan_backed directory max_files h :
  exists st h',
    scan_and_process_pdfs w self directory send_email max_files h = (Ok st, h') /\
    success st + occurrences P h <= occurrences P h'.
Proof.
  unfold scan_and_process_pdfs, bind, print, note, ask, ret.
  cbv beta iota.
  set (found := discover _).
  destruct (negb (truthy_list found)).
  - eexists _, _. split; [reflexivity |]. simpl.
    rewrite !occurrences_app.
    repeat match goal with
           | |- context [occurrences P ?l] =>
               lazymatch goal with
               | _ : 0 <= occurrences P l |- _ => fail
               | _ => pose proof (occurrences_nonneg P l)
               end
           end; lia.
  - destruct (truthy_int max_files);
      match goal with
      | |- context [batch_loop w self send_email ?n ?i ?l ?st ?h0] =>
          destruct (batch_loop_backed n l i st h0) as (st' & h' & -> & H)
      end; eexists _, _; (split; [reflexivity |]);
      simpl in H; rewrite !occurrences_app in *;
      repeat match goal with
             | |- context [occurrences P ?l] =>
                 lazymatch goal with
                 | _ : 0 <= occurrences P l |- _ => fail
                 | _ => pose proof (occurrences_nonneg P l)
                 end
             | _ : context [occurrences P ?l] |- _ =>
                 lazymatch goal with
                 | _ : 0 <= occurrences P l |- _ => fail
                 | _ => pose proof (occurrences_nonneg P l)
                 end
             end; lia.
Qed.

End Backed.



End SuccessFacts.

(** ** Loading the configuration and dispatching *)

Module MainFacts.

Import Py Codec Data Eff EffFacts Footprints PDFSummarizer Statements Notions.
Local Open Scope Z_scope.

Lemma find_config_stable w ex :
  (forall h p, path_exists w h p = ex p) ->
  forall paths h,
    find_config w paths h = (Ok (find ex paths), h ++ map Exists (tested ex paths)).
Proof.
  intros Hex. induction paths as [| p r IH]; intros h; simpl.
  - rewrite app_nil_r. reflexivity.
  - unfold bind, ask. rewrite Hex. destruct (ex p); simpl.
    + reflexivity.
    + rewrite IH, <- app_assoc. reflexivity.
Qed.

(** X11.  The configuration file. [load_config] tests [config.toml],
    [../config.toml] and [../../config.toml] in this order and loads the
    first that exists; later candidates are not tested, and when the
    file chosen cannot be parsed no other is tried: the result is
    [None], just as when none exists or the TOML library is missing. *)
Theorem load_config_takes_first_existing w ex h :
  (has_tomllib w = true ->
   (forall h p, path_exists w h p = ex p) ->
   let h1 := h ++ map Exists (tested ex config_paths) in
   load_config w h
   = match find ex config_paths with
     | None => (Ok None, h1 ++ [Print MsgNoConfigFile])
     | Some f =>
         match load_toml w h1 f with
         | Ok c => (Ok (Some c), (h1 ++ [LoadToml f]) ++ [Print MsgConfigLoaded])
         | Raise e => (Ok None, (h1 ++ [LoadToml f]) ++ [Print (MsgConfigError e)])
         end
     end)
  /\
  (has_tomllib w = false -> load_config w h = (Ok None, h ++ [Print MsgNoTomllib])).
Proof.
  split.
  - intros Hlib Hex h1. unfold load_config. rewrite Hlib. cbn [negb].
    unfold bind at 1. rewrite (find_config_stable w ex Hex). fold h1.
    destruct (find ex config_paths) as [f |]; [| reflexivity].
    unfold try_except, bind, ask, print, note, ret.
    destruct (load_toml w h1 f); reflexivity.
  - intros Hlib. unfold load_config. rewrite Hlib. reflexivity.
Qed.

Lemma load_config_takes_first_existing_witness :
  load_config Inputs.world_broken_config []
  = (Ok None, [Exists (u "config.toml"); Exists (u "../config.toml");
               LoadToml (u "../config.toml");
               Print (MsgConfigError (OtherException "TOMLDecodeError"))]).
Proof.
  apply (proj1 (load_config_takes_first_existing Inputs.world_broken_config
                  Inputs.parent_config_only []) eq_refl).
  reflexivity.
Defined.

Lemma process_pdf_never_walks w self pdf_path send_email :
  quiet is_walk (process_pdf w self pdf_path send_email).
Proof.
  unfold process_pdf. apply quiet_bind; [eff | intros _]. process_tail.
Qed.

Lemma filter_prints P evs :
  (forall c, P (Print c) = false) ->
  Forall (fun e => exists line, e = Print line) evs -> filter P evs = [].
Proof.
  intros HP H. induction H as [| e l (line & ->) _ IH]; simpl; [reflexivity |].
  rewrite HP. exact IH.
Qed.

(** X13.  A file on the command line wins. When [-f] names a file,
    [main] never walks a directory, whatever [-d] and [-n] say, and
    enters [process_pdf] at most once, for that file and with mail on
    unless [--no-email] was given. *)
Theorem file_argument_wins w a h :
  truthy_opt (arg_file a) = true ->
  filter is_walk (snd (main w a h)) = filter is_walk h
  /\
  (filter is_enter (snd (main w a h)) = filter is_enter h
   \/
   filter is_enter (snd (main w a h))
   = filter is_enter h
       ++ [EnterProcessPdf (get (arg_file a) []) (negb (arg_no_email a))]).
Proof.
  intros Hf. split.
  - apply quiet_filter. unfold main.
    apply quiet_bind; [apply load_config_quiet; side | intros [c |]]; [| eff].
    destruct (negb (truthy_config c)); [eff |].
    destruct (negb (truthy_opt (cfg_api_key (get (azure_openai c) empty_azure)))); [eff |].
    apply quiet_bind; [unfold init; eff | intros self].
    cbv zeta. rewrite Hf.
    apply quiet_bind; [eff | intros [|]]; [| eff].
    apply quiet_bind; [apply process_pdf_never_walks | eff].
  - assert (Hev : exists evs,
               filter is_enter (snd (main w a h)) = filter is_enter h ++ evs /\
               (evs = [] \/
                evs = [EnterProcessPdf (get (arg_file a) []) (negb (arg_no_email a))]));
      [| destruct Hev as (evs & -> & [-> | ->]);
         [left; apply app_nil_r | right; reflexivity]].
    pose proof (quiet_filter is_enter _ _ h
                  (load_config_quiet w is_enter (fun _ => eq_refl) (fun _ => eq_refl)
                     (fun _ => eq_refl))) as Hl.
    unfold main, bind at 1.
    destruct (load_config w h) as [[[c |] | e] h1]; simpl in Hl;
      [| exists []; split; [simpl; rewrite filter_app, Hl; reflexivity | auto]
       | exists []; split; [simpl; rewrite Hl, app_nil_r; reflexivity | auto]].
    destruct (negb (truthy_config c));
      [exists []; split; [simpl; rewrite filter_app, Hl; reflexivity | auto] |].
    destruct (negb (truthy_opt (cfg_api_key (get (azure_openai c) empty_azure))));
      [exists []; split; [simpl; rewrite filter_app, Hl; reflexivity | auto] |].
    unfold bind at 1.
    destruct (StartupFacts.init_returns w c h1) as (self & evs & -> & Hprints & _).
    cbv zeta. rewrite Hf. unfold bind at 1, ask.
    assert (Hh2 : filter is_enter (h1 ++ evs) = filter is_enter h).
    { rewrite filter_app, (filter_prints is_enter evs (fun _ => eq_refl) Hprints), Hl.
      apply app_nil_r. }
    destruct (path_exists w (h1 ++ evs) (get (arg_file a) [])).
    + eexists. split; [| right; reflexivity].
      rewrite StartupFacts.snd_bind_ret, process_pdf_enters_once.
      rewrite filter_app, Hh2. simpl. rewrite app_nil_r. reflexivity.
    + exists []. split; [| auto].
      simpl. rewrite 2 filter_app, Hh2. simpl. rewrite !app_nil_r. reflexivity.
Qed.

Lemma file_argument_wins_witness :
  filter is_walk (snd (main Samples.world_ok Inputs.args_file_and_dir [])) = filter is_walk []
  /\
  (filter is_enter (snd (main Samples.world_ok Inputs.args_file_and_dir []))
   = filter is_enter []
   \/
   filter is_enter (snd (main Samples.world_ok Inputs.args_file_and_dir []))
   = filter is_enter []
       ++ [EnterProcessPdf (get (arg_file Inputs.args_file_and_dir) [])
                           (negb (arg_no_email Inputs.args_file_and_dir))]).
Proof.
  apply (file_argument_wins Samples.world_ok Inputs.args_file_and_dir []).
  reflexivity.
Defined.

Example file_and_directory_given :
  filter (fun e => is_walk e || is_enter e)
         (snd (main Samples.world_ok Inputs.args_file_and_dir []))
  = [EnterProcessPdf (u "a.pdf") true].
Proof. vm_compute. reflexivity. Qed.

End MainFacts.

(** ** The recipient list and the subject template *)

Module ConfigFacts.

Import Py Codec Data Eff PDFSummarizer Statements Notions.
Local Open Scope N_scope.

Lemma lstrip_suffix s :
  exists pre, s = pre ++ lstrip s /\ forallb isspace pre = true.
Proof.
  induction s as [| c r (pre & E & Hp)]; simpl.
  - exists []. auto.
  - destruct (isspace c) eqn:Ec.
    + exists (c :: pre). simpl. rewrite Ec, Hp. split; [f_equal; exact E | reflexivity].
    + exists []. auto.
Qed.

Lemma lstrip_head s c r : lstrip s = c :: r -> isspace c = false.
Proof.
  induction s as [| a s IH]; simpl; [discriminate |].
  destruct (isspace a) eqn:Ea; [exact IH |].
  intros [= <- _]. exact Ea.
Qed.

Lemma lstrip_fixed s :
  match s with [] => true | c :: _ => negb (isspace c) end = true -> lstrip s = s.
Proof.
  destruct s as [| c r]; [reflexivity |]. simpl. intros H.
  apply negb_true_iff in H. rewrite H. reflexivity.
Qed.

Lemma rstrip_prefix s :
  exists post, s = rstrip s ++ post /\ forallb isspace post = true.
Proof.
  unfold rstrip. destruct (lstrip_suffix (rev s)) as (pre & E & Hp).
  exists (rev pre). split.
  - rewrite <- rev_app_distr, <- E, rev_involutive. reflexivity.
  - rewrite forallb_forall in *. intros x Hx. apply Hp. apply in_rev. exact Hx.
Qed.

Lemma strip_parts s :
  exists pre post, s = pre ++ strip s ++ post.
Proof.
  destruct (lstrip_suffix s) as (pre & E & _).
  destruct (rstrip_prefix (lstrip s)) as (post & E' & _).
  exists pre, post. unfold strip. rewrite <- E'. exact E.
Qed.

Lemma strip_ends s :
  strip s <> [] ->
  match strip s with [] => false | c :: _ => negb (isspace c) end = true /\
  match rev (strip s) with [] => false | c :: _ => negb (isspace c) end = true.
Proof.
  intros Hne. split.
  - destruct (rstrip_prefix (lstrip s)) as (post & E & _). fold (strip s) in E.
    destruct (strip s) as [| c r] eqn:Es; [contradiction |].
    simpl in E. apply lstrip_head in E. rewrite E. reflexivity.
  - unfold strip, rstrip in *. rewrite rev_involutive.
    destruct (lstrip (rev (lstrip s))) as [| c r] eqn:El; [contradiction Hne; reflexivity |].
    apply lstrip_head in El. rewrite El. reflexivity.
Qed.

Lemma strip_clean e : clean e = true -> strip e = e.
Proof.
  unfold clean. intros H. apply andb_prop in H as [H _]. apply andb_prop in H as [H1 H2].
  unfold strip, rstrip.
  rewrite (lstrip_fixed e).
  - rewrite (lstrip_fixed (rev e)); [apply rev_involutive |].
    destruct (rev e); [discriminate H2 | exact H2].
  - destruct e; [discriminate H1 | exact H1].
Qed.

Lemma split_on_nonempty d s : split_on d s <> [].
Proof.
  induction s as [| c r IH]; simpl; [discriminate |].
  destruct (c =? d); [discriminate |].
  destruct (split_on d r); [contradiction | discriminate].
Qed.

Lemma split_on_fields d s :
  Forall (fun f => existsb (N.eqb d) f = false) (split_on d s).
Proof.
  induction s as [| c r IH]; simpl.
  - repeat constructor.
  - destruct (N.eqb_spec c d) as [-> | Hne].
    + constructor; [reflexivity | exact IH].
    + destruct (split_on d r) as [| f fs]; [repeat constructor; simpl |].
      * destruct (N.eqb_spec d c); [congruence | reflexivity].
      * inversion IH as [| ? ? Hf Hfs]; subst. constructor; [| exact Hfs].
        simpl. rewrite Hf. destruct (N.eqb_spec d c); [congruence | reflexivity].
Qed.

Lemma split_on_app d p x :
  existsb (N.eqb d) p = false -> split_on d (p ++ d :: x) = p :: split_on d x.
Proof.
  induction p as [| c r IH]; simpl.
  - intros _. rewrite N.eqb_refl. reflexivity.
  - intros H. apply orb_false_elim in H as [Hc Hr].
    rewrite N.eqb_sym, Hc, (IH Hr). reflexivity.
Qed.

Lemma split_on_single d p :
  existsb (N.eqb d) p = false -> split_on d p = [p].
Proof.
  induction p as [| c r IH]; simpl; [reflexivity |].
  intros H. apply orb_false_elim in H as [Hc Hr].
  rewrite N.eqb_sym, Hc, (IH Hr). reflexivity.
Qed.

Lemma clean_no_comma e : clean e = true -> existsb (N.eqb 44) e = false.
Proof.
  unfold clean. intros H. apply andb_prop in H as [_ H].
  apply negb_true_iff in H. exact H.
Qed.

Lemma clean_truthy e : clean e = true -> truthy e = true.
Proof. destruct e; [discriminate | reflexivity]. Qed.

(** A leading space before the first field changes nothing. *)
Lemma parse_receivers_space x : parse_receivers (32 :: x) = parse_receivers x.
Proof.
  unfold parse_receivers. simpl.
  destruct (split_on 44 x) as [| f fs] eqn:E; [exfalso; exact (split_on_nonempty _ _ E) |].
  assert (Hs : strip (32 :: f) = strip f) by reflexivity.
  cbn [filter]. rewrite Hs. destruct (truthy (strip f)); cbn [map]; rewrite ?Hs; reflexivity.
Qed.

(** X14.  The recipient list. Whatever the configured string, every
    recipient kept is not empty, has no white space at either end and no
    comma; and a list of such recipients, joined as the To header joins
    them, is read back unchanged. *)
Theorem recipients_are_clean_and_round_trip :
  (forall s, Forall (fun e => clean e = true) (parse_receivers s))
  /\
  (forall l, Forall (fun e => clean e = true) l ->
             parse_receivers (join (u ", ") l) = l).
Proof.
  split.
  - intros s. unfold parse_receivers.
    apply Forall_forall. intros e He.
    apply in_map_iff in He as (f & <- & Hf). apply filter_In in Hf as [Hf Ht].
    pose proof (split_on_fields 44 s) as Hc. rewrite Forall_forall in Hc.
    specialize (Hc f Hf).
    assert (Hne : strip f <> []) by (destruct (strip f); [discriminate Ht | discriminate]).
    destruct (strip_ends f Hne) as [H1 H2].
    unfold clean. rewrite H1, H2. simpl.
    destruct (strip_parts f) as (pre & post & E).
    rewrite E, !existsb_app in Hc.
    apply orb_false_elim in Hc as [_ Hc]. apply orb_false_elim in Hc as [Hc _].
    rewrite Hc. reflexivity.
  - intros l Hl. induction Hl as [| p r Hp Hr IH]; [reflexivity |].
    destruct r as [| q r'].
    + simpl. unfold parse_receivers.
      rewrite (split_on_single 44 p (clean_no_comma p Hp)). cbn [filter].
      rewrite (strip_clean p Hp), (clean_truthy p Hp). cbn [map].
      rewrite (strip_clean p Hp). reflexivity.
    + change (join (u ", ") (p :: q :: r'))
        with (p ++ 44 :: 32 :: join (u ", ") (q :: r')).
      assert (Hsplit : split_on 44 (p ++ 44 :: 32 :: join (u ", ") (q :: r'))
                       = p :: split_on 44 (32 :: join (u ", ") (q :: r')))
        by (apply split_on_app, clean_no_comma, Hp).
      rewrite <- IH at 2. rewrite <- (parse_receivers_space (join (u ", ") (q :: r'))).
      unfold parse_receivers. rewrite Hsplit. cbn [filter].
      rewrite (strip_clean p Hp), (clean_truthy p Hp). cbn [map].
      rewrite (strip_clean p Hp). reflexivity.
Qed.

Lemma recipients_are_clean_and_round_trip_witness :
  parse_receivers (join (u ", ") [u "a@example"; u "b c@example"])
  = [u "a@example"; u "b c@example"].
Proof.
  apply (proj2 recipients_are_clean_and_round_trip).
  repeat constructor.
Defined.

Example receivers_parsed :
  parse_receivers (u " a@example ,, b@example,  ") = [u "a@example"; u "b@example"]
  /\ parse_receivers (u " , ,") = []
  /\ join (u ", ") (parse_receivers (u " a@example ,, b@example,  "))
     = u "a@example, b@example".
Proof. repeat split. Qed.

Lemma format_field_filename name filename :
  str_eqb name (u "filename") = false ->
  format_field name filename
  = Raise (if forallb isdigit name then IndexError else KeyError name).
Proof.
  intros H. unfold format_field. rewrite H.
  destruct (forallb isdigit name); reflexivity.
Qed.



Example positional_field_raises :
  format_template [Lit (u "Summary: "); Field []] (u "report.pdf") = Raise IndexError
  /\ format_template [Field (u "0")] (u "report.pdf") = Raise IndexError
  /\ format_template [Field (u "filename"); Lit (u " / "); Field (u "filename")] (u "r.pdf")
     = Ok (u "r.pdf / r.pdf").
Proof. repeat split. Qed.

End ConfigFacts.

(** ** The payload of an attachment *)

Module PayloadFacts.

Import Py Codec Data CodecFacts EmailSender Statements Decoding.
Local Open Scope N_scope.

Lemma b64_index_char i : i < 64 -> b64_index (b64_char i) = Some i.
Proof.
  intros Hi. unfold b64_char.
  destruct (N.ltb_spec i 26); [unfold b64_index; tests; f_equal; lia |].
  destruct (N.ltb_spec i 52); [unfold b64_index; tests; f_equal; lia |].
  destruct (N.ltb_spec i 62); [unfold b64_index; tests; f_equal; lia |].
  destruct (N.eqb_spec i 62); [subst; reflexivity |].
  assert (i = 63) as -> by lia. reflexivity.
Qed.

(** A character of the alphabet is neither the padding nor a line break. *)
Lemma b64_char_plain i :
  i < 64 -> (b64_char i =? 61) = false /\ (b64_char i =? 10) = false.
Proof.
  intros Hi. unfold b64_char.
  destruct (N.ltb_spec i 26); [split; apply N.eqb_neq; lia |].
  destruct (N.ltb_spec i 52); [split; apply N.eqb_neq; lia |].
  destruct (N.ltb_spec i 62); [split; apply N.eqb_neq; lia |].
  destruct (N.eqb_spec i 62); split; reflexivity.
Qed.

Lemma b64_decode_encode_upto n :
  forall bs, (length bs <= n)%nat -> octets bs -> b64_decode (b64_encode bs) = Some bs.
Proof.
  induction n as [| n IH]; intros bs Hn Hbs.
  - destruct bs; [reflexivity | simpl in Hn; lia].
  - destruct bs as [| x [| y [| z r]]]; [reflexivity | | |].
    + inversion Hbs as [| ? ? Hx _]; subst.
      cbn [b64_encode]. cbv zeta.
      cbn [b64_decode].
      rewrite !b64_index_char by lia.
      change (61 =? 61) with true. cbv iota. f_equal. f_equal. lia.
    + inversion Hbs as [| ? ? Hx Hr]; subst. inversion Hr as [| ? ? Hy _]; subst.
      cbn [b64_encode]. cbv zeta. cbn [b64_decode].
      rewrite !b64_index_char by lia.
      destruct (b64_char_plain (((x * 65536 + y * 256) / 64) mod 64)) as [-> _]; [lia |].
      change (61 =? 61) with true. cbv iota zeta. f_equal. f_equal; [lia |].
      f_equal. lia.
    + inversion Hbs as [| ? ? Hx Hr]; subst. inversion Hr as [| ? ? Hy Hr']; subst.
      inversion Hr' as [| ? ? Hz Hrest]; subst.
      cbn [b64_encode]. cbv zeta. cbn [b64_decode].
      rewrite !b64_index_char by lia.
      destruct (b64_char_plain (((x * 65536 + y * 256 + z) / 64) mod 64)) as [-> _]; [lia |].
      destruct (b64_char_plain ((x * 65536 + y * 256 + z) mod 64)) as [-> _]; [lia |].
      cbv zeta. rewrite IH; [| simpl in Hn; lia | exact Hrest].
      cbn [option_map]. f_equal. f_equal; [lia |]. f_equal; [lia |]. f_equal. lia.
Qed.

Lemma b64_decode_encode bs : octets bs -> b64_decode (b64_encode bs) = Some bs.
Proof. apply (b64_decode_encode_upto (length bs)). apply Nat.le_refl. Qed.

Lemma b64_encode_no_newline_upto n :
  forall bs, (length bs <= n)%nat -> octets bs ->
             filter not_newline (b64_encode bs) = b64_encode bs.
Proof.
  unfold not_newline.
  induction n as [| n IH]; intros bs Hn Hbs.
  - destruct bs; [reflexivity | simpl in Hn; lia].
  - destruct bs as [| x [| y [| z r]]]; [reflexivity | | |].
    + inversion Hbs as [| ? ? Hx _]; subst.
      cbn [b64_encode]. cbv zeta. cbn [filter].
      destruct (b64_char_plain (x * 65536 / 262144)) as [_ ->]; [lia |].
      destruct (b64_char_plain ((x * 65536 / 4096) mod 64)) as [_ ->]; [lia |].
      reflexivity.
    + inversion Hbs as [| ? ? Hx Hr]; subst. inversion Hr as [| ? ? Hy _]; subst.
      cbn [b64_encode]. cbv zeta. cbn [filter].
      destruct (b64_char_plain ((x * 65536 + y * 256) / 262144)) as [_ ->]; [lia |].
      destruct (b64_char_plain (((x * 65536 + y * 256) / 4096) mod 64)) as [_ ->]; [lia |].
      destruct (b64_char_plain (((x * 65536 + y * 256) / 64) mod 64)) as [_ ->]; [lia |].
      reflexivity.
    + inversion Hbs as [| ? ? Hx Hr]; subst. inversion Hr as [| ? ? Hy Hr']; subst.
      inversion Hr' as [| ? ? Hz Hrest]; subst.
      cbn [b64_encode]. cbv zeta. cbn [filter].
      destruct (b64_char_plain ((x * 65536 + y * 256 + z) / 262144)) as [_ ->]; [lia |].
      destruct (b64_char_plain (((x * 65536 + y * 256 + z) / 4096) mod 64))
        as [_ ->]; [lia |].
      destruct (b64_char_plain (((x * 65536 + y * 256 + z) / 64) mod 64))
        as [_ ->]; [lia |].
      destruct (b64_char_plain ((x * 65536 + y * 256 + z) mod 64)) as [_ ->]; [lia |].
      cbn [negb]. rewrite IH; [reflexivity | simpl in Hn; lia | exact Hrest].
Qed.

Lemma b64_encode_app k :
  forall a b, length a = (3 * k)%nat ->
              b64_encode (a ++ b) = b64_encode a ++ b64_encode b.
Proof.
  induction k as [| k IH]; intros a b Ha.
  - destruct a; [reflexivity | discriminate Ha].
  - destruct a as [| x [| y [| z r]]]; try (simpl in Ha; lia).
    cbn [app b64_encode]. cbv zeta. rewrite IH by (simpl in Ha; lia). reflexivity.
Qed.

Lemma octets_split n bs : octets bs -> octets (firstn n bs) /\ octets (skipn n bs).
Proof.
  unfold octets. intros H. rewrite <- (firstn_skipn n bs) in H.
  apply Forall_app in H. exact H.
Qed.

Lemma encodebytes_lines_joined fuel :
  forall bs, (length bs <= fuel)%nat -> octets bs ->
             filter not_newline (encodebytes_lines fuel bs) = b64_encode bs.
Proof.
  induction fuel as [| fuel IH]; intros bs Hn Hbs.
  - destruct bs; [reflexivity | simpl in Hn; lia].
  - destruct bs as [| x r]; [reflexivity |].
    cbn [encodebytes_lines].
    destruct (octets_split 57 (x :: r) Hbs) as [Hf Hs].
    rewrite !filter_app.
    rewrite (b64_encode_no_newline_upto _ _ (Nat.le_refl _) Hf).
    rewrite IH; [| rewrite length_skipn; simpl in Hn |- *; lia | exact Hs].
    cbn [filter not_newline N.eqb Pos.eqb negb app].
    destruct (Nat.le_gt_cases 57 (length (x :: r))) as [Hlen | Hlen].
    + rewrite <- (b64_encode_app 19); [rewrite firstn_skipn; reflexivity |].
      rewrite length_firstn. lia.
    + rewrite skipn_all2 by lia. rewrite firstn_all2 by lia.
      cbn [b64_encode]. apply app_nil_r.
Qed.

(** X16.  The payload carries the file. The payload of the part built
    for a file is base64 text that decodes, line breaks dropped, to
    exactly the octets read from the file, whatever its length. *)
Theorem attachment_payload_decodes filename data part :
  octets data ->
  make_part filename data = Ok part ->
  decodebytes (part_payload part) = Some data /\
  part_transfer_encoding part = u "base64".
Proof.
  intros Hd Hm. unfold make_part in Hm.
  destruct (mime_type filename) as [mt st].
  destruct (quote filename) as [q | e]; [| discriminate Hm].
  destruct (header_value _ _) as [d | e]; [| discriminate Hm].
  injection Hm as <-. cbn [part_payload part_transfer_encoding].
  split; [| reflexivity].
  unfold decodebytes, encodebytes.
  rewrite (encodebytes_lines_joined _ _ (Nat.le_refl _) Hd).
  apply b64_decode_encode. exact Hd.
Qed.

Lemma attachment_payload_decodes_witness :
  exists part,
    make_part (u "a.pdf") Samples.man = Ok part /\
    decodebytes (part_payload part) = Some Samples.man /\
    part_transfer_encoding part = u "base64".
Proof.
  eexists. split; [reflexivity |].
  apply (attachment_payload_decodes (u "a.pdf") Samples.man).
  - repeat constructor.
  - reflexivity.
Defined.

Example hundred_octets_two_lines :
  length (filter (fun c => c =? 10) (encodebytes (repeat 255 100))) = 2%nat
  /\ decodebytes (encodebytes (repeat 255 100)) = Some (repeat 255 100).
Proof. vm_compute. split; reflexivity. Qed.

End PayloadFacts.

(** ** A summarizer without a completion client *)

Module ClientFacts.

Import Py Codec Data Eff EffFacts Footprints PDFSummarizer Statements Notions BatchFacts.
Local Open Scope Z_scope.

Section NoClient.

Variable w : world.
Variable self : t.
Variable send_email : bool.
Hypothesis no_client : client self = false.

Lemma process_pdf_without_client pdf_path h :
  exists h',
    process_pdf w self pdf_path send_email h = (Ok false, h') /\
    filter is_chat h' = filter is_chat h.
Proof.
  cbv beta iota zeta delta [process_pdf bind note print ret].
  fold (entered h pdf_path send_email).
  pose proof (quiet_filter is_chat _ _ (entered h pdf_path send_email)
                (extract_quiet w is_chat pdf_path 50
                   (fun _ => eq_refl) (fun _ => eq_refl) (fun _ _ => eq_refl))) as Hq.
  destruct (extract_never_raises w pdf_path 50 (entered h pdf_path send_email))
    as (text & h1 & E).
  rewrite E in Hq |- *. simpl in Hq.
  assert (Hh1 : filter is_chat h1 = filter is_chat h).
  { rewrite Hq. unfold entered. rewrite !filter_app. simpl. rewrite !app_nil_r.
    reflexivity. }
  destruct (truthy text); cbn [negb].
  - unfold summarize_text. rewrite no_client.
    cbv beta iota zeta delta [negb bind print note ret].
    eexists. split; [reflexivity |].
    rewrite !filter_app. simpl. rewrite !app_nil_r. exact Hh1.
  - eexists. split; [reflexivity |].
    rewrite filter_app. simpl. rewrite app_nil_r. exact Hh1.
Qed.

Lemma batch_step_without_client n st i pdf_path h :
  exists h',
    batch_step w self send_email n st i pdf_path h = (Ok (add_failed st), h') /\
    filter is_chat h' = filter is_chat h.
Proof.
  unfold batch_step, bind, try_except, print, note, ret.
  destruct (process_pdf_without_client pdf_path (h ++ [Print (MsgProgress i n)]))
    as (h1 & -> & Hf).
  rewrite filter_app in Hf. simpl in Hf. rewrite app_nil_r in Hf.
  destruct (i <? n); eexists; (split; [reflexivity |]);
    rewrite ?filter_app; simpl; rewrite ?app_nil_r; exact Hf.
Qed.

Lemma batch_loop_without_client n files :
  forall i st h,
  exists st' h',
    batch_loop w self send_email n i files st h = (Ok st', h') /\
    total st' = total st /\
    success st' = success st /\
    failed st' = failed st + len files /\
    filter is_chat h' = filter is_chat h.
Proof.
  induction files as [| p rest IH]; intros i st h; simpl.
  - exists st, h. unfold ret, len. simpl. repeat split; lia.
  - unfold bind.
    destruct (batch_step_without_client n st i p h) as (h1 & -> & Hf).
    destruct (IH (i + 1) (add_failed st) h1) as (st' & h' & -> & Ht & Hs & Hfl & Hc).
    exists st', h'. split; [reflexivity |].
    unfold len in *. simpl length. rewrite Nat2Z.inj_succ. simpl in Ht, Hs, Hfl.
    repeat split; [lia | lia | lia | congruence].
Qed.

End NoClient.

(** X17.  No client, no success. A summarizer built without a completion
    client (the library, the key or the endpoint is missing) fails every
    document of a batch and never calls the backend; [main] only checks
    the key, so a configuration with a key and no endpoint starts such a
    batch. *)
Theorem batch_without_client_fails_everything :
  (forall w self directory send_email max_files h,
      client self = false ->
      exists st h',
        scan_and_process_pdfs w self directory send_email max_files h = (Ok st, h') /\
        success st = 0 /\ failed st = total st /\
        filter is_chat h' = filter is_chat h)
  /\
  (forall w c h,
      truthy_opt (cfg_endpoint (get (azure_openai c) empty_azure)) = false ->
      exists self h', init w c h = (Ok self, h') /\ client self = false).
Proof.
  split.
  - intros w self directory send_email max_files h Hc.
    unfold scan_and_process_pdfs.
    cbv beta iota zeta delta [bind print note ask ret].
    set (found := discover _).
    destruct (truthy_list found); cbn [negb].
    + destruct (truthy_int max_files);
        match goal with
        | |- context [batch_loop w self send_email ?n ?i ?l ?st ?hh] =>
            destruct (batch_loop_without_client w self send_email Hc n l i st hh)
              as (st' & h' & -> & Ht & Hs & Hf & Hch)
        end;
        (eexists _, _; split; [reflexivity |]);
        simpl in Ht, Hs, Hf; cbn [snd fst];
        (split; [exact Hs |]); (split; [lia |]);
        rewrite filter_app, Hch, !filter_app; simpl; rewrite ?app_nil_r; reflexivity.
    + eexists _, _. split; [reflexivity |]. simpl.
      split; [reflexivity |]. split; [reflexivity |].
      rewrite !filter_app. simpl. rewrite !app_nil_r. reflexivity.
  - intros w c h He. unfold init.
    cbv beta iota zeta delta [bind print note ret].
    rewrite He, andb_false_r.
    destruct (truthy_opt (cfg_smtp_server _) && _ && _);
      eexists _, _; split; reflexivity.
Qed.

Lemma batch_without_client_fails_everything_witness :
  (exists st h',
      scan_and_process_pdfs Samples.world_ok Inputs.summarizer_no_client (u "d") true
                            None [] = (Ok st, h') /\
      success st = 0 /\ failed st = total st /\
      filter is_chat h' = filter is_chat [])
  /\
  (exists self h',
      init Samples.world_ok Inputs.config_no_endpoint [] = (Ok self, h') /\
      client self = false).
Proof.
  destruct batch_without_client_fails_everything as [A B].
  split.
  - apply A. reflexivity.
  - apply B. reflexivity.
Defined.

Example key_without_endpoint :
  fst (init Samples.world_ok Inputs.config_no_endpoint []) = Ok Inputs.summarizer_no_client
  /\ In (Print (MsgStats 2 0 2))
        (snd (main (Samples.world_with Inputs.config_no_endpoint Samples.pages_ok)
                   (Samples.args_dir None) [])).
Proof. vm_compute. split; [reflexivity | auto 80]. Qed.

End ClientFacts.
